(** * getdata: a web content extractor (src/main.py)

    A shallow embedding of the fetch / parse / render pipeline of
    [src/main.py] and the properties of its specification.

    Layout:
    - [PyStr], [PyInt]: the Python string operations and [int()] used by
      the program;
    - [Ipaddress], [Urllib]: the functions of [urllib.parse] the
      program calls ([urlparse], [geturl], [urljoin]), with the checks
      [urlsplit] makes on the network location;
    - [Bs4]: the document tree and the BeautifulSoup queries the program
      uses ([find], [find_all], [get], [get_text(strip=True)]);
    - [Effects]: the world the program runs in (HTTP transport, random
      source, HTML parser, headless browser), the trace of what it did,
      and a state-and-exception monad;
    - [CrawlerAgent], [ParserAgent], [process_url], [Streamlit]: the
      program;
    - the theorems.

    Text is modelled by [string], one character per code point below 256. *)

From Stdlib Require Import String Ascii List ZArith NArith Bool Arith Lia
  DecimalString.
Import ListNotations.
#[local] Set Warnings "-register-all".
Local Open Scope list_scope.
Local Open Scope string_scope.

(* ===================================================================== *)
(** ** Exceptions *)

(** The exception classes the program's [except] clauses tell apart, and
    the ones the libraries raise on the paths modelled here; all of them
    are caught by [except Exception]. *)
Inductive exn_class : Type :=
| SSLError            (* requests.exceptions.SSLError *)
| RequestException    (* any other requests.exceptions.RequestException *)
| ValueError
| OverflowError
| WebDriverException  (* selenium's errors, TimeoutException included *)
| OtherException.

Inductive exn : Type := Exn (cls : exn_class) (msg : string).

(** [str(e)] *)
Definition exn_str (e : exn) : string := let 'Exn _ m := e in m.
Definition exn_cls (e : exn) : exn_class := let 'Exn c _ := e in c.

(** [except requests.exceptions.SSLError] *)
Definition is_SSLError (e : exn) : bool :=
  match exn_cls e with SSLError => true | _ => false end.

(** [except requests.exceptions.RequestException]: [SSLError] is one of
    its subclasses. *)
Definition is_RequestException (e : exn) : bool :=
  match exn_cls e with SSLError | RequestException => true | _ => false end.

(** The outcome of a call that may raise. *)
Inductive result (A : Type) : Type :=
| Ok (a : A)
| Err (e : exn).
Arguments Ok {A} a.
Arguments Err {A} e.

(* ===================================================================== *)
(** ** Python string operations *)

Module PyStr.

Definition code (c : ascii) : nat := nat_of_ascii c.

Definition between (lo hi : nat) (c : ascii) : bool :=
  (lo <=? code c)%nat && (code c <=? hi)%nat.

Definition is_digit (c : ascii) : bool := between 48 57 c.
Definition is_upper (c : ascii) : bool := between 65 90 c.
Definition is_lower (c : ascii) : bool := between 97 122 c.
(** [c.isascii() and c.isalpha()] *)
Definition is_ascii_alpha (c : ascii) : bool := is_upper c || is_lower c.

(** [c.isspace()] on code points below 256. *)
Definition is_space (c : ascii) : bool :=
  between 9 13 c || between 28 32 c
  || (code c =? 133)%nat || (code c =? 160)%nat.

(** [c in s] for a one-character [c]. *)
Fixpoint contains (c : ascii) (s : string) : bool :=
  match s with
  | EmptyString => false
  | String d t => Ascii.eqb c d || contains c t
  end.

Fixpoint all_chars (p : ascii -> bool) (s : string) : bool :=
  match s with
  | EmptyString => true
  | String c t => p c && all_chars p t
  end.

(** [break p s] cuts [s] before its first character satisfying [p]. *)
Fixpoint break (p : ascii -> bool) (s : string) : string * string :=
  match s with
  | EmptyString => (EmptyString, EmptyString)
  | String c t =>
      if p c then (EmptyString, s)
      else let '(a, b) := break p t in (String c a, b)
  end.

(** [s.partition(c)]: text before the first [c], whether [c] was found,
    text after it. *)
Definition partition (c : ascii) (s : string) : string * bool * string :=
  match break (Ascii.eqb c) s with
  | (a, String _ b) => (a, true, b)
  | (a, EmptyString) => (a, false, EmptyString)
  end.

(** [s.startswith(p)] *)
Fixpoint startswith (p s : string) : bool :=
  match p with
  | EmptyString => true
  | String c p' =>
      match s with
      | String d s' => Ascii.eqb c d && startswith p' s'
      | EmptyString => false
      end
  end.

Fixpoint lstrip_by (p : ascii -> bool) (s : string) : string :=
  match s with
  | EmptyString => EmptyString
  | String c t => if p c then lstrip_by p t else s
  end.

Fixpoint rev_onto (s acc : string) : string :=
  match s with
  | EmptyString => acc
  | String c t => rev_onto t (String c acc)
  end.
Definition rev (s : string) : string := rev_onto s EmptyString.

Definition rstrip_by (p : ascii -> bool) (s : string) : string :=
  rev (lstrip_by p (rev s)).

(** [s.strip()] *)
Definition strip (s : string) : string :=
  rstrip_by is_space (lstrip_by is_space s).

(** [s.replace(c, "")] for each [c] satisfying [p]. *)
Fixpoint remove_by (p : ascii -> bool) (s : string) : string :=
  match s with
  | EmptyString => EmptyString
  | String c t => if p c then remove_by p t else String c (remove_by p t)
  end.

Definition lower_char (c : ascii) : ascii :=
  if is_upper c then ascii_of_nat (code c + 32) else c.

(** [s.lower()] on ASCII letters. *)
Fixpoint lower (s : string) : string :=
  match s with
  | EmptyString => EmptyString
  | String c t => String (lower_char c) (lower t)
  end.

(** [s.split(c)]: never the empty list. *)
Fixpoint split (c : ascii) (s : string) : list string :=
  match s with
  | EmptyString => [EmptyString]
  | String d t =>
      if Ascii.eqb d c then EmptyString :: split c t
      else match split c t with
           | h :: r => String d h :: r
           | [] => [String d EmptyString]
           end
  end.

(** [sep.join(l)] *)
Definition join (sep : string) (l : list string) : string :=
  String.concat sep l.

(** Truth value of a string: [if s:]. *)
Definition truthy (s : string) : bool :=
  match s with EmptyString => false | _ => true end.

(** [s in l] for a list of strings. *)
Definition mem (s : string) (l : list string) : bool :=
  existsb (String.eqb s) l.

(** [str(n)] for an integer. *)
Definition of_Z (z : Z) : string := NilZero.string_of_int (Z.to_int z).
Definition of_nat (n : nat) : string := of_Z (Z.of_nat n).

(** [s.isascii()] *)
Definition isascii (s : string) : bool :=
  all_chars (fun c => (code c <? 128)%nat) s.

(** [s.rpartition(c)]: text before the last [c], whether [c] was found,
    text after it; without [c] the whole string comes last. *)
Definition rpartition (c : ascii) (s : string) : string * bool * string :=
  match partition c (rev s) with
  | (a, true, b) => (rev b, true, rev a)
  | (_, false, _) => (EmptyString, false, s)
  end.

Definition squote : ascii := ascii_of_nat 39.
Definition dquote : ascii := ascii_of_nat 34.
Definition backslash : ascii := ascii_of_nat 92.

Definition hex_digit (n : nat) : ascii :=
  if (n <? 10)%nat then ascii_of_nat (48 + n) else ascii_of_nat (87 + n).

(** [c.isprintable()] on code points below 256. *)
Definition is_printable (c : ascii) : bool :=
  between 32 126 c || (between 161 255 c && negb (code c =? 173)%nat).

(** One character of [repr(s)], between quotes [q]. *)
Definition repr_char (q c : ascii) : string :=
  if Ascii.eqb c q || Ascii.eqb c backslash then
    String backslash (String c EmptyString)
  else if (code c =? 9)%nat then String backslash "t"
  else if (code c =? 10)%nat then String backslash "n"
  else if (code c =? 13)%nat then String backslash "r"
  else if is_printable c then String c EmptyString
  else String backslash
         (String "x" (String (hex_digit (code c / 16))
                        (String (hex_digit (code c mod 16)) EmptyString))).

Fixpoint repr_body (q : ascii) (s : string) : string :=
  match s with
  | EmptyString => EmptyString
  | String c t => repr_char q c ++ repr_body q t
  end.

(** [repr(s)]: single quotes, unless [s] holds a single quote and no
    double quote. *)
Definition repr (s : string) : string :=
  let q := if contains squote s && negb (contains dquote s)
           then dquote else squote in
  String q (repr_body q s ++ String q EmptyString).

End PyStr.

(* ===================================================================== *)
(** ** [int(s)] on a string *)

Module PyInt.
Import PyStr.

(** Default of [sys.int_max_str_digits]: a longer decimal string is
    refused with [ValueError]. *)
Definition INT_MAX_STR_DIGITS : nat := 4300.

(** The run of digits [int()] scans, most significant first, and what
    follows it; a single underscore is allowed between two digits.
    [prev_us] tells whether the previous character was an underscore.
    [None]: two underscores in a row, or one at the end of the run. *)
Fixpoint scan (prev_us : bool) (s : string) : option (list nat * string) :=
  match s with
  | EmptyString => if prev_us then None else Some ([], EmptyString)
  | String c t =>
      if is_digit c then
        match scan false t with
        | Some (ds, rest) => Some ((code c - 48)%nat :: ds, rest)
        | None => None
        end
      else if Ascii.eqb c "_" then
        if prev_us then None else scan true t
      else if prev_us then None else Some ([], s)
  end.

Definition value (ds : list nat) : Z :=
  fold_left (fun acc d => 10 * acc + Z.of_nat d)%Z ds 0%Z.

(** The message shows [repr(s)], cut after 200 characters. *)
Definition invalid_literal (s : string) : exn :=
  Exn ValueError ("invalid literal for int() with base 10: "
                  ++ String.substring 0 200 (repr s)).

Definition exceeds_limit (n : nat) : exn :=
  Exn ValueError
      ("Exceeds the limit (" ++ of_nat INT_MAX_STR_DIGITS
       ++ " digits) for integer string conversion: value has " ++ of_nat n
       ++ " digits; use sys.set_int_max_str_digits() to increase the limit").

(** The number after the sign; [s] is the whole argument, for the
    message.  The limit on the digits is tested before what follows the
    run is looked at. *)
Definition unsigned (s body : string) : result Z :=
  if startswith "_" body then Err (invalid_literal s)
  else
    match scan false body with
    | None => Err (invalid_literal s)
    | Some (ds, rest) =>
        if (INT_MAX_STR_DIGITS <? List.length ds)%nat
        then Err (exceeds_limit (List.length ds))
        else match ds, rest with
             | _ :: _, EmptyString => Ok (value ds)
             | _, _ => Err (invalid_literal s)
             end
    end.

(** The whitespace [int()] drops around the number: unlike
    [str.strip()] it keeps the separators of code 28 to 31. *)
Definition int_space (c : ascii) : bool :=
  between 9 13 c || (code c =? 32)%nat
  || (code c =? 133)%nat || (code c =? 160)%nat.

(** [int(s)]: surrounding whitespace is dropped, one sign is allowed. *)
Definition int (s : string) : result Z :=
  let t := rstrip_by int_space (lstrip_by int_space s) in
  match t with
  | String c t' =>
      if Ascii.eqb c "-" then
        match unsigned s t' with Ok n => Ok (- n)%Z | Err e => Err e end
      else if Ascii.eqb c "+" then unsigned s t'
      else unsigned s t
  | EmptyString => unsigned s t
  end.

End PyInt.

(* ===================================================================== *)
(** ** [ipaddress.ip_address] on a string *)

(** Whether a string is an IPv4 or an IPv6 address for the library
    (CPython 3.11): [urlsplit] asks this of a host between brackets. *)
Module Ipaddress.
Import PyStr.

Inductive version : Type := IPv4 | IPv6.

Definition decimal (s : string) : nat :=
  List.fold_left (fun acc c => (10 * acc + (code c - 48))%nat)
                 (list_ascii_of_string s) 0%nat.

(** [_parse_octet] returns: digits only, three at most, no leading zero,
    255 at most. *)
Definition _parse_octet (octet_str : string) : option nat :=
  if negb (truthy octet_str) then None
  else if negb (all_chars is_digit octet_str) then None
  else if (3 <? String.length octet_str)%nat then None
  else if negb (String.eqb octet_str "0") && startswith "0" octet_str
  then None
  else if (255 <? decimal octet_str)%nat then None
  else Some (decimal octet_str).

(** [IPv4Address(address)._ip], as its four octets. *)
Definition ipv4_octets (address : string) : option (list nat) :=
  if contains "/" address then None
  else if negb (truthy address) then None
  else
    let octets := split "." address in
    if negb (List.length octets =? 4)%nat then None
    else
      List.fold_right
        (fun o acc =>
           match _parse_octet o, acc with
           | Some n, Some l => Some (n :: l)
           | _, _ => None
           end)
        (Some []) octets.

Definition is_hex (c : ascii) : bool :=
  is_digit c || between 65 70 c || between 97 102 c.

(** ['%x' % n] for [n < 65536]. *)
Definition hex4 (n : nat) : string :=
  let ds := [n / 4096; (n / 256) mod 16; (n / 16) mod 16; n mod 16]%nat in
  let fix drop (l : list nat) : list nat :=
    match l with
    | O :: (_ :: _) as r => drop r
    | _ => l
    end in
  string_of_list_ascii (List.map hex_digit (drop ds)).

(** [_parse_hextet] returns: hexadecimal digits only, four at most, and
    one at least for [int(_, 16)]. *)
Definition _parse_hextet (hextet_str : string) : bool :=
  all_chars is_hex hextet_str
  && (String.length hextet_str <=? 4)%nat
  && truthy hextet_str.

(** The indices from 1 to [len(parts) - 2] whose part is empty. *)
Definition skip_indices (parts : list string) : list nat :=
  List.filter
    (fun i => negb (truthy (List.nth i parts EmptyString)))
    (List.seq 1 (List.length parts - 2)).

(** [_BaseV6._ip_int_from_string] returns. *)
Definition ipv6_parts_ok (ip_str : string) : bool :=
  if negb (truthy ip_str) then false
  else
    let parts := split ":" ip_str in
    if (List.length parts <? 3)%nat then false
    else
      let parts' :=
        if contains "." (List.last parts EmptyString) then
          match ipv4_octets (List.last parts EmptyString) with
          | Some [a; b; c; d] =>
              Some (List.removelast parts
                      ++ [hex4 (a * 256 + b); hex4 (c * 256 + d)])%list
          | _ => None
          end
        else Some parts in
      match parts' with
      | None => false
      | Some parts =>
          if (9 <? List.length parts)%nat then false
          else
            let first_empty := negb (truthy (List.hd EmptyString parts)) in
            let last_empty := negb (truthy (List.last parts EmptyString)) in
            match skip_indices parts with
            | _ :: _ :: _ => false
            | [skip_index] =>
                let parts_hi :=
                  if first_empty then (skip_index - 1)%nat else skip_index in
                let parts_lo :=
                  if last_empty
                  then (List.length parts - skip_index - 1 - 1)%nat
                  else (List.length parts - skip_index - 1)%nat in
                if first_empty && negb (parts_hi =? 0)%nat then false
                else if last_empty && negb (parts_lo =? 0)%nat then false
                else if (8 <=? parts_hi + parts_lo)%nat then false
                else
                  List.forallb _parse_hextet (List.firstn parts_hi parts)
                  && List.forallb _parse_hextet
                       (List.skipn (List.length parts - parts_lo) parts)
            | [] =>
                if negb (List.length parts =? 8)%nat then false
                else if first_empty then false
                else if last_empty then false
                else List.forallb _parse_hextet parts
            end
      end.

(** [IPv6Address(address)] returns: no slash, a scope after ['%'] that is
    not empty and holds no ['%'], then the address proper. *)
Definition is_ipv6 (address : string) : bool :=
  if contains "/" address then false
  else
    match partition "%" address with
    | (addr, true, scope_id) =>
        if negb (truthy scope_id) || contains "%" scope_id then false
        else ipv6_parts_ok addr
    | (addr, false, _) => ipv6_parts_ok addr
    end.

Definition is_ipv4 (address : string) : bool :=
  match ipv4_octets address with Some _ => true | None => false end.

(** [ipaddress.ip_address(address)] *)
Definition ip_address (address : string) : result version :=
  if is_ipv4 address then Ok IPv4
  else if is_ipv6 address then Ok IPv6
  else Err (Exn ValueError
              (repr address
               ++ " does not appear to be an IPv4 or IPv6 address")).

End Ipaddress.

(* ===================================================================== *)
(** ** [urllib.parse] *)

(** The library functions the program calls, written after the library's
    own text (CPython 3.11.2 with the checks of bracketed hosts) for
    [str] arguments whose code points are below 256, the strings of this
    development. *)
Module Urllib.
Import PyStr.

Definition uses_relative : list string :=
  [""; "ftp"; "http"; "gopher"; "nntp"; "imap";
   "wais"; "file"; "https"; "shttp"; "mms";
   "prospero"; "rtsp"; "rtspu"; "sftp";
   "svn"; "svn+ssh"; "ws"; "wss"].

Definition uses_netloc : list string :=
  [""; "ftp"; "http"; "gopher"; "nntp"; "telnet";
   "imap"; "wais"; "file"; "mms"; "https"; "shttp";
   "snews"; "prospero"; "rtsp"; "rtspu"; "rsync";
   "svn"; "svn+ssh"; "sftp"; "nfs"; "git"; "git+ssh";
   "ws"; "wss"].

Definition uses_params : list string :=
  [""; "ftp"; "hdl"; "prospero"; "http"; "imap";
   "https"; "shttp"; "rtsp"; "rtspu"; "sip"; "sips";
   "mms"; "sftp"; "tel"].

(** [c in scheme_chars] *)
Definition scheme_char (c : ascii) : bool :=
  is_lower c || is_upper c || is_digit c
  || Ascii.eqb c "+" || Ascii.eqb c "-" || Ascii.eqb c ".".

(** [c in _WHATWG_C0_CONTROL_OR_SPACE] *)
Definition c0_control_or_space (c : ascii) : bool := (code c <=? 32)%nat.

(** [c in _UNSAFE_URL_BYTES_TO_REMOVE] *)
Definition unsafe_url_byte (c : ascii) : bool :=
  (code c =? 9)%nat || (code c =? 13)%nat || (code c =? 10)%nat.

Record SplitResult : Type := mkSplit {
  s_scheme : string; s_netloc : string; s_path : string;
  s_query : string; s_fragment : string }.

Record ParseResult : Type := mkParse {
  scheme : string; netloc : string; path : string;
  params : string; query : string; fragment : string }.

(** The scheme test of [urlsplit]: [url.find(':') > 0], a first
    character that is an ASCII letter, and only [scheme_chars] before
    the colon.  Returns the lower-cased scheme and the rest. *)
Definition split_scheme (url : string) : option (string * string) :=
  match partition ":" url with
  | (String c pre', true, rest) =>
      if is_ascii_alpha c && all_chars scheme_char (String c pre')
      then Some (lower (String c pre'), rest)
      else None
  | _ => None
  end.

Definition netloc_delim (c : ascii) : bool :=
  Ascii.eqb c "/" || Ascii.eqb c "?" || Ascii.eqb c "#".

(** [_splitnetloc(url, 2)] *)
Definition _splitnetloc (url : string) : string * string :=
  break netloc_delim (String.substring 2 (String.length url - 2) url).

(** The first statements of [urlsplit]: leading control characters and
    spaces are dropped, then tabs and line breaks anywhere. *)
Definition clean_url (url : string) : string :=
  remove_by unsafe_url_byte (lstrip_by c0_control_or_space url).

(** The same for the default scheme, stripped at both ends. *)
Definition clean_scheme (scheme : string) : string :=
  remove_by unsafe_url_byte
    (rstrip_by c0_control_or_space (lstrip_by c0_control_or_space scheme)).

(** [unicodedata.normalize('NFKC', c)] for a code point below 256, as
    code points: fourteen of them change. *)
Definition nfkc (c : ascii) : list N :=
  match N_of_ascii c with
  | 160 => [32]
  | 168 => [32; 776]
  | 170 => [97]
  | 175 => [32; 772]
  | 178 => [50]
  | 179 => [51]
  | 180 => [32; 769]
  | 181 => [956]
  | 184 => [32; 807]
  | 185 => [49]
  | 186 => [111]
  | 188 => [49; 8260; 52]
  | 189 => [49; 8260; 50]
  | 190 => [51; 8260; 52]
  | n => [n]
  end%N.

(** [_checknetloc]: a network location whose NFKC form brings in one of
    [/?#@:] is refused. *)
Definition _checknetloc (netloc : string) : result unit :=
  if negb (truthy netloc) || isascii netloc then Ok tt
  else
    let n :=
      remove_by (fun c => Ascii.eqb c "@" || Ascii.eqb c ":"
                          || Ascii.eqb c "#" || Ascii.eqb c "?") netloc in
    let codes := List.map N_of_ascii (list_ascii_of_string n) in
    let netloc2 := List.flat_map nfkc (list_ascii_of_string n) in
    if list_eq_dec N.eq_dec codes netloc2 then Ok tt
    else if List.existsb (fun c => List.existsb (N.eqb c) netloc2)
                         [47; 63; 35; 64; 58]%N
    then Err (Exn ValueError
                ("netloc '" ++ netloc
                 ++ "' contains invalid characters under NFKC normalization"))
    else Ok tt.

(** The pattern of an IPvFuture address: [v], hexadecimal digits, a dot
    and at least one more character, none of them a line feed. *)
Definition ipvfuture (hostname : string) : bool :=
  match hostname with
  | String "v" t =>
      match break (fun c => negb (Ipaddress.is_hex c)) t with
      | (String _ _, String "." (String c rest)) =>
          negb (contains (ascii_of_nat 10) (String c rest))
      | _ => false
      end
  | _ => false
  end.

(** [_check_bracketed_host] *)
Definition _check_bracketed_host (hostname : string) : result unit :=
  if startswith "v" hostname then
    if ipvfuture hostname then Ok tt
    else Err (Exn ValueError "IPvFuture address is invalid")
  else
    match Ipaddress.ip_address hostname with
    | Err e => Err e
    | Ok Ipaddress.IPv4 =>
        Err (Exn ValueError "An IPv4 address cannot be in brackets")
    | Ok Ipaddress.IPv6 => Ok tt
    end.

(** [_check_bracketed_netloc] *)
Definition _check_bracketed_netloc (netloc : string) : result unit :=
  let '(_, _, hostname_and_port) := rpartition "@" netloc in
  match partition "[" hostname_and_port with
  | (before_bracket, true, bracketed) =>
      if truthy before_bracket then Err (Exn ValueError "Invalid IPv6 URL")
      else
        let '(hostname, _, port) := partition "]" bracketed in
        if truthy port && negb (startswith ":" port)
        then Err (Exn ValueError "Invalid IPv6 URL")
        else _check_bracketed_host hostname
  | (_, false, _) =>
      let '(hostname, _, _) := partition ":" hostname_and_port in
      _check_bracketed_host hostname
  end.

(** The network location of [urlsplit], with its checks on brackets. *)
Definition split_netloc_checked (url : string) : result (string * string) :=
  if startswith "//" url then
    let '(netloc, url) := _splitnetloc url in
    if (contains "[" netloc && negb (contains "]" netloc))
       || (contains "]" netloc && negb (contains "[" netloc))
    then Err (Exn ValueError "Invalid IPv6 URL")
    else if contains "[" netloc && contains "]" netloc then
      match _check_bracketed_netloc netloc with
      | Err e => Err e
      | Ok _ => Ok (netloc, url)
      end
    else Ok (netloc, url)
  else Ok (EmptyString, url).

Definition urlsplit (url0 default_scheme : string) : result SplitResult :=
  let url := clean_url url0 in
  let scheme0 := clean_scheme default_scheme in
  let '(scheme, url) :=
    match split_scheme url with
    | Some (s, rest) => (s, rest)
    | None => (scheme0, url)
    end in
  match split_netloc_checked url with
  | Err e => Err e
  | Ok (netloc, url) =>
      let '(url, fragment) :=
        match partition "#" url with
        | (a, true, b) => (a, b)
        | _ => (url, EmptyString)
        end in
      let '(url, query) :=
        match partition "?" url with
        | (a, true, b) => (a, b)
        | _ => (url, EmptyString)
        end in
      match _checknetloc netloc with
      | Err e => Err e
      | Ok _ => Ok (mkSplit scheme netloc url query fragment)
      end
  end.

(** Position-free reading of [_splitparams]: with a slash in [url] the
    search for [';'] starts at the last slash. *)
Definition _splitparams (url : string) : string * string :=
  if contains "/" url then
    let segs := split "/" url in
    let last_seg := List.last segs EmptyString in
    let front := List.removelast segs in
    match partition ";" last_seg with
    | (a, true, b) => (join "/" (front ++ [a])%list, b)
    | _ => (url, EmptyString)
    end
  else
    match partition ";" url with
    | (a, true, b) => (a, b)
    | (a, false, _) =>
        (* not reached: [urlparse] calls this only with a [';'] in [url] *)
        (a, EmptyString)
    end.

Definition urlparse (url default_scheme : string) : result ParseResult :=
  match urlsplit url default_scheme with
  | Err e => Err e
  | Ok sp =>
      let '(url', params) :=
        if mem (s_scheme sp) uses_params && contains ";" (s_path sp)
        then _splitparams (s_path sp)
        else (s_path sp, EmptyString) in
      Ok (mkParse (s_scheme sp) (s_netloc sp) url' params
                  (s_query sp) (s_fragment sp))
  end.

Definition urlunsplit (scheme netloc url query fragment : string) : string :=
  let url :=
    if truthy netloc
       || (truthy scheme && mem scheme uses_netloc
           && negb (startswith "//" url))
    then
      let url :=
        if truthy url && negb (startswith "/" url) then "/" ++ url else url in
      "//" ++ netloc ++ url
    else url in
  let url := if truthy scheme then scheme ++ ":" ++ url else url in
  let url := if truthy query then url ++ "?" ++ query else url in
  let url := if truthy fragment then url ++ "#" ++ fragment else url in
  url.

Definition urlunparse (p : ParseResult) : string :=
  let url :=
    if truthy (params p) then path p ++ ";" ++ params p else path p in
  urlunsplit (scheme p) (netloc p) url (query p) (fragment p).

(** [parsed.geturl()] *)
Definition geturl (p : ParseResult) : string := urlunparse p.

(** [segments[1:-1] = filter(None, segments[1:-1])] *)
Definition filter_inner (segs : list string) : list string :=
  match segs with
  | first :: (_ :: _) as rest =>
      first :: (filter truthy (List.removelast rest)
                  ++ [List.last rest EmptyString])%list
  | _ => segs
  end.

(** The loop of [urljoin] over the path segments; [resolved] is kept in
    reverse. *)
Fixpoint resolve (segs : list string) (resolved : list string)
  : list string :=
  match segs with
  | [] => List.rev resolved
  | seg :: rest =>
      if String.eqb seg ".." then resolve rest (List.tl resolved)
      else if String.eqb seg "." then resolve rest resolved
      else resolve rest (seg :: resolved)
  end.

Definition urljoin (base url : string) : result string :=
  if negb (truthy base) then Ok url
  else if negb (truthy url) then Ok base
  else
    match urlparse base EmptyString with
    | Err e => Err e
    | Ok b =>
        match urlparse url (scheme b) with
        | Err e => Err e
        | Ok u =>
            if negb (String.eqb (scheme u) (scheme b))
               || negb (mem (scheme u) uses_relative)
            then Ok url
            else if mem (scheme u) uses_netloc && truthy (netloc u)
            then Ok (urlunparse u)
            else
              let netloc' :=
                if mem (scheme u) uses_netloc then netloc b else netloc u in
              if negb (truthy (path u)) && negb (truthy (params u)) then
                let query' :=
                  if truthy (query u) then query u else query b in
                Ok (urlunparse (mkParse (scheme u) netloc' (path b)
                                        (params b) query' (fragment u)))
              else
                let base_parts := split "/" (path b) in
                let base_parts :=
                  if truthy (List.last base_parts EmptyString)
                  then List.removelast base_parts else base_parts in
                let segments :=
                  if startswith "/" (path u) then split "/" (path u)
                  else filter_inner (base_parts ++ split "/" (path u))%list in
                let resolved := resolve segments [] in
                let last_seg := List.last segments EmptyString in
                let resolved :=
                  if String.eqb last_seg "." || String.eqb last_seg ".."
                  then (resolved ++ [EmptyString])%list else resolved in
                let joined := join "/" resolved in
                let path' := if truthy joined then joined else "/" in
                Ok (urlunparse (mkParse (scheme u) netloc' path'
                                        (params u) (query u) (fragment u)))
        end
    end.

End Urllib.

(* ===================================================================== *)
(** ** BeautifulSoup: the document tree and its queries *)

Module Bs4.
Import PyStr.

(** A parsed document.  The [BeautifulSoup] object is itself a [Tag]
    (named ["[document]"]) whose contents are the top-level nodes.
    [Special] is a string that is not page text (a comment, a
    declaration, script or stylesheet text): [get_text] leaves it out. *)
Inductive node : Type :=
| NavigableString (s : string)
| Special (s : string)
| Tag (name : string) (attrs : list (string * string)) (contents : list node).

(** [tag.descendants]: every node below the tag, in document order. *)
Fixpoint descendants (n : node) : list node :=
  match n with
  | Tag _ _ cs => flat_map (fun c => c :: descendants c) cs
  | _ => []
  end.

(** [elem.name] *)
Definition name (n : node) : string :=
  match n with Tag nm _ _ => nm | _ => EmptyString end.

Definition is_tag (n : node) : bool :=
  match n with Tag _ _ _ => true | _ => false end.

Fixpoint assoc (k : string) (l : list (string * string)) : option string :=
  match l with
  | [] => None
  | (k', v) :: r => if String.eqb k k' then Some v else assoc k r
  end.

(** [elem.get(attr)] *)
Definition get (attr : string) (n : node) : option string :=
  match n with Tag _ attrs _ => assoc attr attrs | _ => None end.

Definition named (names : list string) (n : node) : bool :=
  is_tag n && mem (name n) names.

(** [tag.find_all(names)] *)
Definition find_all (names : list string) (n : node) : list node :=
  filter (named names) (descendants n).

(** [tag.find(nm)]: the first match, or [None]. *)
Definition find (nm : string) (n : node) : option node :=
  List.hd_error (find_all [nm] n).

(** The words of an attribute value, as the parser splits [class]. *)
Fixpoint words_from (cur : string) (s : string) : list string :=
  match s with
  | EmptyString => if truthy cur then [rev cur] else []
  | String c t =>
      if is_space c then
        if truthy cur then rev cur :: words_from EmptyString t
        else words_from EmptyString t
      else words_from (String c cur) t
  end.
Definition words (s : string) : list string := words_from EmptyString s.

(** The [class_=[...]] filter: one of the element's classes, or the
    whole value, is in the list. *)
Definition has_class (vocabulary : list string) (n : node) : bool :=
  match get "class" n with
  | Some v =>
      existsb (fun c => mem c vocabulary) (words v)
      || mem (join " " (words v)) vocabulary
  | None => false
  end.

(** [tag.find_all(nm, class_=vocabulary)] *)
Definition find_all_class (nm : string) (vocabulary : list string)
           (n : node) : list node :=
  filter (fun d => named [nm] d && has_class vocabulary d) (descendants n).

(** The strings [get_text(strip=True)] joins: each text string below
    the element, stripped, the empty ones dropped. *)
Definition stripped_strings (n : node) : list string :=
  flat_map (fun d =>
              match d with
              | NavigableString s =>
                  if truthy (strip s) then [strip s] else []
              | _ => []
              end) (descendants n).

(** [elem.get_text(strip=True)] *)
Definition get_text_strip (n : node) : string :=
  join EmptyString (stripped_strings n).

End Bs4.

(* ===================================================================== *)
(** ** The world, the trace and the monad *)

Module Effects.
Import PyStr.

(** A [requests] response, as far as the program reads it. *)
Record Response : Type := mkResponse {
  status_code : Z;
  headers : list (string * string);
  text : string }.

(** [response.headers.get(name)]: the lookup does not depend on case. *)
Fixpoint headers_get (name : string) (hs : list (string * string))
  : option string :=
  match hs with
  | [] => None
  | (k, v) :: r =>
      if String.eqb (lower k) (lower name) then Some v
      else headers_get name r
  end.

(** What one call of [session.get] does. *)
Inductive GetOutcome : Type :=
| Responds (r : Response)
| GetRaises (e : exn).

(** The headless browser of this run: what each call on the driver
    does. *)
Record Browser : Type := mkBrowser {
  chrome : result unit;              (* webdriver.Chrome(...) *)
  driver_get : string -> result unit;(* driver.get(url) *)
  wait_body : result unit;           (* WebDriverWait(driver, 10).until(...) *)
  page_source : result string;       (* driver.page_source *)
  driver_quit : result unit }.       (* driver.quit() *)

(** The collaborators of one run.  [http n] is the outcome of the
    [n]-th call of [session.get] (from 0), [rng n] the [n]-th random
    draw, [max_sleep] the longest sleep the platform accepts. *)
Record Env : Type := mkEnv {
  http : nat -> GetOutcome;
  rng : nat -> nat;
  html_parser : string -> result Bs4.node;  (* BeautifulSoup(s, 'html.parser') *)
  browser : Browser;
  max_sleep : Z }.

Inductive level : Type := INFO | WARNING | ERROR.

(** What the program did, in order. *)
Inductive event : Type :=
| EvLog (l : level) (msg : string)
| EvSleep (secs : Z)
| EvGet (url user_agent : string) (verify : bool) (outcome : GetOutcome)
| EvChrome (user_agent : string)
| EvDriverGet (url : string)
| EvWaitBody
| EvPageSource
| EvDriverQuit.

(** The mutable state of a run: the [User-Agent] of [self.headers], the
    numbers of requests and random draws made so far, and the trace,
    oldest event first. *)
Record State : Type := mkState {
  user_agent : string;
  gets : nat;
  draws : nat;
  trace : list event }.

Definition initial : State := mkState EmptyString 0 0 [].

(** Computations that read the world, change the state and may raise;
    the state survives an exception. *)
Definition M (A : Type) : Type := Env -> State -> result A * State.

Definition ret {A} (a : A) : M A := fun _ s => (Ok a, s).

Definition bind {A B} (m : M A) (f : A -> M B) : M B :=
  fun env s =>
    match m env s with
    | (Ok a, s') => f a env s'
    | (Err e, s') => (Err e, s')
    end.

Definition raise {A} (e : exn) : M A := fun _ s => (Err e, s).

(** [try: m  except Exception as e: h e] *)
Definition try_except {A} (m : M A) (h : exn -> M A) : M A :=
  fun env s =>
    match m env s with
    | (Ok a, s') => (Ok a, s')
    | (Err e, s') => h e env s'
    end.

(** [try: m  finally: f].  An exception of [f] replaces the outcome of
    [m]. *)
Definition try_finally {A} (m : M A) (f : M unit) : M A :=
  fun env s =>
    match m env s with
    | (r, s') =>
        match f env s' with
        | (Ok _, s'') => (r, s'')
        | (Err e, s'') => (Err e, s'')
        end
    end.

(** A pure call that may raise. *)
Definition lift {A} (r : result A) : M A := fun _ s => (r, s).

Definition emit (e : event) : M unit :=
  fun _ s =>
    (Ok tt, mkState (user_agent s) (gets s) (draws s) (trace s ++ [e])).

Definition log (l : level) (msg : string) : M unit := emit (EvLog l msg).

(** [time.sleep(secs)] *)
Definition time_sleep (secs : Z) : M unit :=
  fun env s =>
    if (secs <? 0)%Z then
      (Err (Exn ValueError "sleep length must be non-negative"), s)
    else if (max_sleep env <? secs)%Z then
      (Err (Exn OverflowError "timestamp too large to convert to C _PyTime_t"), s)
    else emit (EvSleep secs) env s.

(** [random.choice(l)] *)
Definition random_choice (l : list string) : M string :=
  fun env s =>
    (Ok (nth (rng env (draws s) mod List.length l) l EmptyString),
     mkState (user_agent s) (gets s) (S (draws s)) (trace s)).

(** [self.headers['User-Agent'] = ua] *)
Definition set_user_agent (ua : string) : M unit :=
  fun _ s => (Ok tt, mkState ua (gets s) (draws s) (trace s)).

(** [self.session.get(url, headers=self.headers, verify=..., timeout=10)] *)
Definition session_get (url : string) (verify : bool) : M Response :=
  fun env s =>
    let o := http env (gets s) in
    let s' := mkState (user_agent s) (S (gets s)) (draws s)
                      (trace s ++ [EvGet url (user_agent s) verify o]) in
    match o with
    | Responds r => (Ok r, s')
    | GetRaises e => (Err e, s')
    end.

(** A call on the browser: the event, then what the browser does. *)
Definition browser_call {A} (e : event) (r : Browser -> result A) : M A :=
  fun env s =>
    match emit e env s with
    | (_, s') => (r (browser env), s')
    end.

(** [BeautifulSoup(markup, 'html.parser')] *)
Definition BeautifulSoup (markup : string) : M Bs4.node :=
  fun env s => (html_parser env markup, s).

Declare Scope monad_scope.
Delimit Scope monad_scope with monad.
Notation "x <- m ;; k" := (bind m (fun x => k))
  (at level 61, m at next level, right associativity) : monad_scope.
Notation "m ;; k" := (bind m (fun _ => k))
  (at level 61, right associativity) : monad_scope.

End Effects.

Import PyStr Effects.
Local Open Scope monad_scope.

Definition USER_AGENTS : list string :=
  ["Mozilla/5.0 (Macintosh; Intel Mac OS X 10_15_7) AppleWebKit/537.36 (KHTML, like Gecko) Chrome/108.0.0.0 Safari/537.361675787110";
   "Mozilla/5.0 (Macintosh; Intel Mac OS X 11_3) AppleWebKit/537.36 (KHTML, like Gecko) Chrome/109.0.5412.99 Safari/537.36";
   "Mozilla/5.0 (Macintosh; Intel Mac OS X 10_10) AppleWebKit/537.36 (KHTML, like Gecko) Chrome/108.0.5361.172 Safari/537.36";
   "Mozilla/5.0 (X11; Linux i686) AppleWebKit/537.36 (KHTML, like Gecko) Chrome/109.0.5388.177 Safari/537.36";
   "Mozilla/5.0 (Macintosh; Intel Mac OS X 11_14) AppleWebKit/537.36 (KHTML, like Gecko) Chrome/109.0.5397.215 Safari/537.36"].

(** How one pass through the body of a [for] loop ends: with a [return]
    of the enclosing function, or by going on to the next iteration (the
    end of the body, or [continue]). *)
Inductive step (A : Type) : Type :=
| Return (a : A)
| Next.
Arguments Return {A} a.
Arguments Next {A}.

(* ===================================================================== *)
(** ** [class CrawlerAgent] *)

Module CrawlerAgent.

(** [_normalize_url] *)
Definition _normalize_url (url : string) : result string :=
  let url :=
    if negb (startswith "http://" url || startswith "https://" url)
    then "https://" ++ url else url in
  match Urllib.urlparse url EmptyString with
  | Ok parsed => Ok (Urllib.geturl parsed)
  | Err e => Err e
  end.

(** [_get_headers]: the headers are a fixed template but for the
    [User-Agent], which is drawn; the model keeps that one. *)
Definition _get_headers : M string := random_choice USER_AGENTS.

(** [__init__]: returns [self.url]; [self.headers] is kept in the
    state. *)
Definition __init__ (url : string) : M string :=
  self_url <- lift (_normalize_url url) ;;
  self_headers <- _get_headers ;;
  set_user_agent self_headers ;;
  ret self_url.

(** [int(response.headers.get('Retry-After', delay * (attempt + 1)))] *)
Definition wait_time_of (r : Response) (delay : Z) (attempt : nat)
  : result Z :=
  match headers_get "Retry-After" (headers r) with
  | Some v => PyInt.int v
  | None => Ok (delay * (Z.of_nat attempt + 1))%Z
  end.

(** "Check for various status codes": the [if] chain on the response. *)
Definition check_status (delay : Z) (attempt : nat) (response : Response)
  : M (step (option string)) :=
  if (status_code response =? 200)%Z then
    ret (Return (Some (text response)))
  else if (status_code response =? 403)%Z then
    log ERROR "Access forbidden - site may have anti-bot protection" ;;
    ret (Return None)
  else if (status_code response =? 429)%Z then
    wait_time <- lift (wait_time_of response delay attempt) ;;
    log WARNING ("Rate limited - waiting " ++ of_Z wait_time ++ " seconds") ;;
    time_sleep wait_time ;;
    ret Next
  else
    log ERROR ("Failed to fetch content: HTTP "
               ++ of_Z (status_code response)) ;;
    ret Next.

Definition attempt_msg (self_url : string) (max_retries attempt : nat)
  : string :=
  "Attempting to fetch " ++ self_url ++ " (Attempt "
  ++ of_nat (attempt + 1) ++ "/" ++ of_nat max_retries ++ ")".

(** The [try] block of one iteration of [fetch_content]. *)
Definition attempt_try (self_url : string) (max_retries : nat) (delay : Z)
           (attempt : nat) : M (step (option string)) :=
  log INFO (attempt_msg self_url max_retries attempt) ;;
  time_sleep delay ;;
  ua <- random_choice USER_AGENTS ;;
  set_user_agent ua ;;
  response <- session_get self_url true ;;
  check_status delay attempt response.

(** The [except] clauses of one iteration, in the order they are tried. *)
Definition attempt_except (self_url : string) (delay : Z) (attempt : nat)
           (e : exn) : M (step (option string)) :=
  if is_SSLError e then
    log WARNING "SSL Error - attempting without verification" ;;
    try_except
      (response <- session_get self_url false ;;
       if (status_code response =? 200)%Z
       then ret (Return (Some (text response)))
       else ret Next)
      (fun e' =>
         log ERROR ("Secondary request failed: " ++ exn_str e') ;;
         ret Next)
  else if is_RequestException e then
    log ERROR ("Request failed: " ++ exn_str e) ;;
    time_sleep (delay * (Z.of_nat attempt + 1)) ;;
    ret Next
  else
    log ERROR ("Unexpected error: " ++ exn_str e) ;;
    ret (Return None).

Definition attempt_body (self_url : string) (max_retries : nat) (delay : Z)
           (attempt : nat) : M (step (option string)) :=
  try_except (attempt_try self_url max_retries delay attempt)
             (attempt_except self_url delay attempt).

(** [for attempt in range(max_retries)], from iteration [attempt] with
    [remaining] iterations left, and the two statements after the loop. *)
Fixpoint fetch_loop (self_url : string) (max_retries : nat) (delay : Z)
         (remaining attempt : nat) : M (option string) :=
  match remaining with
  | O =>
      log ERROR ("Failed to fetch content after " ++ of_nat max_retries
                 ++ " attempts") ;;
      ret None
  | S remaining' =>
      s <- attempt_body self_url max_retries delay attempt ;;
      match s with
      | Return v => ret v
      | Next =>
          fetch_loop self_url max_retries delay remaining' (S attempt)
      end
  end.

(** [fetch_content(max_retries, delay)]: the body text, or [None]. *)
Definition fetch_content (self_url : string) (max_retries : nat) (delay : Z)
  : M (option string) :=
  fetch_loop self_url max_retries delay max_retries 0.

End CrawlerAgent.

(* ===================================================================== *)
(** ** [class ParserAgent] *)

(** An element of [parsed_data].  The program appends the string
    [entry_str] at once; the model keeps what the string was built from. *)
Inductive entry : Type :=
| Text (text : string)
| Link (label resolved_url : string).

(** The string the program appends for an entry. *)
Definition entry_str (e : entry) : string :=
  match e with
  | Text t => t
  | Link label full_url => "Link: " ++ label ++ " - " ++ full_url
  end.

Module ParserAgent.
Import Bs4.

Definition CONTENT_TAGS : list string :=
  ["p"; "h1"; "h2"; "h3"; "h4"; "h5"; "h6"; "a"].

Definition CONTENT_CLASSES : list string :=
  ["content"; "post-content"; "entry-content"; "article-content"].

(** The candidates of the [article], [main] and content-class passes, in
    that order. *)
Definition tiered_candidates (soup : node) : list node :=
  let content : list node := [] in
  let content :=
    match find "article" soup with
    | Some article => (content ++ find_all CONTENT_TAGS article)%list
    | None => content
    end in
  let content :=
    match find "main" soup with
    | Some main => (content ++ find_all CONTENT_TAGS main)%list
    | None => content
    end in
  let content_divs := find_all_class "div" CONTENT_CLASSES soup in
  (content ++ flat_map (find_all CONTENT_TAGS) content_divs)%list.

(** [content] as the filtering loop of [parse] receives it. *)
Definition candidates (soup : node) : list node :=
  match tiered_candidates soup with
  | [] => find_all CONTENT_TAGS soup
  | content => content
  end.

(** One iteration of the filtering loop: what is appended, if anything.
    [urljoin] may raise. *)
Definition filter_elem (self_url : string) (elem : node)
  : result (option entry) :=
  if String.eqb (name elem) "a" then
    match get "href" elem with
    | Some href =>
        if truthy href then
          match Urllib.urljoin self_url href with
          | Ok full_url => Ok (Some (Link (get_text_strip elem) full_url))
          | Err e => Err e
          end
        else Ok None
    | None => Ok None
    end
  else
    let text := get_text_strip elem in
    if (20 <? String.length text)%nat then Ok (Some (Text text))
    else Ok None.

(** The filtering loop, shared by [parse] and [parse_with_selenium]. *)
Fixpoint filter_content (self_url : string) (content : list node)
  : result (list entry) :=
  match content with
  | [] => Ok []
  | elem :: rest =>
      match filter_elem self_url elem with
      | Err e => Err e
      | Ok o =>
          match filter_content self_url rest with
          | Err e => Err e
          | Ok parsed =>
              Ok (match o with Some x => x :: parsed | None => parsed end)
          end
      end
  end.

(** The [try] statement of [parse_with_selenium], with its [except] and
    [finally] clauses: what is done with the driver once it exists. *)
Definition drive (self_url : string) : M (list entry * string) :=
  try_finally
    (try_except
       (browser_call (EvDriverGet self_url) (fun b => driver_get b self_url) ;;
        browser_call EvWaitBody wait_body ;;
        time_sleep 5 ;;
        source <- browser_call EvPageSource page_source ;;
        soup <- BeautifulSoup source ;;
        let content := find_all CONTENT_TAGS soup in
        parsed_data <- lift (filter_content self_url content) ;;
        ret (parsed_data, "Parsed with Selenium"))
       (fun e =>
          log ERROR ("Selenium parsing error: " ++ exn_str e) ;;
          ret ([], "Selenium parsing error: " ++ exn_str e)))
    (browser_call EvDriverQuit driver_quit).

(** [parse_with_selenium]: the options with a drawn [User-Agent], the
    driver (from either place the program looks for it), then [drive]. *)
Definition parse_with_selenium (self_url : string)
  : M (list entry * string) :=
  ua <- random_choice USER_AGENTS ;;
  browser_call (EvChrome ua) chrome ;;
  drive self_url.

(** [parse] *)
Definition parse (html_content self_url : string) : M (list entry * string) :=
  if negb (truthy html_content) then
    log ERROR "No HTML content to parse" ;;
    ret ([], "Failed to fetch content")
  else
    try_except
      (soup <- BeautifulSoup html_content ;;
       let content := candidates soup in
       parsed_data <- lift (filter_content self_url content) ;;
       match parsed_data with
       | [] =>
           log INFO "No content found with BeautifulSoup, trying Selenium" ;;
           parse_with_selenium self_url
       | _ => ret (parsed_data, "Parsed with BeautifulSoup")
       end)
      (fun e =>
         log ERROR ("Parsing error: " ++ exn_str e) ;;
         ret ([], "Parsing error: " ++ exn_str e)).

End ParserAgent.

(* ===================================================================== *)
(** ** [process_url] *)

(** [fetch_content()] is called with its defaults. *)
Definition DEFAULT_MAX_RETRIES : nat := 3.
Definition DEFAULT_DELAY : Z := 2.

Definition process_url (url : string) : M (option (list entry) * string) :=
  crawler_url <- CrawlerAgent.__init__ url ;;
  html_content <- CrawlerAgent.fetch_content crawler_url DEFAULT_MAX_RETRIES
                                             DEFAULT_DELAY ;;
  match html_content with
  | Some html =>
      if truthy html then
        r <- ParserAgent.parse html url ;;
        let '(parsed_data, method) := r in
        match parsed_data with
        | _ :: _ => ret (Some parsed_data, method)
        | [] => ret (None, "No content could be parsed from the page")
        end
      else ret (None, "Failed to fetch content")
  | None => ret (None, "Failed to fetch content")
  end.

(** A run of [process_url] from the initial state. *)
Definition run (env : Env) (url : string)
  : result (option (list entry) * string) * State :=
  process_url url env initial.

(* ===================================================================== *)
(** * Vocabulary of the properties *)

(** [m] only adds events satisfying [P] to the trace. *)
Definition emits (P : event -> Prop) {A} (m : M A) : Prop :=
  forall env s r s',
    m env s = (r, s') -> exists t, trace s' = (trace s ++ t)%list /\ Forall P t.

(** In the world [env], [m] returns a value from every state. *)
Definition returns_in (env : Env) {A} (m : M A) : Prop :=
  forall s, exists a s', m env s = (Ok a, s').

(** Every value [m] returns satisfies [Q]. *)
Definition post {A} (m : M A) (Q : A -> Prop) : Prop :=
  forall env s a s', m env s = (Ok a, s') -> Q a.

(** The state of an iteration of the fetcher once its request is made:
    the attempt was logged, the fixed delay slept, a [User-Agent] drawn
    and the request recorded with its outcome. *)
Definition at_response (env : Env) (self_url : string) (max_retries : nat)
           (delay : Z) (attempt : nat) (s : State) : State :=
  let ua := nth (rng env (draws s) mod List.length USER_AGENTS)
                USER_AGENTS EmptyString in
  mkState ua (S (gets s)) (S (draws s))
    (trace s ++ [EvLog INFO (CrawlerAgent.attempt_msg self_url max_retries attempt);
                 EvSleep delay;
                 EvGet self_url ua true (http env (gets s))])%list.

(** The state once the crawler is constructed: a [User-Agent] was drawn
    for [self.headers]. *)
Definition after_init (env : Env) (s : State) : State :=
  mkState (nth (rng env (draws s) mod List.length USER_AGENTS)
               USER_AGENTS EmptyString)
          (gets s) (S (draws s)) (trace s).

(** What [process_url] returns on a fetched document, given the outcome
    of [parse]. *)
Definition outcome_of_parse (r : result (list entry * string) * State)
  : result (option (list entry) * string) * State :=
  match r with
  | (Ok (x :: parsed, method), s) => (Ok (Some (x :: parsed), method), s)
  | (Ok ([], _), s) => (Ok (None, "No content could be parsed from the page"), s)
  | (Err e, s) => (Err e, s)
  end.

(** Every entry of a result satisfies [Q]. *)
Definition all_entries (Q : entry -> Prop) (r : option (list entry) * string)
  : Prop :=
  match fst r with
  | Some parsed_data => Forall Q parsed_data
  | None => True
  end.

(** The state after [e] was added to the trace. *)
Definition add_event (e : event) (s : State) : State :=
  mkState (user_agent s) (gets s) (draws s) (trace s ++ [e])%list.

(** The static pass on a fetched document: the parser, the selection of
    candidates and the filtering loop. *)
Definition static_pass (env : Env) (html url : string) : result (list entry) :=
  match html_parser env html with
  | Ok soup => ParserAgent.filter_content url (ParserAgent.candidates soup)
  | Err e => Err e
  end.

(** [d] is the first node of the document named [nm]. *)
Definition first_named (nm : string) (soup d : Bs4.node) : Prop :=
  exists pre post,
    Bs4.descendants soup = (pre ++ d :: post)%list
    /\ Bs4.named [nm] d = true
    /\ Forall (fun x => Bs4.named [nm] x = false) pre.

(** The containers of the three passes: the first article, the first
    main area, and every [div] with one of the content classes. *)
Definition is_container (soup d : Bs4.node) : Prop :=
  first_named "article" soup d
  \/ first_named "main" soup d
  \/ (In d (Bs4.descendants soup)
      /\ Bs4.named ["div"] d = true
      /\ Bs4.has_class ParserAgent.CONTENT_CLASSES d = true).

(** [elem] is a paragraph, heading or link inside a container. *)
Definition container_candidate (soup elem : Bs4.node) : Prop :=
  exists d,
    is_container soup d
    /\ In elem (Bs4.descendants d)
    /\ Bs4.named ParserAgent.CONTENT_TAGS elem = true.

(** What [parse] does once the filtering loop has run on the candidates
    it chose: entries are returned under the static label, an empty list
    sends it to the rendered extractor, an exception to its handler. *)
Definition after_static_pass (env : Env) (url : string) (s : State)
           (r : result (list entry)) : result (list entry * string) * State :=
  match r with
  | Ok (x :: parsed) => (Ok (x :: parsed, "Parsed with BeautifulSoup"), s)
  | Ok [] =>
      match ParserAgent.parse_with_selenium url env
              (add_event
                 (EvLog INFO
                    "No content found with BeautifulSoup, trying Selenium") s)
      with
      | (Ok r', s2) => (Ok r', s2)
      | (Err e, s2) =>
          (Ok ([], "Parsing error: " ++ exn_str e),
           add_event (EvLog ERROR ("Parsing error: " ++ exn_str e)) s2)
      end
  | Err e =>
      (Ok ([], "Parsing error: " ++ exn_str e),
       add_event (EvLog ERROR ("Parsing error: " ++ exn_str e)) s)
  end.

(** What [process_url] makes of the outcome of the rendered extractor. *)
Definition final_of_rendered (r : result (list entry * string))
  : option (list entry) * string :=
  match r with
  | Ok (x :: parsed, method) => (Some (x :: parsed), method)
  | _ => (None, "No content could be parsed from the page")
  end.

(** The network location of a URL is not empty: the least a target must
    satisfy to name a page. *)
Definition names_host (url : string) : bool :=
  match Urllib.urlparse url EmptyString with
  | Ok p => truthy (Urllib.netloc p)
  | Err _ => false
  end.

(** The first character, if any, is no whitespace. *)
Definition no_lead (s : string) : Prop :=
  match s with
  | EmptyString => True
  | String c _ => is_space c = false
  end.

(** No whitespace at either end, said on the string and its mirror. *)
Definition tidy (s : string) : Prop := no_lead s /\ no_lead (rev s).

(** A string with no whitespace at either end. *)
Definition trimmed (s : string) : Prop := strip s = s.

(** The condition of the filtering loop on text entries. *)
Definition long_text (e : entry) : Prop :=
  match e with
  | Text t => (20 < String.length (strip t))%nat
  | Link _ _ => True
  end.

Definition is_get (ev : event) : bool :=
  match ev with EvGet _ _ _ _ => true | _ => false end.

(** Every request of the trace is addressed to [url]. *)
Definition get_to (url : string) (ev : event) : Prop :=
  match ev with EvGet u _ _ _ => u = url | _ => True end.

Definition not_get (ev : event) : Prop := is_get ev = false.

Definition is_chrome (ev : event) : bool :=
  match ev with EvChrome _ => true | _ => false end.

Definition not_chrome (ev : event) : Prop := is_chrome ev = false.

(** The number of times the rendered extractor was invoked: it starts a
    browser first thing, and nothing else does. *)
Definition rendered_invocations (t : list event) : nat :=
  List.length (filter is_chrome t).

(** The request of an attempt (not the retry without verification) was
    answered 403. *)
Definition forbidden (ev : event) : bool :=
  match ev with
  | EvGet _ _ true (Responds r) => (status_code r =? 403)%Z
  | _ => false
  end.

(** No request follows a [forbidden] one. *)
Fixpoint no_get_after_forbidden (t : list event) : bool :=
  match t with
  | [] => true
  | ev :: rest =>
      if forbidden ev then forallb (fun e => negb (is_get e)) rest
      else no_get_after_forbidden rest
  end.

Definition no_forbidden (ev : event) : Prop := forbidden ev = false.

Definition FORBIDDEN_MSG : string :=
  "Access forbidden - site may have anti-bot protection".

(** The trace ends with a [forbidden] request, the first one, and the
    report of it in the log. *)
Definition ends_forbidden (t : list event) : Prop :=
  exists pre ev,
    t = (pre ++ [ev; EvLog ERROR FORBIDDEN_MSG])%list
    /\ Forall no_forbidden pre /\ forbidden ev = true.

(** The input carries one of the two prefixes [_normalize_url] looks for. *)
Definition has_web_prefix (url : string) : bool :=
  startswith "http://" url || startswith "https://" url.

(** A URL is absolute when it carries a scheme, as [urlsplit] reads it. *)
Definition is_absolute (url : string) : bool :=
  match Urllib.split_scheme (Urllib.clean_url url) with
  | Some _ => true
  | None => false
  end.

Definition absolute_link (e : entry) : Prop :=
  match e with
  | Text _ => True
  | Link _ full_url => is_absolute full_url = true
  end.

(** The labels of the two strategies, and the reasons of failure
    [process_url] gives. *)
Definition strategy_label (method : string) : Prop :=
  method = "Parsed with BeautifulSoup" \/ method = "Parsed with Selenium".

Definition failure_reason (method : string) : Prop :=
  method = "No content could be parsed from the page"
  \/ method = "Failed to fetch content".

(** The shape of a result of [process_url]: entries, not none, under a
    strategy label, or nothing and a reason. *)
Definition well_formed_result (r : option (list entry) * string) : Prop :=
  match r with
  | (Some parsed_data, method) => parsed_data <> [] /\ strategy_label method
  | (None, reason) => failure_reason reason
  end.

(** A network-level failure of a request: a [RequestException] that is
    not a certificate failure. *)
Definition network_error (e : exn) : bool :=
  is_RequestException e && negb (is_SSLError e).

(** The platform accepts a sleep of [secs] seconds. *)
Definition sleepable (env : Env) (secs : Z) : Prop :=
  (0 <= secs <= max_sleep env)%Z.

(** The sleeps of a trace, in order, and the number of its requests. *)
Definition sleeps (t : list event) : list Z :=
  flat_map (fun ev => match ev with EvSleep secs => [secs] | _ => [] end) t.

Definition requests (t : list event) : nat := List.length (filter is_get t).

(* ===================================================================== *)
(** * Example worlds *)

Module Examples.
Import Bs4.

Definition document (contents : list node) : node :=
  Tag "[document]" [] [Tag "html" [] [Tag "body" [] contents]].

(** A page whose article holds one link with a relative target. *)
Definition about_page : node :=
  document [Tag "article" []
              [Tag "a" [("href", "/about")] [NavigableString "About"]]].

(** An article with nothing but a short heading, next to a long paragraph
    that lies outside of it. *)
Definition short_article_page : node :=
  document [Tag "article" [] [Tag "h1" [] [NavigableString "News"]];
            Tag "p" [] [NavigableString
                          "A paragraph well over twenty characters long."]].

(** No article, main or content container: a long paragraph and a link. *)
Definition plain_page : node :=
  document [Tag "p" [] [NavigableString
                          "  A paragraph well over twenty characters long. "];
            Tag "a" [("href", "b.html")] [NavigableString "Next"]].

Definition empty_page : node := document [].

(** A [div] with a content class that holds a short paragraph only,
    next to a long paragraph outside of it. *)
Definition content_div_page : node :=
  document [Tag "div" [("class", "post content")]
              [Tag "p" [] [NavigableString "Short"]];
            Tag "p" [] [NavigableString
                          "A paragraph well over twenty characters long."]].

Definition responds (status : Z) (hs : list (string * string))
           (body : string) : GetOutcome :=
  Responds (mkResponse status hs body).

Definition timed_out : GetOutcome :=
  GetRaises (Exn RequestException "Read timed out.").

Definition bad_certificate : GetOutcome :=
  GetRaises (Exn SSLError "certificate verify failed").

(** The answers to the successive requests; past the list, time-outs. *)
Definition script (answers : list GetOutcome) : nat -> GetOutcome :=
  fun n => nth n answers timed_out.

(** A parser that knows the documents of a few markups, refuses
    ["<malformed>"], and finds nothing in anything else. *)
Definition parser_of (pages : list (string * node)) (markup : string)
  : result node :=
  if String.eqb markup "<malformed>"
  then Err (Exn OtherException "markup rejected")
  else match List.find (fun p => String.eqb markup (fst p)) pages with
       | Some p => Ok (snd p)
       | None => Ok empty_page
       end.

Definition pages : list (string * node) :=
  [("<about>", about_page); ("<short-article>", short_article_page);
   ("<plain>", plain_page); ("<content-div>", content_div_page)].

(** A browser that renders [source]. *)
Definition browser_showing (source : string) : Browser :=
  mkBrowser (Ok tt) (fun _ => Ok tt) (Ok tt) (Ok source) (Ok tt).

(** A browser whose navigation fails. *)
Definition browser_offline : Browser :=
  mkBrowser (Ok tt)
            (fun _ => Err (Exn WebDriverException "net::ERR_NAME_NOT_RESOLVED"))
            (Ok tt) (Ok EmptyString) (Ok tt).

Definition world (answers : list GetOutcome) (b : Browser) : Env :=
  mkEnv (script answers) (fun _ => 0%nat) (parser_of pages) b 3600.

Definition HTTP_DATE : string := "Wed, 21 Oct 2015 07:28:00 GMT".

Definition rate_limited_with (value : string) : Response :=
  mkResponse 429 [("Retry-After", value)] EmptyString.

End Examples.

(* ===================================================================== *)
(** ** [streamlit_app] *)

(** The page of the front end: what its calls put on the screen, in the
    order they are made, and the two things it reads back, the values of
    the text inputs (by key) and whether the button was pressed in this
    run of the script. *)
Module Streamlit.

Inductive element : Type :=
| title (text : string)
| text_input (label key help : string)
| button (label : string)
| columns (n : nat)
| column (i : nat)          (* [with col:], the column of index [i] *)
| spinner (text : string)
| expander (label : string)
| success (text : string)
| subheader (text : string)
| write (text : string)
| markdown (text : string)
| error (text : string)
| warning (text : string).

Record Page : Type := mkPage {
  text_value : string -> string;
  clicked : bool }.

(** Computations of the front end: those of [M], with the screen as one
    more piece of state; the screen too survives an exception. *)
Definition App (A : Type) : Type :=
  Env -> State -> list element -> result A * State * list element.

Definition pure {A} (a : A) : App A := fun _ s d => (Ok a, s, d).

Definition and_then {A B} (m : App A) (f : A -> App B) : App B :=
  fun env s d =>
    match m env s d with
    | (Ok a, s', d') => f a env s' d'
    | (Err e, s', d') => (Err e, s', d')
    end.

(** A computation of the pipeline, run from the front end. *)
Definition call {A} (m : M A) : App A :=
  fun env s d => let '(r, s') := m env s in (r, s', d).

(** A call of [st] that puts [e] on the screen. *)
Definition show (e : element) : App unit :=
  fun _ s d => (Ok tt, s, (d ++ [e])%list).

Declare Scope app_scope.
Delimit Scope app_scope with app.
Notation "x <- m ;; k" := (and_then m (fun x => k))
  (at level 61, m at next level, right associativity) : app_scope.
Notation "m ;; k" := (and_then m (fun _ => k))
  (at level 61, right associativity) : app_scope.
Local Open Scope app_scope.

(** [for i in range(3)]: the three inputs, and [urls], the values that
    are not empty. *)
Fixpoint ask_urls (page : Page) (i count : nat) : App (list string) :=
  match count with
  | O => pure []
  | S count' =>
      show (text_input ("Enter URL " ++ of_nat (i + 1) ++ " to analyze:")
                       ("url_" ++ of_nat i)
                       "Enter the full URL including https://") ;;
      let url := text_value page ("url_" ++ of_nat i) in
      rest <- ask_urls page (S i) count' ;;
      pure (if truthy url then url :: rest else rest)
  end.

(** [for j, text in enumerate(result, 1)] *)
Fixpoint show_entries (j : nat) (result : list string) : App unit :=
  match result with
  | [] => pure tt
  | text :: rest =>
      show (write (of_nat j ++ ". " ++ text)) ;;
      show (markdown "---") ;;
      show_entries (S j) rest
  end.

(** The body of the loop over the URLs, for the URL of index [i]. *)
Definition show_result (i : nat) (url : string) : App unit :=
  show (column i) ;;
  show (spinner ("Fetching and analyzing content from URL "
                 ++ of_nat (i + 1) ++ "...")) ;;
  r <- call (process_url url) ;;
  let '(result, method) := r in
  show (expander ("Results for URL " ++ of_nat (i + 1) ++ ": " ++ url)) ;;
  match result with
  | Some (x :: parsed) =>
      show (success ("Content extracted successfully using " ++ method
                     ++ "!")) ;;
      show (subheader "Extracted Content") ;;
      show_entries 1 (map entry_str (x :: parsed))
  | _ => show (error ("Failed to extract content: " ++ method))
  end.

(** [for i, (url, col) in enumerate(zip(urls, cols))], from index [i]. *)
Fixpoint show_results (i : nat) (urls : list string) : App unit :=
  match urls with
  | [] => pure tt
  | url :: rest => show_result i url ;; show_results (S i) rest
  end.

Definition streamlit_app (page : Page) : App unit :=
  show (title "Enhanced Web Content Extractor") ;;
  urls <- ask_urls page 0 3 ;;
  show (button "Extract Content") ;;
  if clicked page then
    match urls with
    | _ :: _ =>
        show (columns (List.length urls)) ;;
        show_results 0 urls
    | [] => show (warning "Please enter at least one URL")
    end
  else pure tt.

End Streamlit.

(* ===================================================================== *)
(** * Vocabulary of the further properties *)

Definition is_verified_get (ev : event) : bool :=
  match ev with EvGet _ _ true _ => true | _ => false end.

Definition not_verified_get (ev : event) : Prop := is_verified_get ev = false.

(** The number of requests made with certificate verification: one per
    attempt at most. *)
Definition verified_requests (t : list event) : nat :=
  List.length (filter is_verified_get t).

(** The [User-Agent] of a request, or of a browser, is one of the pool. *)
Definition agent_from_pool (ev : event) : Prop :=
  match ev with
  | EvGet _ ua _ _ => In ua USER_AGENTS
  | EvChrome ua => In ua USER_AGENTS
  | _ => True
  end.

(** A trace in which every request made with verification comes right
    after a sleep of [delay]. *)
Inductive throttled (delay : Z) : list event -> Prop :=
| throttled_nil : throttled delay []
| throttled_other ev t :
    not_verified_get ev -> throttled delay t -> throttled delay (ev :: t)
| throttled_get url ua o t :
    throttled delay t ->
    throttled delay (EvSleep delay :: EvGet url ua true o :: t).

(** The sleeps of a fetch whose attempts all fail on network errors: the
    fixed delay before each request, and after the request of attempt
    [k] (from 1) a back-off of [k] delays. *)
Fixpoint backoff_schedule (delay : Z) (attempt remaining : nat) : list Z :=
  match remaining with
  | O => []
  | S remaining' =>
      delay :: (delay * (Z.of_nat attempt + 1))%Z
            :: backoff_schedule delay (S attempt) remaining'
  end.

Definition total (l : list Z) : Z := fold_right Z.add 0%Z l.

Definition is_quit (ev : event) : bool :=
  match ev with EvDriverQuit => true | _ => false end.

(** An event of the driver once it exists, other than its shutdown. *)
Definition driving (ev : event) : Prop :=
  is_quit ev = false /\ is_chrome ev = false /\ is_get ev = false.

(** Every navigation of the browser goes to [url]. *)
Definition driver_get_to (url : string) (ev : event) : Prop :=
  match ev with EvDriverGet u => u = url | _ => True end.

Definition is_expander (e : Streamlit.element) : bool :=
  match e with Streamlit.expander _ => true | _ => false end.

(** The three text inputs and the button, as every run of the script
    shows them. *)
Definition form : list Streamlit.element :=
  [Streamlit.title "Enhanced Web Content Extractor";
   Streamlit.text_input "Enter URL 1 to analyze:" "url_0"
                        "Enter the full URL including https://";
   Streamlit.text_input "Enter URL 2 to analyze:" "url_1"
                        "Enter the full URL including https://";
   Streamlit.text_input "Enter URL 3 to analyze:" "url_2"
                        "Enter the full URL including https://";
   Streamlit.button "Extract Content"].

(** [urls] as the script collects them. *)
Definition entered_urls (page : Streamlit.Page) : list string :=
  filter truthy [Streamlit.text_value page "url_0";
                 Streamlit.text_value page "url_1";
                 Streamlit.text_value page "url_2"].

(** The labels of the result panels of a batch, numbered from [i + 1]. *)
Fixpoint panel_labels (i : nat) (urls : list string)
  : list Streamlit.element :=
  match urls with
  | [] => []
  | url :: rest =>
      Streamlit.expander ("Results for URL " ++ of_nat (i + 1) ++ ": " ++ url)
      :: panel_labels (S i) rest
  end.

(** A page with the given values in its three inputs. *)
Definition page_with (u0 u1 u2 : string) (clicked : bool) : Streamlit.Page :=
  Streamlit.mkPage
    (fun key =>
       if String.eqb key "url_0" then u0
       else if String.eqb key "url_1" then u1
       else if String.eqb key "url_2" then u2
       else EmptyString)
    clicked.

(** [m] adds at most [n] events of the kind [w] to the trace. *)
Definition emits_at_most (w : event -> bool) (n : nat) {A} (m : M A) : Prop :=
  forall env s r s',
    m env s = (r, s') ->
    exists t, trace s' = (trace s ++ t)%list
              /\ (List.length (filter w t) <= n)%nat.

(** Started with a [User-Agent] of the pool in [self.headers], [m] keeps
    one there, only adds events whose [User-Agent] is of the pool, and
    returns values satisfying [R]. *)
Definition keeps_pool {A} (m : M A) (R : A -> Prop) : Prop :=
  forall env s r s',
    In (user_agent s) USER_AGENTS ->
    m env s = (r, s') ->
    In (user_agent s') USER_AGENTS
    /\ (exists t, trace s' = (trace s ++ t)%list /\ Forall agent_from_pool t)
    /\ (forall a, r = Ok a -> R a).

(** The candidates of each of the three container passes. *)
Definition article_pass (soup : Bs4.node) : list Bs4.node :=
  match Bs4.find "article" soup with
  | Some article => Bs4.find_all ParserAgent.CONTENT_TAGS article
  | None => []
  end.

Definition main_pass (soup : Bs4.node) : list Bs4.node :=
  match Bs4.find "main" soup with
  | Some main => Bs4.find_all ParserAgent.CONTENT_TAGS main
  | None => []
  end.

Definition container_pass (soup : Bs4.node) : list Bs4.node :=
  flat_map (Bs4.find_all ParserAgent.CONTENT_TAGS)
           (Bs4.find_all_class "div" ParserAgent.CONTENT_CLASSES soup).

(** [x] occurs at two places of [l] at least. *)
Definition occurs_twice {A} (x : A) (l : list A) : Prop :=
  exists l1 l2 l3, l = (l1 ++ x :: l2 ++ x :: l3)%list.

(** More example pages and worlds. *)
Module MoreExamples.
Import Bs4 Examples.

(** No container, a paragraph too short to keep and an anchor without a
    target. *)
Definition short_page : node :=
  document [Tag "p" [] [NavigableString "Too short"];
            Tag "a" [] [NavigableString "Nowhere"]].

(** An article inside the main area, with one long paragraph. *)
Definition nested_page : node :=
  document [Tag "main" []
              [Tag "article" []
                 [Tag "p" [] [NavigableString
                                "A paragraph well over twenty characters long."]]]].

(** A paragraph outside of every container, then a [div] with a content
    class that holds a paragraph and a link. *)
Definition mixed_page : node :=
  document [Tag "p" [] [NavigableString
                          "An opening paragraph outside of every container."];
            Tag "div" [("class", "entry-content")]
              [Tag "p" [] [NavigableString
                             "A paragraph well over twenty characters long."];
               Tag "a" [("href", "b.html")] [NavigableString "Next"]]].

Definition more_pages : list (string * node) :=
  [("<short>", short_page); ("<nested>", nested_page);
   ("<plain>", plain_page); ("<mixed>", mixed_page)].

Definition world_with (answers : list GetOutcome) (b : Browser) : Env :=
  mkEnv (script answers) (fun _ => 0%nat) (parser_of more_pages) b 3600.

(** A browser that renders a page and then fails to shut down. *)
Definition browser_stuck (source : string) : Browser :=
  mkBrowser (Ok tt) (fun _ => Ok tt) (Ok tt) (Ok source)
            (Err (Exn WebDriverException "session deleted")).

End MoreExamples.

(* ===================================================================== *)
(** * Properties *)

(** ** The monad: what each operation adds to the trace *)

Section Emits.
Context (P : event -> Prop).

Lemma emits_silent {A} (m : M A) :
  (forall env s, trace (snd (m env s)) = trace s) -> emits P m.
Proof.
  intros H env s r s' E. exists []. split; [|constructor].
  specialize (H env s). rewrite E in H. simpl in H.
  now rewrite app_nil_r.
Qed.

Lemma emits_ret {A} (a : A) : emits P (ret a).
Proof. now apply emits_silent. Qed.

Lemma emits_raise {A} (e : exn) : emits P (@raise A e).
Proof. now apply emits_silent. Qed.

Lemma emits_lift {A} (r : result A) : emits P (lift r).
Proof. now apply emits_silent. Qed.

Lemma emits_BeautifulSoup (markup : string) : emits P (BeautifulSoup markup).
Proof. now apply emits_silent. Qed.

Lemma emits_random_choice (l : list string) : emits P (random_choice l).
Proof. now apply emits_silent. Qed.

Lemma emits_set_user_agent (ua : string) : emits P (set_user_agent ua).
Proof. now apply emits_silent. Qed.

Lemma emits_emit (e : event) : P e -> emits P (emit e).
Proof.
  intros He env s r s' E. inversion E; subst; clear E.
  exists [e]. split; [reflexivity | now constructor].
Qed.

Lemma emits_log (l : level) (msg : string) :
  P (EvLog l msg) -> emits P (log l msg).
Proof. apply emits_emit. Qed.

Lemma emits_time_sleep (secs : Z) :
  P (EvSleep secs) -> emits P (time_sleep secs).
Proof.
  intros He env s r s' E. unfold time_sleep in E.
  destruct (secs <? 0)%Z; [|destruct (max_sleep env <? secs)%Z].
  - inversion E; subst. exists []. now rewrite app_nil_r.
  - inversion E; subst. exists []. now rewrite app_nil_r.
  - exact (emits_emit _ He env s r s' E).
Qed.

Lemma emits_session_get (url : string) (verify : bool) :
  (forall ua o, P (EvGet url ua verify o)) -> emits P (session_get url verify).
Proof.
  intros He env s r s' E. unfold session_get in E.
  exists [EvGet url (user_agent s) verify (http env (gets s))].
  split; [|now constructor].
  destruct (http env (gets s)); inversion E; reflexivity.
Qed.

Lemma emits_browser_call {A} (e : event) (f : Browser -> result A) :
  P e -> emits P (browser_call e f).
Proof.
  intros He env s r s' E. unfold browser_call in E. simpl in E.
  inversion E; subst. exists [e]. split; [reflexivity | now constructor].
Qed.

Lemma emits_bind {A B} (m : M A) (f : A -> M B) :
  emits P m -> (forall a, emits P (f a)) -> emits P (bind m f).
Proof.
  intros Hm Hf env s r s' E. unfold bind in E.
  destruct (m env s) as [[a|e] s1] eqn:E1.
  - destruct (Hm _ _ _ _ E1) as (t1 & T1 & F1).
    destruct (Hf a _ _ _ _ E) as (t2 & T2 & F2).
    exists (t1 ++ t2)%list. split.
    + now rewrite T2, T1, app_assoc.
    + now apply Forall_app.
  - inversion E; subst. exact (Hm _ _ _ _ E1).
Qed.

Lemma emits_try_except {A} (m : M A) (h : exn -> M A) :
  emits P m -> (forall e, emits P (h e)) -> emits P (try_except m h).
Proof.
  intros Hm Hh env s r s' E. unfold try_except in E.
  destruct (m env s) as [[a|e] s1] eqn:E1.
  - inversion E; subst. exact (Hm _ _ _ _ E1).
  - destruct (Hm _ _ _ _ E1) as (t1 & T1 & F1).
    destruct (Hh e _ _ _ _ E) as (t2 & T2 & F2).
    exists (t1 ++ t2)%list. split.
    + now rewrite T2, T1, app_assoc.
    + now apply Forall_app.
Qed.

Lemma emits_try_finally {A} (m : M A) (f : M unit) :
  emits P m -> emits P f -> emits P (try_finally m f).
Proof.
  intros Hm Hf env s r s' E. unfold try_finally in E.
  destruct (m env s) as [r1 s1] eqn:E1.
  destruct (f env s1) as [r2 s2] eqn:E2.
  destruct (Hm _ _ _ _ E1) as (t1 & T1 & F1).
  destruct (Hf _ _ _ _ E2) as (t2 & T2 & F2).
  exists (t1 ++ t2)%list. split.
  - destruct r2; inversion E; subst; now rewrite T2, T1, app_assoc.
  - now apply Forall_app.
Qed.

End Emits.

Lemma emits_weaken (P Q : event -> Prop) {A} (m : M A) :
  (forall e, P e -> Q e) -> emits P m -> emits Q m.
Proof.
  intros PQ Hm env s r s' E. destruct (Hm _ _ _ _ E) as (t & T & F).
  exists t. split; [exact T|]. eapply Forall_impl; eauto.
Qed.

(** One step of a proof that a program only emits events of a kind: the
    rule of the outermost operation, or a case analysis on the test. *)
Ltac emits_step :=
  lazymatch goal with
  | |- emits _ (bind _ _) => apply emits_bind; [|intros ?]
  | |- emits _ (try_except _ _) => apply emits_try_except; [|intros ?]
  | |- emits _ (try_finally _ _) => apply emits_try_finally
  | |- emits _ (ret _) => apply emits_ret
  | |- emits _ (raise _) => apply emits_raise
  | |- emits _ (lift _) => apply emits_lift
  | |- emits _ (BeautifulSoup _) => apply emits_BeautifulSoup
  | |- emits _ (random_choice _) => apply emits_random_choice
  | |- emits _ (set_user_agent _) => apply emits_set_user_agent
  | |- emits _ (log _ _) => apply emits_log
  | |- emits _ (time_sleep _) => apply emits_time_sleep
  | |- emits _ (session_get _ _) => apply emits_session_get; intros ? ?
  | |- emits _ (browser_call _ _) => apply emits_browser_call
  | |- emits _ (if ?c then _ else _) => destruct c
  | |- emits _ (match ?x with _ => _ end) => destruct x
  | |- emits _ (let '(_, _) := ?x in _) => destruct x
  end.

Ltac emits_auto := repeat emits_step; try exact I; try reflexivity.

(** ** URLs: schemes through [urlparse], [geturl] and [urljoin] *)

Lemma startswith_app (p s : string) :
  startswith p s = true -> exists r, s = p ++ r.
Proof.
  revert s. induction p as [|c p IH]; intros s H; simpl in *.
  - now exists s.
  - destruct s as [|d s]; [discriminate|].
    apply andb_true_iff in H. destruct H as [Hc H].
    apply Ascii.eqb_eq in Hc. subst d.
    destruct (IH _ H) as (r & ->). now exists r.
Qed.

Lemma web_prefix_cases (url : string) :
  has_web_prefix url = true ->
  exists r, url = "http://" ++ r \/ url = "https://" ++ r.
Proof.
  unfold has_web_prefix. intros H. apply orb_true_iff in H.
  destruct H as [H|H]; apply startswith_app in H; destruct H as (r & ->);
    exists r; auto.
Qed.

Lemma web_prefix_scheme (url : string) :
  has_web_prefix url = true ->
  exists rest,
    Urllib.split_scheme (Urllib.clean_url url) = Some ("http", rest)
    \/ Urllib.split_scheme (Urllib.clean_url url) = Some ("https", rest).
Proof.
  intros H. destruct (web_prefix_cases _ H) as (r & [-> | ->]);
    eexists; [left | right]; reflexivity.
Qed.

Lemma web_prefix_absolute (url : string) :
  has_web_prefix url = true -> is_absolute url = true.
Proof.
  intros H. unfold is_absolute.
  destruct (web_prefix_scheme _ H) as (rest & [-> | ->]); reflexivity.
Qed.

(** The scheme [urlsplit] reports: the URL's own, else the default. *)
Lemma urlsplit_scheme (url d : string) (sp : Urllib.SplitResult) :
  Urllib.urlsplit url d = Ok sp ->
  Urllib.s_scheme sp =
    match Urllib.split_scheme (Urllib.clean_url url) with
    | Some (s, _) => s
    | None => Urllib.clean_scheme d
    end.
Proof.
  unfold Urllib.urlsplit.
  destruct (Urllib.split_scheme (Urllib.clean_url url)) as [[s rest]|];
    repeat match goal with
      | |- context [let '(_, _) := ?x in _] => destruct x
      | |- context [match ?x with _ => _ end] => destruct x
      | |- context [if ?c then _ else _] => destruct c
      end;
    intros E; inversion E; reflexivity.
Qed.

Lemma urlparse_scheme (url d : string) (p : Urllib.ParseResult) :
  Urllib.urlparse url d = Ok p ->
  Urllib.scheme p =
    match Urllib.split_scheme (Urllib.clean_url url) with
    | Some (s, _) => s
    | None => Urllib.clean_scheme d
    end.
Proof.
  unfold Urllib.urlparse.
  destruct (Urllib.urlsplit url d) as [sp|e] eqn:E; [|discriminate].
  rewrite <- (urlsplit_scheme _ _ _ E).
  destruct (_ && _); [destruct (Urllib._splitparams _)|];
    intros H; inversion H; reflexivity.
Qed.

(** Whatever the other components, [urlunsplit] with scheme [http] or
    [https] starts with that scheme and two slashes. *)
Lemma urlunsplit_web (sch n u q f : string) :
  sch = "http" \/ sch = "https" ->
  has_web_prefix (Urllib.urlunsplit sch n u q f) = true.
Proof.
  intros Hs. unfold Urllib.urlunsplit.
  assert (Hm : truthy sch = true /\ mem sch Urllib.uses_netloc = true)
    by (destruct Hs as [-> | ->]; split; reflexivity).
  destruct Hm as [-> ->]. simpl (true && true).
  destruct (startswith "//" u) eqn:Eu.
  - apply startswith_app in Eu. destruct Eu as (r & ->).
    destruct (truthy n), (truthy q), (truthy f);
      destruct Hs as [-> | ->]; reflexivity.
  - rewrite orb_true_r.
    destruct (truthy u && negb (startswith "/" u)), (truthy q), (truthy f);
      destruct Hs as [-> | ->]; reflexivity.
Qed.

Lemma urlunparse_web (p : Urllib.ParseResult) :
  Urllib.scheme p = "http" \/ Urllib.scheme p = "https" ->
  has_web_prefix (Urllib.urlunparse p) = true.
Proof. intros H. unfold Urllib.urlunparse. now apply urlunsplit_web. Qed.

(** The URL [_normalize_url] returns carries an explicit [http://] or
    [https://]. *)
Lemma normalize_web_prefix (url nurl : string) :
  CrawlerAgent._normalize_url url = Ok nurl -> has_web_prefix nurl = true.
Proof.
  unfold CrawlerAgent._normalize_url.
  set (url1 := if negb _ then _ else _).
  assert (H1 : has_web_prefix url1 = true).
  { subst url1. fold (has_web_prefix url).
    destruct (has_web_prefix url) eqn:E; [exact E | reflexivity]. }
  destruct (Urllib.urlparse url1 EmptyString) as [p|e] eqn:E; [|discriminate].
  intros H; inversion H; subst; clear H.
  apply urlunparse_web. rewrite (urlparse_scheme _ _ _ E).
  destruct (web_prefix_scheme _ H1) as (rest & [-> | ->]); auto.
Qed.

Lemma urlunsplit_http (n u q f : string) :
  startswith "http://" (Urllib.urlunsplit "http" n u q f) = true.
Proof.
  unfold Urllib.urlunsplit.
  change (truthy "http" && mem "http" Urllib.uses_netloc) with true.
  change (truthy "http") with true. cbv iota.
  destruct (startswith "//" u) eqn:Eu.
  - apply startswith_app in Eu. destruct Eu as (r & ->).
    destruct (truthy n), (truthy q), (truthy f); reflexivity.
  - cbn [negb andb]. rewrite orb_true_r.
    destruct (truthy u && negb (startswith "/" u)), (truthy q), (truthy f);
      reflexivity.
Qed.

Lemma urlunsplit_https (n u q f : string) :
  startswith "http://" (Urllib.urlunsplit "https" n u q f) = false.
Proof.
  unfold Urllib.urlunsplit.
  change (truthy "https" && mem "https" Urllib.uses_netloc) with true.
  change (truthy "https") with true. cbv iota.
  destruct (startswith "//" u) eqn:Eu.
  - apply startswith_app in Eu. destruct Eu as (r & ->).
    destruct (truthy n), (truthy q), (truthy f); reflexivity.
  - cbn [negb andb]. rewrite orb_true_r.
    destruct (truthy u && negb (startswith "/" u)), (truthy q), (truthy f);
      reflexivity.
Qed.

(** The scheme of the URL [_normalize_url] returns: that of the input
    when it starts with [http://], else [https]. *)
Lemma normalize_scheme_of (url self_url : string) :
  CrawlerAgent._normalize_url url = Ok self_url ->
  exists p,
    self_url = Urllib.urlunparse p
    /\ Urllib.scheme p
       = if startswith "http://" url then "http" else "https".
Proof.
  unfold CrawlerAgent._normalize_url.
  set (url1 := if negb _ then _ else _).
  destruct (Urllib.urlparse url1 EmptyString) as [p|e] eqn:E; [|discriminate].
  intros H; inversion H; subst self_url; clear H.
  exists p. split; [reflexivity|].
  pose proof (urlparse_scheme _ _ _ E) as S.
  subst url1. destruct (startswith "http://" url) eqn:E1.
  - apply startswith_app in E1. destruct E1 as (r & ->). exact S.
  - destruct (startswith "https://" url) eqn:E2.
    + apply startswith_app in E2. destruct E2 as (r & ->). exact S.
    + exact S.
Qed.

Lemma urlunparse_https (p : Urllib.ParseResult) :
  Urllib.scheme p = "https" ->
  startswith "https://" (Urllib.urlunparse p) = true.
Proof.
  intros S.
  assert (W : has_web_prefix (Urllib.urlunparse p) = true)
    by (apply urlunparse_web; now right).
  unfold has_web_prefix, Urllib.urlunparse in *. rewrite S in *.
  now rewrite urlunsplit_https in W.
Qed.

Lemma urlunparse_http (p : Urllib.ParseResult) :
  Urllib.scheme p = "http" ->
  startswith "http://" (Urllib.urlunparse p) = true
  /\ startswith "https://" (Urllib.urlunparse p) = false.
Proof.
  intros S. unfold Urllib.urlunparse. rewrite S.
  split; [apply urlunsplit_http|].
  pose proof (urlunsplit_http (Urllib.netloc p)
                (if truthy (Urllib.params p)
                 then Urllib.path p ++ ";" ++ Urllib.params p
                 else Urllib.path p)
                (Urllib.query p) (Urllib.fragment p)) as W.
  apply startswith_app in W. destruct W as (r & ->). reflexivity.
Qed.

(** Joined to a base that carries [http://] or [https://], any href
    gives an absolute URL. *)
Lemma urljoin_absolute (base href full_url : string) :
  has_web_prefix base = true ->
  Urllib.urljoin base href = Ok full_url ->
  is_absolute full_url = true.
Proof.
  intros Hb. unfold Urllib.urljoin.
  destruct (truthy base) eqn:Tb; cbn [negb].
  2:{ destruct (web_prefix_cases _ Hb) as (r & [-> | ->]); discriminate. }
  destruct (truthy href) eqn:Th; cbn [negb].
  2:{ intros H; inversion H; subst. now apply web_prefix_absolute. }
  destruct (Urllib.urlparse base EmptyString) as [b|e] eqn:Eb; [|discriminate].
  assert (Sb : Urllib.scheme b = "http" \/ Urllib.scheme b = "https").
  { rewrite (urlparse_scheme _ _ _ Eb).
    destruct (web_prefix_scheme _ Hb) as (rest & [-> | ->]); auto. }
  destruct (Urllib.urlparse href (Urllib.scheme b)) as [u|e] eqn:Eu;
    [|discriminate].
  pose proof (urlparse_scheme _ _ _ Eu) as Su.
  destruct (negb (String.eqb (Urllib.scheme u) (Urllib.scheme b))
            || negb (mem (Urllib.scheme u) Urllib.uses_relative)) eqn:C.
  - intros H; inversion H; subst; clear H. unfold is_absolute.
    destruct (Urllib.split_scheme (Urllib.clean_url full_url))
      as [[s rest]|]; [reflexivity|].
    exfalso. rewrite Su in C.
    destruct Sb as [Sb | Sb]; rewrite Sb in C; vm_compute in C; discriminate.
  - apply orb_false_iff in C. destruct C as [C _].
    apply negb_false_iff, String.eqb_eq in C.
    assert (Hu : Urllib.scheme u = "http" \/ Urllib.scheme u = "https")
      by (rewrite C; exact Sb).
    repeat match goal with
      | |- context [if ?c then _ else _] => destruct c
      end;
      intros H; inversion H; subst; clear H;
      apply web_prefix_absolute, urlunparse_web; simpl; exact Hu.
Qed.

(** ** The monad: values returned, and totality *)

Lemma bind_inv {A B} (m : M A) (f : A -> M B) env s r s' :
  bind m f env s = (r, s') ->
  (exists a s1, m env s = (Ok a, s1) /\ f a env s1 = (r, s'))
  \/ (exists e, m env s = (Err e, s') /\ r = Err e).
Proof.
  unfold bind. destruct (m env s) as [[a|e] s1]; intros E.
  - left. now exists a, s1.
  - right. inversion E; subst. now exists e.
Qed.

Lemma bind_ok {A B} (m : M A) (f : A -> M B) env s a s1 :
  m env s = (Ok a, s1) -> bind m f env s = f a env s1.
Proof. unfold bind. now intros ->. Qed.

Lemma bind_err {A B} (m : M A) (f : A -> M B) env s e s1 :
  m env s = (Err e, s1) -> bind m f env s = (Err e, s1).
Proof. unfold bind. now intros ->. Qed.

Section Post.
Context {A : Type}.

Lemma post_ret (a : A) (Q : A -> Prop) : Q a -> post (ret a) Q.
Proof. intros H env s b s' E. inversion E; now subst. Qed.

Lemma post_lift (r : result A) : post (lift r) (fun a => r = Ok a).
Proof. intros env s b s' E. inversion E; now subst. Qed.

Lemma post_bind {B} (m : M B) (f : B -> M A) (R : B -> Prop) (Q : A -> Prop) :
  post m R -> (forall b, R b -> post (f b) Q) -> post (bind m f) Q.
Proof.
  intros Hm Hf env s a s' E.
  destruct (bind_inv _ _ _ _ _ _ E) as [(b & s1 & E1 & E2) | (e & _ & D)];
    [|discriminate].
  exact (Hf b (Hm _ _ _ _ E1) _ _ _ _ E2).
Qed.

Lemma post_try_except (m : M A) (h : exn -> M A) (Q : A -> Prop) :
  post m Q -> (forall e, post (h e) Q) -> post (try_except m h) Q.
Proof.
  intros Hm Hh env s a s' E. unfold try_except in E.
  destruct (m env s) as [[b|e] s1] eqn:E1.
  - inversion E; subst. exact (Hm _ _ _ _ E1).
  - exact (Hh e _ _ _ _ E).
Qed.

Lemma post_try_finally (m : M A) (f : M unit) (Q : A -> Prop) :
  post m Q -> post (try_finally m f) Q.
Proof.
  intros Hm env s a s' E. unfold try_finally in E.
  destruct (m env s) as [r1 s1] eqn:E1.
  destruct (f env s1) as [[[]|e] s2]; inversion E; subst.
  exact (Hm _ _ _ _ E1).
Qed.

Lemma post_weaken (m : M A) (Q R : A -> Prop) :
  (forall a, Q a -> R a) -> post m Q -> post m R.
Proof. intros QR Hm env s a s' E. exact (QR _ (Hm _ _ _ _ E)). Qed.

Lemma post_trivial (m : M A) : post m (fun _ => True).
Proof. now intros env s a s' E. Qed.

End Post.

Section Returns.
Context (env : Env).

Lemma returns_ret {A} (a : A) : returns_in env (ret a).
Proof. intros s. now exists a, s. Qed.

Lemma returns_emit (e : event) : returns_in env (emit e).
Proof. intros s. eexists _, _. reflexivity. Qed.

Lemma returns_log (l : level) (msg : string) : returns_in env (log l msg).
Proof. apply returns_emit. Qed.

Lemma returns_time_sleep (secs : Z) :
  sleepable env secs -> returns_in env (time_sleep secs).
Proof.
  intros [H0 H1] s. unfold time_sleep.
  destruct (Z.ltb_spec secs 0); [lia|].
  destruct (Z.ltb_spec (max_sleep env) secs); [lia|].
  apply returns_emit.
Qed.

Lemma returns_bind {A B} (m : M A) (f : A -> M B) :
  returns_in env m -> (forall a, returns_in env (f a)) ->
  returns_in env (bind m f).
Proof.
  intros Hm Hf s. destruct (Hm s) as (a & s1 & E1).
  destruct (Hf a s1) as (b & s2 & E2).
  exists b, s2. now rewrite (bind_ok _ _ _ _ _ _ E1).
Qed.

Lemma returns_try_except {A} (m : M A) (h : exn -> M A) :
  (forall e, returns_in env (h e)) -> returns_in env (try_except m h).
Proof.
  intros Hh s. unfold try_except.
  destruct (m env s) as [[a|e] s1].
  - now exists a, s1.
  - apply Hh.
Qed.

End Returns.

Ltac returns_step :=
  lazymatch goal with
  | |- returns_in _ (bind _ _) => apply returns_bind; [|intros ?]
  | |- returns_in _ (try_except _ _) => apply returns_try_except; intros ?
  | |- returns_in _ (ret _) => apply returns_ret
  | |- returns_in _ (log _ _) => apply returns_log
  | |- returns_in _ (time_sleep _) => apply returns_time_sleep
  | |- returns_in _ (if ?c then _ else _) => destruct c
  | |- returns_in _ (match ?x with _ => _ end) => destruct x
  end.

(** ** The fetcher *)

Section FetchTrace.
Context (P : event -> Prop) (self_url : string).
Hypothesis P_log : forall l msg, P (EvLog l msg).
Hypothesis P_sleep : forall secs, P (EvSleep secs).

Lemma check_status_emits (delay : Z) (attempt : nat) (response : Response) :
  emits P (CrawlerAgent.check_status delay attempt response).
Proof. unfold CrawlerAgent.check_status. repeat emits_step; auto. Qed.

Lemma attempt_except_emits (delay : Z) (attempt : nat) (e : exn) :
  (forall ua o, P (EvGet self_url ua false o)) ->
  emits P (CrawlerAgent.attempt_except self_url delay attempt e).
Proof. intros G. unfold CrawlerAgent.attempt_except. repeat emits_step; auto. Qed.

Hypothesis P_get : forall ua verify o, P (EvGet self_url ua verify o).

Lemma attempt_body_emits (max_retries : nat) (delay : Z) (attempt : nat) :
  emits P (CrawlerAgent.attempt_body self_url max_retries delay attempt).
Proof.
  unfold CrawlerAgent.attempt_body, CrawlerAgent.attempt_try.
  apply emits_try_except.
  - repeat emits_step; auto. apply check_status_emits.
  - intros e. apply attempt_except_emits. auto.
Qed.

Lemma fetch_loop_emits (max_retries : nat) (delay : Z) (remaining attempt : nat) :
  emits P (CrawlerAgent.fetch_loop self_url max_retries delay remaining attempt).
Proof.
  revert attempt. induction remaining as [|n IH]; intros attempt; simpl.
  - repeat emits_step; auto.
  - apply emits_bind; [apply attempt_body_emits|].
    intros [v|]; [apply emits_ret | apply IH].
Qed.

Lemma fetch_content_emits (max_retries : nat) (delay : Z) :
  emits P (CrawlerAgent.fetch_content self_url max_retries delay).
Proof. apply fetch_loop_emits. Qed.

End FetchTrace.

(** An iteration raises nothing when the platform accepts the back-off
    sleep of its [except] clause; so does the loop when it accepts the
    longest one. *)
Lemma attempt_body_returns env self_url max_retries delay attempt :
  sleepable env (delay * (Z.of_nat attempt + 1)) ->
  returns_in env
    (CrawlerAgent.attempt_body self_url max_retries delay attempt).
Proof.
  intros Hs. unfold CrawlerAgent.attempt_body, CrawlerAgent.attempt_except.
  repeat returns_step; exact Hs.
Qed.

Lemma fetch_loop_returns env self_url max_retries delay remaining attempt :
  (0 <= delay)%Z ->
  (delay * Z.of_nat (attempt + remaining) <= max_sleep env)%Z ->
  returns_in env
    (CrawlerAgent.fetch_loop self_url max_retries delay remaining attempt).
Proof.
  intros Hd. revert attempt.
  induction remaining as [|n IH]; intros attempt Hm; simpl.
  - repeat returns_step.
  - apply returns_bind.
    + apply attempt_body_returns. unfold sleepable. nia.
    + intros [v|]; [apply returns_ret|].
      apply IH. replace (S attempt + n)%nat with (attempt + S n)%nat by lia.
      exact Hm.
Qed.

Lemma time_sleep_ok env secs s :
  sleepable env secs ->
  time_sleep secs env s = (Ok tt, add_event (EvSleep secs) s).
Proof.
  intros [H0 H1]. unfold time_sleep.
  destruct (Z.ltb_spec secs 0); [lia|].
  destruct (Z.ltb_spec (max_sleep env) secs); [lia|]. reflexivity.
Qed.

Lemma time_sleep_refused env secs s :
  ~ sleepable env secs ->
  exists e, time_sleep secs env s = (Err e, s)
            /\ is_RequestException e = false.
Proof.
  intros H. unfold time_sleep, sleepable in *.
  destruct (Z.ltb_spec secs 0); [eexists; split; reflexivity|].
  destruct (Z.ltb_spec (max_sleep env) secs); [eexists; split; reflexivity|].
  lia.
Qed.

(** The [try] block up to the answer of its request. *)
Lemma attempt_try_request env self_url max_retries delay attempt s :
  sleepable env delay ->
  CrawlerAgent.attempt_try self_url max_retries delay attempt env s =
    match http env (gets s) with
    | Responds response =>
        CrawlerAgent.check_status delay attempt response env
          (at_response env self_url max_retries delay attempt s)
    | GetRaises e =>
        (Err e, at_response env self_url max_retries delay attempt s)
    end.
Proof.
  intros Hs. unfold CrawlerAgent.attempt_try.
  rewrite (bind_ok _ _ _ _ _ _ eq_refl).
  rewrite (bind_ok _ _ _ _ _ _ (time_sleep_ok _ _ _ Hs)).
  rewrite (bind_ok _ _ _ _ _ _ eq_refl).
  rewrite (bind_ok _ _ _ _ _ _ eq_refl).
  unfold bind, session_get, at_response, add_event.
  cbn [user_agent gets draws trace]. rewrite <- !app_assoc. cbn [app].
  destruct (http env (gets s)); reflexivity.
Qed.

(** When the platform refuses the fixed delay, no request is made. *)
Lemma attempt_try_no_sleep env self_url max_retries delay attempt s :
  ~ sleepable env delay ->
  exists e,
    CrawlerAgent.attempt_try self_url max_retries delay attempt env s =
      (Err e, add_event
                (EvLog INFO
                   (CrawlerAgent.attempt_msg self_url max_retries attempt)) s)
    /\ is_RequestException e = false.
Proof.
  intros Hs. unfold CrawlerAgent.attempt_try.
  rewrite (bind_ok _ _ _ _ _ _ eq_refl).
  destruct (time_sleep_refused env delay
              (add_event (EvLog INFO
                 (CrawlerAgent.attempt_msg self_url max_retries attempt)) s) Hs)
    as (e & E & C).
  exists e. split; [|exact C].
  now rewrite (bind_err _ _ _ _ _ _ E).
Qed.

Lemma try_except_ok {A} (m : M A) (h : exn -> M A) env s a s' :
  m env s = (Ok a, s') -> try_except m h env s = (Ok a, s').
Proof. unfold try_except. now intros ->. Qed.

Lemma try_except_err {A} (m : M A) (h : exn -> M A) env s e s' :
  m env s = (Err e, s') -> try_except m h env s = h e env s'.
Proof. unfold try_except. now intros ->. Qed.

(** What [check_status] does on a 429, by the two outcomes of reading
    the wait. *)
Lemma check_status_429 env delay attempt response s :
  status_code response = 429%Z ->
  CrawlerAgent.check_status delay attempt response env s =
    match CrawlerAgent.wait_time_of response delay attempt with
    | Ok wait_time =>
        bind (time_sleep wait_time) (fun _ => ret Next) env
             (add_event (EvLog WARNING
                           ("Rate limited - waiting " ++ of_Z wait_time
                            ++ " seconds")) s)
    | Err e => (Err e, s)
    end.
Proof.
  intros H. unfold CrawlerAgent.check_status. rewrite H.
  cbn [Z.eqb Pos.eqb]. unfold bind at 1, lift.
  destruct (CrawlerAgent.wait_time_of response delay attempt); reflexivity.
Qed.

(** Whatever [int()] raises is a [ValueError]. *)
Lemma int_raises_ValueError (v : string) (e : exn) :
  PyInt.int v = Err e -> exn_cls e = ValueError.
Proof.
  assert (U : forall body e', PyInt.unsigned v body = Err e' ->
                              exn_cls e' = ValueError).
  { intros body e'. unfold PyInt.unsigned.
    destruct (startswith "_" body); [intros H; inversion H; reflexivity|].
    destruct (PyInt.scan false body) as [[ds rest]|];
      [|intros H; inversion H; reflexivity].
    destruct (_ <? _)%nat; [intros H; inversion H; reflexivity|].
    destruct ds; [intros H; inversion H; reflexivity|].
    destruct rest; intros H; inversion H; reflexivity. }
  unfold PyInt.int. cbv zeta.
  destruct (rstrip_by PyInt.int_space (lstrip_by PyInt.int_space v))
    as [|c t]; [apply U|].
  destruct (Ascii.eqb c "-").
  - destruct (PyInt.unsigned v t) as [n|e'] eqn:E'; [discriminate|].
    intros H; inversion H; subst. exact (U _ _ E').
  - destruct (Ascii.eqb c "+"); apply U.
Qed.

Lemma wait_time_of_unparseable response delay attempt v e :
  headers_get "Retry-After" (headers response) = Some v ->
  PyInt.int v = Err e ->
  CrawlerAgent.wait_time_of response delay attempt = Err e
  /\ is_RequestException e = false.
Proof.
  intros H1 H2. unfold CrawlerAgent.wait_time_of. rewrite H1.
  split; [exact H2|].
  unfold is_RequestException. now rewrite (int_raises_ValueError _ _ H2).
Qed.

(** The last [except] clause: anything that is not a request error ends
    the fetch. *)
Lemma attempt_except_unexpected env self_url delay attempt e s :
  is_RequestException e = false ->
  CrawlerAgent.attempt_except self_url delay attempt e env s =
    (Ok (Return None),
     add_event (EvLog ERROR ("Unexpected error: " ++ exn_str e)) s).
Proof.
  intros H. unfold CrawlerAgent.attempt_except.
  assert (H' : is_SSLError e = false).
  { unfold is_SSLError, is_RequestException in *.
    destruct (exn_cls e); congruence. }
  now rewrite H', H.
Qed.

(** C10 (as amended).  An iteration whose request, the one made with
    certificate verification, is answered 429 with a [Retry-After] value
    [int()] does not accept ends the whole loop at once: the fetch
    returns [None], the [ValueError] is logged as an unexpected error,
    no wait is slept and no further request is made. *)
Theorem unparseable_retry_after_aborts
        env s self_url max_retries delay remaining attempt response v e :
  sleepable env delay ->
  http env (gets s) = Responds response ->
  status_code response = 429%Z ->
  headers_get "Retry-After" (headers response) = Some v ->
  PyInt.int v = Err e ->
  exists s' ua attempt_log,
    CrawlerAgent.fetch_loop self_url max_retries delay (S remaining) attempt
                            env s = (Ok None, s')
    /\ gets s' = S (gets s)
    /\ trace s' = (trace s ++ [EvLog INFO attempt_log;
                               EvSleep delay;
                               EvGet self_url ua true (Responds response);
                               EvLog ERROR ("Unexpected error: "
                                            ++ exn_str e)])%list.
Proof.
  intros Hs Hh Hst Hra Hint.
  destruct (wait_time_of_unparseable response delay attempt v e Hra Hint)
    as (Ew & Ce).
  assert (E : CrawlerAgent.attempt_try self_url max_retries delay attempt env s
              = (Err e, at_response env self_url max_retries delay attempt s)).
  { rewrite (attempt_try_request _ _ _ _ _ _ Hs), Hh.
    now rewrite (check_status_429 _ _ _ _ _ Hst), Ew. }
  pose proof (attempt_except_unexpected env self_url delay attempt e
                (at_response env self_url max_retries delay attempt s) Ce) as B.
  rewrite <- (try_except_err _ _ _ _ _ _ E) in B.
  eexists _, _, _. split; [|split].
  - cbn [CrawlerAgent.fetch_loop]. unfold CrawlerAgent.attempt_body.
    rewrite (bind_ok _ _ _ _ _ _ B). reflexivity.
  - reflexivity.
  - unfold add_event, at_response. cbn [trace]. rewrite Hh.
    rewrite <- app_assoc. reflexivity.
Qed.

(** C5 (as amended).  An iteration whose request, the one made with
    certificate verification, is answered 429 sleeps the wait read from
    [Retry-After], or [delay * attempt] (counting attempts from 1)
    without that header, and the loop goes on with the next iteration,
    one slot of [max_retries] used; this when the header, if any, holds
    an integer and the platform accepts the sleep. *)
Theorem rate_limited_waits_and_continues
        env s self_url max_retries delay remaining attempt response wait_time :
  sleepable env delay ->
  http env (gets s) = Responds response ->
  status_code response = 429%Z ->
  CrawlerAgent.wait_time_of response delay attempt = Ok wait_time ->
  sleepable env wait_time ->
  (match headers_get "Retry-After" (headers response) with
   | Some v => PyInt.int v = Ok wait_time
   | None => wait_time = (delay * (Z.of_nat attempt + 1))%Z
   end)
  /\ exists s1 ua attempt_log wait_log,
      CrawlerAgent.fetch_loop self_url max_retries delay (S remaining) attempt
                              env s
      = CrawlerAgent.fetch_loop self_url max_retries delay remaining
                                (S attempt) env s1
      /\ gets s1 = S (gets s)
      /\ trace s1 = (trace s ++ [EvLog INFO attempt_log;
                                 EvSleep delay;
                                 EvGet self_url ua true (Responds response);
                                 EvLog WARNING wait_log;
                                 EvSleep wait_time])%list.
Proof.
  intros Hs Hh Hst Hw Hsw. split.
  { unfold CrawlerAgent.wait_time_of in Hw.
    destruct (headers_get "Retry-After" (headers response)) as [v|].
    - exact Hw.
    - now inversion Hw. }
  set (s0 := at_response env self_url max_retries delay attempt s).
  set (s1 := add_event (EvSleep wait_time)
               (add_event (EvLog WARNING
                             ("Rate limited - waiting " ++ of_Z wait_time
                              ++ " seconds")) s0)).
  assert (B : CrawlerAgent.attempt_body self_url max_retries delay attempt env s
              = (Ok Next, s1)).
  { unfold CrawlerAgent.attempt_body. apply try_except_ok.
    rewrite (attempt_try_request _ _ _ _ _ _ Hs), Hh.
    rewrite (check_status_429 _ _ _ _ _ Hst), Hw.
    now rewrite (bind_ok _ _ _ _ _ _ (time_sleep_ok _ _ _ Hsw)). }
  exists s1. eexists _, _, _. split; [|split].
  - cbn [CrawlerAgent.fetch_loop]. now rewrite (bind_ok _ _ _ _ _ _ B).
  - reflexivity.
  - subst s1 s0. unfold add_event, at_response. cbn [trace]. rewrite Hh.
    rewrite <- !app_assoc. reflexivity.
Qed.

(** Network-level failures on every remaining iteration: the loop runs
    out, having made one request per iteration, and logs how many
    attempts failed. *)
Lemma fetch_loop_exhausted env self_url max_retries delay :
  (0 <= delay)%Z ->
  forall remaining attempt s,
    (delay * Z.of_nat (attempt + remaining) <= max_sleep env)%Z ->
    (forall k, (k < remaining)%nat ->
               exists e, http env (gets s + k) = GetRaises e
                         /\ network_error e = true) ->
    exists s',
      CrawlerAgent.fetch_loop self_url max_retries delay remaining attempt
                              env s = (Ok None, s')
      /\ gets s' = (gets s + remaining)%nat
      /\ List.last (trace s') (EvSleep 0)
         = EvLog ERROR ("Failed to fetch content after "
                        ++ of_nat max_retries ++ " attempts").
Proof.
  intros Hd. induction remaining as [|n IH]; intros attempt s Hm Hn.
  - eexists. split; [reflexivity|]. split; [simpl; lia|].
    cbn [trace]. now rewrite last_last.
  - destruct (Hn 0%nat) as (e & He & Ce); [lia|].
    rewrite Nat.add_0_r in He.
    apply andb_true_iff in Ce. destruct Ce as [Cr Cs].
    apply negb_true_iff in Cs.
    assert (Hs : sleepable env delay) by (unfold sleepable; nia).
    assert (Hb : sleepable env (delay * (Z.of_nat attempt + 1)))
      by (unfold sleepable; nia).
    set (s0 := at_response env self_url max_retries delay attempt s).
    set (s1 := add_event (EvSleep (delay * (Z.of_nat attempt + 1)))
                 (add_event (EvLog ERROR ("Request failed: " ++ exn_str e)) s0)).
    assert (B : CrawlerAgent.attempt_body self_url max_retries delay attempt
                  env s = (Ok Next, s1)).
    { unfold CrawlerAgent.attempt_body.
      erewrite try_except_err
        by (rewrite (attempt_try_request _ _ _ _ _ _ Hs), He; reflexivity).
      unfold CrawlerAgent.attempt_except. rewrite Cs, Cr.
      rewrite (bind_ok _ _ _ _ _ _ eq_refl).
      now rewrite (bind_ok _ _ _ _ _ _ (time_sleep_ok _ _ _ Hb)). }
    destruct (IH (S attempt) s1) as (s' & E & G & L).
    + replace (S attempt + n)%nat with (attempt + S n)%nat by lia. exact Hm.
    + intros k Hk. destruct (Hn (S k)) as (e' & He' & Ce'); [lia|].
      exists e'. split; [|exact Ce'].
      replace (gets s1 + k)%nat with (gets s + S k)%nat
        by (subst s1 s0; simpl; lia).
      exact He'.
    + exists s'. split; [|split].
      * cbn [CrawlerAgent.fetch_loop]. now rewrite (bind_ok _ _ _ _ _ _ B).
      * rewrite G. subst s1 s0. simpl. lia.
      * exact L.
Qed.

(** ** A 403 ends the fetch *)

Lemma sleepable_dec env secs : {sleepable env secs} + {~ sleepable env secs}.
Proof.
  unfold sleepable.
  destruct (Z_le_dec 0 secs), (Z_le_dec secs (max_sleep env));
    (left; lia) || (right; lia).
Qed.

Lemma not_get_no_forbidden ev : not_get ev -> no_forbidden ev.
Proof. unfold not_get, no_forbidden. now destruct ev. Qed.

Lemma no_forbidden_clean t :
  Forall no_forbidden t ->
  no_get_after_forbidden t = true /\ existsb forbidden t = false.
Proof.
  induction 1 as [|ev t H _ [IH1 IH2]]; [now split|].
  simpl. unfold no_forbidden in H. now rewrite H.
Qed.

Lemma no_forbidden_app t u :
  Forall no_forbidden t ->
  no_get_after_forbidden (t ++ u) = no_get_after_forbidden u
  /\ existsb forbidden (t ++ u) = existsb forbidden u.
Proof.
  induction 1 as [|ev t H _ [IH1 IH2]]; [now split|].
  simpl. unfold no_forbidden in H. now rewrite H.
Qed.

Lemma ends_forbidden_spec t :
  ends_forbidden t ->
  no_get_after_forbidden t = true
  /\ List.last t (EvSleep 0) = EvLog ERROR FORBIDDEN_MSG.
Proof.
  intros (pre & ev & -> & F & C). split.
  - destruct (no_forbidden_app pre [ev; EvLog ERROR FORBIDDEN_MSG] F) as [-> _].
    simpl. now rewrite C.
  - change [ev; EvLog ERROR FORBIDDEN_MSG]
      with ([ev] ++ [EvLog ERROR FORBIDDEN_MSG])%list.
    rewrite app_assoc. apply last_last.
Qed.

Lemma ends_forbidden_app t u :
  Forall no_forbidden t -> ends_forbidden u -> ends_forbidden (t ++ u).
Proof.
  intros F (pre & ev & -> & G & C).
  exists (t ++ pre)%list, ev. split; [now rewrite app_assoc|].
  split; [now apply Forall_app | exact C].
Qed.

(** One iteration: either no request of it is [forbidden], or its
    request is, and then the iteration returns [None] right after
    reporting it. *)
Lemma attempt_body_forbidden env self_url max_retries delay attempt s r s' :
  CrawlerAgent.attempt_body self_url max_retries delay attempt env s = (r, s') ->
  exists t,
    trace s' = (trace s ++ t)%list
    /\ (Forall no_forbidden t \/ (r = Ok (Return None) /\ ends_forbidden t)).
Proof.
  assert (Hex : forall e, emits no_forbidden
                  (CrawlerAgent.attempt_except self_url delay attempt e))
    by (intros e; apply attempt_except_emits; reflexivity).
  unfold CrawlerAgent.attempt_body. intros E.
  destruct (sleepable_dec env delay) as [Hs|Hs].
  2:{ destruct (attempt_try_no_sleep env self_url max_retries delay attempt s Hs)
        as (e & Et & Ce).
      rewrite (try_except_err _ _ _ _ _ _ Et) in E.
      rewrite (attempt_except_unexpected _ _ _ _ _ _ Ce) in E.
      inversion E; subst; clear E. eexists. split.
      - unfold add_event. cbn [trace]. rewrite <- app_assoc. reflexivity.
      - left. repeat constructor. }
  pose proof (attempt_try_request env self_url max_retries delay attempt s Hs)
    as Et.
  set (s0 := at_response env self_url max_retries delay attempt s) in *.
  assert (T0 : trace s0 =
               (trace s ++ [EvLog INFO (CrawlerAgent.attempt_msg self_url
                                          max_retries attempt);
                            EvSleep delay;
                            EvGet self_url (user_agent s0) true
                                  (http env (gets s))])%list)
    by reflexivity.
  destruct (http env (gets s)) as [response|e] eqn:Hh.
  - destruct (Z.eqb_spec (status_code response) 403) as [H403|H403].
    + (* the request is forbidden *)
      assert (Ec : CrawlerAgent.check_status delay attempt response env s0 =
                   (Ok (Return None), add_event (EvLog ERROR FORBIDDEN_MSG) s0)).
      { unfold CrawlerAgent.check_status. now rewrite H403. }
      rewrite Ec in Et. rewrite (try_except_ok _ _ _ _ _ _ Et) in E.
      inversion E; subst r s'; clear E. eexists. split.
      * unfold add_event. cbn [trace]. rewrite T0, <- app_assoc. reflexivity.
      * right. split; [reflexivity|].
        exists [EvLog INFO (CrawlerAgent.attempt_msg self_url max_retries attempt);
                EvSleep delay],
               (EvGet self_url (user_agent s0) true (Responds response)).
        split; [reflexivity|]. split; [repeat constructor|].
        simpl. now apply Z.eqb_eq.
    + (* any other answer *)
      assert (F0 : Forall no_forbidden
                     [EvLog INFO (CrawlerAgent.attempt_msg self_url
                                    max_retries attempt);
                      EvSleep delay;
                      EvGet self_url (user_agent s0) true (Responds response)]).
      { repeat constructor. unfold no_forbidden. simpl. now apply Z.eqb_neq. }
      destruct (CrawlerAgent.check_status delay attempt response env s0)
        as [r1 s1] eqn:Ec.
      destruct (check_status_emits no_forbidden
                  (fun _ _ => eq_refl) (fun _ => eq_refl)
                  delay attempt response _ _ _ _ Ec) as (t1 & T1 & F1).
      destruct r1 as [a|e].
      * rewrite (try_except_ok _ _ _ _ _ _ Et) in E.
        inversion E; subst r s'; clear E. eexists. split.
        -- rewrite T1, T0, <- app_assoc. reflexivity.
        -- left. now apply Forall_app.
      * rewrite (try_except_err _ _ _ _ _ _ Et) in E.
        destruct (Hex e _ _ _ _ E) as (t2 & T2 & F2).
        eexists. split.
        -- rewrite T2, T1, T0, <- !app_assoc. reflexivity.
        -- left. repeat (apply Forall_app; split); assumption.
  - rewrite (try_except_err _ _ _ _ _ _ Et) in E.
    destruct (Hex e _ _ _ _ E) as (t2 & T2 & F2).
    eexists. split.
    + rewrite T2, T0, <- !app_assoc. reflexivity.
    + left. apply Forall_app. split; [repeat constructor | exact F2].
Qed.

Lemma fetch_loop_forbidden env self_url max_retries delay remaining :
  forall attempt s r s',
    CrawlerAgent.fetch_loop self_url max_retries delay remaining attempt env s
    = (r, s') ->
    exists t,
      trace s' = (trace s ++ t)%list
      /\ (Forall no_forbidden t \/ (r = Ok None /\ ends_forbidden t)).
Proof.
  induction remaining as [|n IH]; intros attempt s r s' E.
  - inversion E; subst. eexists. split; [reflexivity|].
    left. repeat constructor.
  - cbn [CrawlerAgent.fetch_loop] in E.
    destruct (bind_inv _ _ _ _ _ _ E) as [(a & s1 & E1 & E2) | (e & E1 & ->)];
      destruct (attempt_body_forbidden _ _ _ _ _ _ _ _ E1)
        as (t1 & T1 & [F1 | [R1 F1]]); try discriminate.
    + destruct a as [v|].
      * inversion E2; subst. exists t1. split; [exact T1 | now left].
      * destruct (IH _ _ _ _ E2) as (t2 & T2 & [F2 | [R2 F2]]).
        -- exists (t1 ++ t2)%list. split; [now rewrite T2, T1, app_assoc|].
           left. now apply Forall_app.
        -- exists (t1 ++ t2)%list. split; [now rewrite T2, T1, app_assoc|].
           right. split; [exact R2 | now apply ends_forbidden_app].
    + inversion R1; subst a. inversion E2; subst.
      exists t1. split; [exact T1|]. right. now split.
    + exists t1. split; [exact T1 | now left].
Qed.

(** ** Strings: [strip] and what [get_text(strip=True)] returns *)

Lemma append_nil_r (s : string) : s ++ "" = s.
Proof. induction s as [|c s IH]; simpl; congruence. Qed.

Lemma append_assoc (a b c : string) : (a ++ b) ++ c = a ++ b ++ c.
Proof. induction a as [|x a IH]; simpl; congruence. Qed.

Lemma rev_onto_app (s acc : string) : rev_onto s acc = rev s ++ acc.
Proof.
  unfold rev. revert acc.
  induction s as [|c s IH]; intros acc; simpl; [reflexivity|].
  rewrite (IH (String c acc)), (IH (String c "")), append_assoc.
  reflexivity.
Qed.

Lemma rev_cons (c : ascii) (s : string) : rev (String c s) = rev s ++ String c "".
Proof. unfold rev at 1. simpl. apply rev_onto_app. Qed.

Lemma rev_app (a b : string) : rev (a ++ b) = rev b ++ rev a.
Proof.
  induction a as [|c a IH]; simpl.
  - now rewrite append_nil_r.
  - now rewrite !rev_cons, IH, append_assoc.
Qed.

Lemma rev_involutive (s : string) : rev (rev s) = s.
Proof.
  induction s as [|c s IH]; [reflexivity|].
  rewrite rev_cons, rev_app, IH. reflexivity.
Qed.

Lemma rev_empty (s : string) : rev s = "" -> s = "".
Proof. intros H. rewrite <- (rev_involutive s), H. reflexivity. Qed.

Lemma lstrip_no_lead (s : string) : no_lead (lstrip_by is_space s).
Proof.
  induction s as [|c s IH]; simpl; [exact I|].
  destruct (is_space c) eqn:E; [exact IH | exact E].
Qed.

Lemma lstrip_id (s : string) : no_lead s -> lstrip_by is_space s = s.
Proof. destruct s as [|c s]; simpl; [reflexivity|]. now intros ->. Qed.

Lemma lstrip_suffix (p : ascii -> bool) (s : string) :
  exists sp, s = sp ++ lstrip_by p s.
Proof.
  induction s as [|c s (sp & IH)]; simpl; [now exists ""|].
  destruct (p c).
  - exists (String c sp). simpl. congruence.
  - now exists "".
Qed.

Lemma no_lead_app (a b : string) :
  a <> "" -> no_lead a -> no_lead (a ++ b).
Proof. destruct a; [congruence | trivial]. Qed.

(** A prefix of a string keeps its first character. *)
Lemma no_lead_prefix (a b : string) : no_lead (a ++ b) -> no_lead a.
Proof. destruct a; simpl; trivial. Qed.

Lemma tidy_strip (s : string) : tidy s -> strip s = s.
Proof.
  intros [H1 H2]. unfold strip, rstrip_by.
  now rewrite (lstrip_id _ H1), (lstrip_id _ H2), rev_involutive.
Qed.

Lemma strip_tidy (s : string) : tidy (strip s).
Proof.
  unfold strip, rstrip_by.
  set (a := lstrip_by is_space s).
  set (b := lstrip_by is_space (rev a)).
  split.
  - destruct (lstrip_suffix is_space (rev a)) as (sp & E). fold b in E.
    assert (Ea : a = rev b ++ rev sp)
      by (rewrite <- (rev_involutive a), E; apply rev_app).
    apply (no_lead_prefix _ (rev sp)). rewrite <- Ea.
    apply lstrip_no_lead.
  - rewrite rev_involutive. apply lstrip_no_lead.
Qed.

Lemma tidy_empty : tidy "".
Proof. now split. Qed.

Lemma tidy_app (a b : string) : tidy a -> tidy b -> tidy (a ++ b).
Proof.
  intros [A1 A2] [B1 B2].
  destruct a as [|c a]; [now split|].
  destruct b as [|d b]; [rewrite append_nil_r; now split|].
  split; [exact A1|].
  rewrite rev_app. apply no_lead_app; [|exact B2].
  intros E. now apply rev_empty in E.
Qed.

Lemma tidy_join (l : list string) : Forall tidy l -> tidy (join "" l).
Proof.
  induction 1 as [|x l Hx Hl IH]; [exact tidy_empty|].
  unfold join in *. simpl. destruct l as [|y l]; [exact Hx|].
  now apply tidy_app.
Qed.

Lemma stripped_strings_tidy (n : Bs4.node) :
  Forall tidy (Bs4.stripped_strings n).
Proof.
  unfold Bs4.stripped_strings.
  induction (Bs4.descendants n) as [|d l IH]; simpl; [constructor|].
  apply Forall_app. split; [|exact IH].
  destruct d as [s | s | nm attrs cs]; [|constructor|constructor].
  destruct (truthy (strip s)); [|constructor].
  constructor; [apply strip_tidy | constructor].
Qed.

(** The text of an element comes out trimmed. *)
Lemma get_text_strip_trimmed (n : Bs4.node) : trimmed (Bs4.get_text_strip n).
Proof. apply tidy_strip, tidy_join, stripped_strings_tidy. Qed.

(** ** The extractors *)

Lemma filter_elem_long_text self_url elem e :
  ParserAgent.filter_elem self_url elem = Ok (Some e) -> long_text e.
Proof.
  unfold ParserAgent.filter_elem.
  destruct (String.eqb (Bs4.name elem) "a").
  - destruct (Bs4.get "href" elem) as [href|]; [|discriminate].
    destruct (truthy href); [|discriminate].
    destruct (Urllib.urljoin self_url href); [|discriminate].
    intros H; inversion H; exact I.
  - destruct (Nat.ltb_spec 20 (String.length (Bs4.get_text_strip elem)));
      [|discriminate].
    intros E; inversion E; subst. simpl.
    now rewrite (get_text_strip_trimmed elem).
Qed.

Lemma filter_elem_absolute self_url elem e :
  has_web_prefix self_url = true ->
  ParserAgent.filter_elem self_url elem = Ok (Some e) -> absolute_link e.
Proof.
  intros Hw. unfold ParserAgent.filter_elem.
  destruct (String.eqb (Bs4.name elem) "a").
  - destruct (Bs4.get "href" elem) as [href|]; [|discriminate].
    destruct (truthy href); [|discriminate].
    destruct (Urllib.urljoin self_url href) as [full_url|] eqn:E;
      [|discriminate].
    intros H; inversion H; subst. simpl.
    exact (urljoin_absolute _ _ _ Hw E).
  - destruct (_ <? _)%nat; [|discriminate].
    intros H; inversion H; exact I.
Qed.

(** What holds of each appended entry holds of the list the loop builds. *)
Lemma filter_content_all (Q : entry -> Prop) self_url :
  (forall elem e, ParserAgent.filter_elem self_url elem = Ok (Some e) -> Q e) ->
  forall content parsed_data,
    ParserAgent.filter_content self_url content = Ok parsed_data ->
    Forall Q parsed_data.
Proof.
  intros HQ. induction content as [|elem rest IH]; intros parsed_data; simpl.
  - intros H; inversion H. constructor.
  - destruct (ParserAgent.filter_elem self_url elem) as [o|] eqn:E;
      [|discriminate].
    destruct (ParserAgent.filter_content self_url rest) as [parsed|];
      [|discriminate].
    intros H; inversion H; subst; clear H.
    destruct o as [e|]; [|now apply IH].
    constructor; [exact (HQ _ _ E) | now apply IH].
Qed.

(** A step whose value the property does not depend on. *)
Ltac post_skip :=
  apply (post_bind _ _ (fun _ => True)); [apply post_trivial | intros ? _].

Tactic Notation "post_skip" "as" ident(x) :=
  apply (post_bind _ _ (fun _ => True)); [apply post_trivial | intros x _].

Section ParsePost.
Context (Q : entry -> Prop) (self_url : string).
Hypothesis filter_Q :
  forall content parsed_data,
    ParserAgent.filter_content self_url content = Ok parsed_data ->
    Forall Q parsed_data.

Lemma parse_with_selenium_post :
  post (ParserAgent.parse_with_selenium self_url)
       (fun r => Forall Q (fst r)
                 /\ (fst r <> [] -> snd r = "Parsed with Selenium")).
Proof.
  unfold ParserAgent.parse_with_selenium, ParserAgent.drive.
  do 2 post_skip. apply post_try_finally, post_try_except.
  - do 5 post_skip.
    eapply post_bind; [apply post_lift|]. intros parsed_data E.
    apply post_ret. cbn [fst snd]. split; [exact (filter_Q _ _ E) | reflexivity].
  - intros e. post_skip. apply post_ret. cbn [fst snd]. split; [constructor | congruence].
Qed.

Lemma parse_post (html_content : string) :
  post (ParserAgent.parse html_content self_url)
       (fun r => Forall Q (fst r) /\ (fst r <> [] -> strategy_label (snd r))).
Proof.
  unfold ParserAgent.parse. destruct (negb (truthy html_content)).
  - post_skip. apply post_ret. cbn [fst snd]. split; [constructor | congruence].
  - apply post_try_except.
    + post_skip. eapply post_bind; [apply post_lift|]. intros parsed_data E.
      destruct parsed_data as [|x parsed].
      * post_skip. eapply post_weaken; [|apply parse_with_selenium_post].
        intros r [H1 H2]. split; [exact H1|].
        intros H. right. now apply H2.
      * apply post_ret. cbn [fst snd]. split; [exact (filter_Q _ _ E)|]. now left.
    + intros e. post_skip. apply post_ret. cbn [fst snd]. split; [constructor | congruence].
Qed.

Lemma process_url_post :
  post (process_url self_url)
       (fun r => well_formed_result r /\ all_entries Q r).
Proof.
  unfold process_url. post_skip as crawler_url. post_skip as html_content.
  destruct html_content as [html|].
  2:{ apply post_ret. split; [now right | exact I]. }
  destruct (truthy html).
  2:{ apply post_ret. split; [now right | exact I]. }
  eapply post_bind; [apply parse_post|].
  intros [parsed_data method] [H1 H2]. simpl in H1, H2.
  destruct parsed_data as [|x parsed]; apply post_ret.
  - split; [now left | exact I].
  - split; [|exact H1]. split; [congruence | apply H2; congruence].
Qed.

End ParsePost.

Lemma parse_with_selenium_not_get self_url :
  emits not_get (ParserAgent.parse_with_selenium self_url).
Proof.
  unfold ParserAgent.parse_with_selenium, ParserAgent.drive.
  repeat emits_step; reflexivity.
Qed.

Lemma parse_not_get html_content self_url :
  emits not_get (ParserAgent.parse html_content self_url).
Proof.
  unfold ParserAgent.parse.
  repeat emits_step; try reflexivity; apply parse_with_selenium_not_get.
Qed.

Lemma parse_returns env html_content self_url :
  returns_in env (ParserAgent.parse html_content self_url).
Proof. unfold ParserAgent.parse. repeat returns_step. Qed.

(** ** The rendered extractor is started once *)

Lemma rendered_invocations_app t u :
  rendered_invocations (t ++ u)
  = (rendered_invocations t + rendered_invocations u)%nat.
Proof. unfold rendered_invocations. now rewrite filter_app, length_app. Qed.

Lemma rendered_invocations_clean t :
  Forall not_chrome t -> rendered_invocations t = 0%nat.
Proof.
  unfold rendered_invocations.
  induction 1 as [|ev t H _ IH]; [reflexivity|].
  simpl. unfold not_chrome in H. now rewrite H.
Qed.

Lemma parse_with_selenium_once env self_url s r s' :
  ParserAgent.parse_with_selenium self_url env s = (r, s') ->
  rendered_invocations (trace s') = S (rendered_invocations (trace s)).
Proof.
  unfold ParserAgent.parse_with_selenium. intros E.
  rewrite (bind_ok _ _ _ _ _ _ eq_refl) in E.
  set (ua := nth _ USER_AGENTS "") in E.
  set (s1 := mkState _ _ _ _) in E.
  assert (T1 : forall s2 r2, browser_call (EvChrome ua) chrome env s1 = (r2, s2)
                             -> trace s2 = (trace s ++ [EvChrome ua])%list).
  { intros s2 r2 H. inversion H; reflexivity. }
  destruct (bind_inv _ _ _ _ _ _ E) as [(a & s2 & E1 & E2) | (e & E1 & _)].
  - assert (Hc : emits not_chrome (ParserAgent.drive self_url))
      by (unfold ParserAgent.drive; repeat emits_step; reflexivity).
    destruct (Hc _ _ _ _ E2) as (t & T & F).
    rewrite T, (T1 _ _ E1), !rendered_invocations_app.
    rewrite (rendered_invocations_clean _ F).
    change (rendered_invocations [EvChrome ua]) with 1%nat. lia.
  - rewrite (T1 _ _ E1), rendered_invocations_app.
    change (rendered_invocations [EvChrome ua]) with 1%nat. lia.
Qed.

(** ** The pipeline, case by case *)

Lemma init_spec env url s :
  CrawlerAgent.__init__ url env s =
    match CrawlerAgent._normalize_url url with
    | Ok self_url => (Ok self_url, after_init env s)
    | Err e => (Err e, s)
    end.
Proof.
  unfold CrawlerAgent.__init__, bind, lift.
  destruct (CrawlerAgent._normalize_url url); reflexivity.
Qed.

Lemma process_url_cases env url s :
  process_url url env s =
    match CrawlerAgent._normalize_url url with
    | Err e => (Err e, s)
    | Ok self_url =>
        match CrawlerAgent.fetch_content self_url DEFAULT_MAX_RETRIES
                DEFAULT_DELAY env (after_init env s) with
        | (Ok (Some html), s1) =>
            if truthy html
            then outcome_of_parse (ParserAgent.parse html url env s1)
            else (Ok (None, "Failed to fetch content"), s1)
        | (Ok None, s1) => (Ok (None, "Failed to fetch content"), s1)
        | (Err e, s1) => (Err e, s1)
        end
    end.
Proof.
  unfold process_url. unfold bind at 1. rewrite init_spec.
  destruct (CrawlerAgent._normalize_url url) as [self_url|e]; [|reflexivity].
  unfold bind at 1.
  destruct (CrawlerAgent.fetch_content _ _ _ _ _) as [[[html|]|e] s1];
    try reflexivity.
  destruct (truthy html); [|reflexivity].
  unfold bind, outcome_of_parse.
  destruct (ParserAgent.parse html url env s1) as [[[[|x parsed] method]|e] s2];
    reflexivity.
Qed.

Lemma parse_cases env html url s :
  truthy html = true ->
  ParserAgent.parse html url env s =
    match static_pass env html url with
    | Ok (x :: parsed) => (Ok (x :: parsed, "Parsed with BeautifulSoup"), s)
    | Ok [] =>
        match ParserAgent.parse_with_selenium url env
                (add_event
                   (EvLog INFO
                      "No content found with BeautifulSoup, trying Selenium") s)
        with
        | (Ok r, s2) => (Ok r, s2)
        | (Err e, s2) =>
            (Ok ([], "Parsing error: " ++ exn_str e),
             add_event (EvLog ERROR ("Parsing error: " ++ exn_str e)) s2)
        end
    | Err e =>
        (Ok ([], "Parsing error: " ++ exn_str e),
         add_event (EvLog ERROR ("Parsing error: " ++ exn_str e)) s)
    end.
Proof.
  intros H. unfold ParserAgent.parse, static_pass. rewrite H. cbn [negb].
  unfold try_except, bind at 1, BeautifulSoup.
  destruct (html_parser env html) as [soup|e]; [|reflexivity].
  unfold bind at 1, lift.
  destruct (ParserAgent.filter_content url (ParserAgent.candidates soup))
    as [[|x parsed]|e]; reflexivity.
Qed.

(** Constructing the crawler and fetching start no browser. *)
Lemma fetch_no_browser env self_url s r s1 :
  CrawlerAgent.fetch_content self_url DEFAULT_MAX_RETRIES DEFAULT_DELAY env
                             (after_init env s) = (r, s1) ->
  rendered_invocations (trace s1) = rendered_invocations (trace s).
Proof.
  intros E.
  destruct (fetch_content_emits not_chrome self_url
              (fun _ _ => eq_refl) (fun _ => eq_refl)
              (fun _ _ _ => eq_refl) _ _ _ _ _ _ E) as (t & T & F).
  rewrite T, rendered_invocations_app, (rendered_invocations_clean _ F).
  simpl. lia.
Qed.

(* ===================================================================== *)
(** * The claims *)

Import Examples.

(** ** C1: resolved links *)

(** Helper: when the input itself carries [http://] or [https://], every
    link of a result is absolute. *)
Lemma links_absolute_on_web_input env url :
  has_web_prefix url = true ->
  match fst (run env url) with
  | Ok r => all_entries absolute_link r
  | Err _ => True
  end.
Proof.
  intros Hw. unfold run.
  destruct (process_url url env initial) as [[r|e] s] eqn:E; [|exact I].
  refine (proj2 (process_url_post absolute_link url _ _ _ _ _ E)).
  apply filter_content_all. intros elem e. now apply filter_elem_absolute.
Qed.

(** Helper: so is every link resolved against the URL the crawler
    normalised. *)
Lemma links_absolute_against_normalized_url url self_url content parsed_data :
  CrawlerAgent._normalize_url url = Ok self_url ->
  ParserAgent.filter_content self_url content = Ok parsed_data ->
  Forall absolute_link parsed_data.
Proof.
  intros Hn. apply filter_content_all. intros elem e.
  apply filter_elem_absolute. exact (normalize_web_prefix _ _ Hn).
Qed.

(** C1.  The input ["example.com/x"] is fetched from
    ["https://example.com/x"], but the link [href="/about"] of the page
    comes out as ["/about"], which is not absolute: the parser resolves
    against the input as typed, not against the normalised URL.  Typed
    with its scheme, the same input gives the absolute link. *)
Theorem relative_link_on_schemeless_input :
  let w := world [responds 200 [] "<about>"] (browser_showing "") in
  CrawlerAgent._normalize_url "example.com/x" = Ok "https://example.com/x"
  /\ Forall (get_to "https://example.com/x")
            (trace (snd (run w "example.com/x")))
  /\ fst (run w "example.com/x")
     = Ok (Some [Link "About" "/about"], "Parsed with BeautifulSoup")
  /\ map entry_str [Link "About" "/about"] = ["Link: About - /about"]
  /\ is_absolute "/about" = false
  /\ fst (run w "https://example.com/x")
     = Ok (Some [Link "About" "https://example.com/about"],
           "Parsed with BeautifulSoup").
Proof.
  cbv zeta. split; [reflexivity|]. split.
  - vm_compute. repeat constructor.
  - repeat split; vm_compute; reflexivity.
Qed.

(** ** C6: text entries *)

(** C6.  Every text entry the static extractor returns, every text
    entry the rendered extractor returns, and so every text entry of a
    result of [process_url], is longer than 20 characters once trimmed. *)
Theorem text_entries_are_long env url html s :
  match fst (ParserAgent.parse html url env s) with
  | Ok (parsed_data, _) => Forall long_text parsed_data
  | Err _ => True
  end
  /\ match fst (ParserAgent.parse_with_selenium url env s) with
     | Ok (parsed_data, _) => Forall long_text parsed_data
     | Err _ => True
     end
  /\ match fst (run env url) with
     | Ok r => all_entries long_text r
     | Err _ => True
     end.
Proof.
  assert (HQ : forall content parsed_data,
             ParserAgent.filter_content url content = Ok parsed_data ->
             Forall long_text parsed_data).
  { apply filter_content_all. intros elem e. apply filter_elem_long_text. }
  split; [|split].
  - destruct (ParserAgent.parse html url env s) as [[[parsed_data m]|e] s'] eqn:E;
      [|exact I].
    exact (proj1 (parse_post long_text url HQ html _ _ _ _ E)).
  - destruct (ParserAgent.parse_with_selenium url env s)
      as [[[parsed_data m]|e] s'] eqn:E; [|exact I].
    exact (proj1 (parse_with_selenium_post long_text url HQ _ _ _ _ E)).
  - unfold run.
    destruct (process_url url env initial) as [[r|e] s'] eqn:E; [|exact I].
    exact (proj2 (process_url_post long_text url HQ _ _ _ _ E)).
Qed.

(** ** C7: the whole-document pass *)

Lemma hd_error_filter {A} (f : A -> bool) (l : list A) (d : A) :
  List.hd_error (filter f l) = Some d
  <-> exists pre post,
        l = (pre ++ d :: post)%list /\ f d = true
        /\ Forall (fun x => f x = false) pre.
Proof.
  induction l as [|a l IH]; simpl.
  - split; [discriminate|]. intros (pre & post & E & _). now destruct pre.
  - destruct (f a) eqn:Fa; simpl.
    + split.
      * intros H; inversion H; subst. exists [], l. repeat split; auto.
      * intros (pre & post & E & Fd & Fp). destruct pre as [|x pre].
        -- simpl in E. now inversion E.
        -- simpl in E. inversion E; subst. inversion Fp; congruence.
    + rewrite IH. split.
      * intros (pre & post & E & Fd & Fp). exists (a :: pre), post.
        subst. repeat split; auto.
      * intros (pre & post & E & Fd & Fp). destruct pre as [|x pre].
        -- simpl in E. inversion E; subst. congruence.
        -- simpl in E. inversion E; subst. inversion Fp; subst.
           now exists pre, post.
Qed.

Lemma find_first_named nm soup d :
  Bs4.find nm soup = Some d <-> first_named nm soup d.
Proof. unfold Bs4.find, Bs4.find_all, first_named. apply hd_error_filter. Qed.

Lemma in_find_all names d elem :
  In elem (Bs4.find_all names d)
  <-> In elem (Bs4.descendants d) /\ Bs4.named names elem = true.
Proof. unfold Bs4.find_all. apply filter_In. Qed.

(** The candidates of the three passes are the paragraphs, headings and
    links inside a container. *)
Lemma tiered_candidates_spec soup elem :
  In elem (ParserAgent.tiered_candidates soup)
  <-> container_candidate soup elem.
Proof.
  unfold ParserAgent.tiered_candidates, container_candidate, is_container.
  cbv zeta. cbn [app]. split.
  - intros H. apply in_app_or in H. destruct H as [H|H].
    + destruct (Bs4.find "article" soup) as [article|] eqn:Ea;
        destruct (Bs4.find "main" soup) as [main|] eqn:Em.
      * apply in_app_or in H. destruct H as [H|H];
          apply in_find_all in H; destruct H as [H1 H2].
        -- exists article. split; [left; now apply find_first_named | auto].
        -- exists main.
           split; [right; left; now apply find_first_named | auto].
      * apply in_find_all in H. destruct H as [H1 H2].
        exists article. split; [left; now apply find_first_named | auto].
      * apply in_find_all in H. destruct H as [H1 H2].
        exists main. split; [right; left; now apply find_first_named | auto].
      * destruct H.
    + apply in_flat_map in H. destruct H as (d & Hd & H).
      unfold Bs4.find_all_class in Hd. apply filter_In in Hd.
      destruct Hd as [Hd Hc]. apply andb_true_iff in Hc.
      apply in_find_all in H. destruct H as [H1 H2].
      exists d. split; [right; right; tauto | auto].
  - intros (d & Hc & H1 & H2).
    assert (H : In elem (Bs4.find_all ParserAgent.CONTENT_TAGS d))
      by (apply in_find_all; auto).
    apply in_or_app. destruct Hc as [Hc | [Hc | (Hd & Hn & Hk)]].
    + left. apply find_first_named in Hc. rewrite Hc.
      destruct (Bs4.find "main" soup); [apply in_or_app; now left | exact H].
    + left. apply find_first_named in Hc. rewrite Hc.
      destruct (Bs4.find "article" soup); [apply in_or_app; now right|exact H].
    + right. apply in_flat_map. exists d. split; [|exact H].
      unfold Bs4.find_all_class. apply filter_In. split; [exact Hd|].
      now rewrite Hn, Hk.
Qed.

Lemma parse_after_static_pass env html url soup s :
  truthy html = true ->
  html_parser env html = Ok soup ->
  ParserAgent.parse html url env s
  = after_static_pass env url s
      (ParserAgent.filter_content url (ParserAgent.candidates soup)).
Proof.
  intros Ht Hp. rewrite (parse_cases _ _ _ _ Ht). unfold static_pass.
  rewrite Hp. reflexivity.
Qed.

(** C7.  On every document [parse] filters the candidates of one
    selection only.  When no container (the first article, the first
    main area, a [div] with a content class) holds a paragraph, heading
    or link, it filters those of the whole document, and what is kept is
    returned under the label of the static strategy.  When some
    container holds one, it filters the candidates inside the containers
    and no other element: the whole-document pass does not run, and if
    the filter keeps nothing the rendered extractor is invoked. *)
Theorem whole_document_pass_without_tiered_candidates env html url soup s :
  truthy html = true ->
  html_parser env html = Ok soup ->
  ((forall elem, ~ container_candidate soup elem) ->
   ParserAgent.parse html url env s
   = after_static_pass env url s
       (ParserAgent.filter_content url
          (Bs4.find_all ParserAgent.CONTENT_TAGS soup)))
  /\ (forall elem0,
        container_candidate soup elem0 ->
        exists content,
          (forall elem, In elem content <-> container_candidate soup elem)
          /\ ParserAgent.parse html url env s
             = after_static_pass env url s
                 (ParserAgent.filter_content url content)).
Proof.
  intros Ht Hp. rewrite (parse_after_static_pass _ _ _ _ _ Ht Hp).
  unfold ParserAgent.candidates. split.
  - intros Hn.
    destruct (ParserAgent.tiered_candidates soup) as [|x content] eqn:E;
      [reflexivity|].
    exfalso. apply (Hn x). apply tiered_candidates_spec. rewrite E. now left.
  - intros elem0 H0. apply tiered_candidates_spec in H0.
    exists (ParserAgent.tiered_candidates soup).
    split; [intros elem; apply tiered_candidates_spec|].
    destruct (ParserAgent.tiered_candidates soup); [destruct H0 | reflexivity].
Qed.

(** On a page without containers the whole document is filtered; on a
    page whose content [div] holds a short paragraph only, the long
    paragraph outside of it is not looked at: nothing is kept, and the
    rendered extractor is tried. *)
Lemma whole_document_pass_witness :
  (ParserAgent.parse "<plain>" "https://example.com/a/"
     (world [] browser_offline) initial
   = after_static_pass (world [] browser_offline) "https://example.com/a/"
       initial
       (ParserAgent.filter_content "https://example.com/a/"
          (Bs4.find_all ParserAgent.CONTENT_TAGS plain_page)))
  /\ (exists content,
        (forall elem,
           In elem content <-> container_candidate content_div_page elem)
        /\ ParserAgent.parse "<content-div>" "https://example.com/a/"
             (world [] browser_offline) initial
           = after_static_pass (world [] browser_offline)
               "https://example.com/a/" initial
               (ParserAgent.filter_content "https://example.com/a/" content))
  /\ fst (ParserAgent.parse "<content-div>" "https://example.com/a/"
            (world [] browser_offline) initial)
     = Ok ([], "Selenium parsing error: net::ERR_NAME_NOT_RESOLVED")
  /\ ParserAgent.filter_content "https://example.com/a/"
       (Bs4.find_all ParserAgent.CONTENT_TAGS content_div_page)
     = Ok [Text "A paragraph well over twenty characters long."].
Proof.
  split; [|split; [|split; reflexivity]].
  - apply (proj1 (whole_document_pass_without_tiered_candidates
                    (world [] browser_offline) "<plain>"
                    "https://example.com/a/" plain_page initial
                    eq_refl eq_refl)).
    intros elem H. apply tiered_candidates_spec in H. exact H.
  - apply (proj2 (whole_document_pass_without_tiered_candidates
                    (world [] browser_offline) "<content-div>"
                    "https://example.com/a/" content_div_page initial
                    eq_refl eq_refl)
                 (Bs4.Tag "p" [] [Bs4.NavigableString "Short"])).
    apply tiered_candidates_spec. left. reflexivity.
Defined.

(** ** C2: the render fallback *)

Lemma snd_outcome_of_parse r : snd (outcome_of_parse r) = snd r.
Proof. destruct r as [[[[|x parsed] method]|e] s]; reflexivity. Qed.

(** C2 (as amended).  On a fetched document: when the static pass ends
    with an empty list, the rendered extractor is invoked exactly once,
    and a non-empty list it returns is the final result under its label,
    while an empty or failed rendering gives no entries and the reason
    "No content could be parsed from the page"; when the static pass
    raises, the rendered extractor is not invoked and the result is that
    same reason. *)
Theorem render_fallback_once env url self_url html s1 :
  CrawlerAgent._normalize_url url = Ok self_url ->
  CrawlerAgent.fetch_content self_url DEFAULT_MAX_RETRIES DEFAULT_DELAY env
                             (after_init env initial) = (Ok (Some html), s1) ->
  truthy html = true ->
  match static_pass env html url with
  | Ok [] =>
      rendered_invocations (trace (snd (run env url))) = 1%nat
      /\ fst (run env url)
         = Ok (final_of_rendered
                 (fst (ParserAgent.parse_with_selenium url env
                         (add_event
                            (EvLog INFO
                               "No content found with BeautifulSoup, trying Selenium")
                            s1))))
  | Ok (x :: parsed) =>
      rendered_invocations (trace (snd (run env url))) = 0%nat
      /\ fst (run env url)
         = Ok (Some (x :: parsed), "Parsed with BeautifulSoup")
  | Err _ =>
      rendered_invocations (trace (snd (run env url))) = 0%nat
      /\ fst (run env url)
         = Ok (None, "No content could be parsed from the page")
  end.
Proof.
  intros Hn Hf Ht. unfold run.
  rewrite process_url_cases, Hn, Hf, Ht, (parse_cases _ _ _ _ Ht).
  pose proof (fetch_no_browser _ _ _ _ _ Hf) as N1.
  change (rendered_invocations (trace initial)) with 0%nat in N1.
  destruct (static_pass env html url) as [[|x parsed]|e].
  - set (s2 := add_event _ s1).
    assert (N2 : rendered_invocations (trace s2) = 0%nat).
    { subst s2. unfold add_event. cbn [trace].
      rewrite rendered_invocations_app, N1. reflexivity. }
    destruct (ParserAgent.parse_with_selenium url env s2) as [[r|e] s3] eqn:E;
      pose proof (parse_with_selenium_once _ _ _ _ _ E) as N3;
      rewrite N2 in N3.
    + rewrite snd_outcome_of_parse. cbn [fst snd]. split; [exact N3|].
      destruct r as [[|y rendered] method]; reflexivity.
    + cbn [outcome_of_parse fst snd final_of_rendered].
      split; [|reflexivity].
      unfold add_event. cbn [trace].
      rewrite rendered_invocations_app, N3. reflexivity.
  - cbn [outcome_of_parse fst snd]. now split.
  - cbn [outcome_of_parse fst snd]. split; [|reflexivity].
    unfold add_event. cbn [trace].
    rewrite rendered_invocations_app, N1. reflexivity.
Qed.

(** An empty static pass with a browser that renders the page: the
    rendered entries are the result. *)
Lemma render_fallback_witness :
  rendered_invocations
    (trace (snd (run (world [responds 200 [] "<nothing>"]
                            (browser_showing "<plain>"))
                     "https://example.com/a/"))) = 1%nat
  /\ fst (run (world [responds 200 [] "<nothing>"] (browser_showing "<plain>"))
              "https://example.com/a/")
     = Ok (Some [Text "A paragraph well over twenty characters long.";
                 Link "Next" "https://example.com/a/b.html"],
           "Parsed with Selenium").
Proof.
  exact (render_fallback_once
           (world [responds 200 [] "<nothing>"] (browser_showing "<plain>"))
           "https://example.com/a/" "https://example.com/a/" "<nothing>" _
           eq_refl eq_refl eq_refl).
Defined.

(** C2 as stated fails on two counts.  A rendering that fails with its
    own reason is not the final result: the reason is replaced.  And a
    document the parser refuses never reaches the browser, although this
    one would have shown the page. *)
Lemma rendered_failure_is_replaced :
  (let w := world [responds 200 [] "<nothing>"] browser_offline in
   let url := "https://example.com/x" in
   let s1 := snd (CrawlerAgent.fetch_content url DEFAULT_MAX_RETRIES
                    DEFAULT_DELAY w (after_init w initial)) in
   static_pass w "<nothing>" url = Ok []
   /\ fst (ParserAgent.parse_with_selenium url w
             (add_event
                (EvLog INFO
                   "No content found with BeautifulSoup, trying Selenium") s1))
      = Ok ([], "Selenium parsing error: net::ERR_NAME_NOT_RESOLVED")
   /\ fst (run w url) = Ok (None, "No content could be parsed from the page"))
  /\ (let w := world [responds 200 [] "<malformed>"] (browser_showing "<plain>") in
      let url := "https://example.com/x" in
      static_pass w "<malformed>" url
      = Err (Exn OtherException "markup rejected")
      /\ rendered_invocations (trace (snd (run w url))) = 0%nat
      /\ fst (run w url)
         = Ok (None, "No content could be parsed from the page")).
Proof. cbv zeta. repeat split; vm_compute; reflexivity. Qed.

(** ** C3: access forbidden *)

Lemma trace_after_init env s : trace (after_init env s) = trace s.
Proof. reflexivity. Qed.

(** The whole run: no request of it is [forbidden], or the fetch ended on
    the first such request and nothing came after its report. *)
Lemma run_forbidden env url r s :
  run env url = (r, s) ->
  Forall no_forbidden (trace s)
  \/ (r = Ok (None, "Failed to fetch content") /\ ends_forbidden (trace s)).
Proof.
  unfold run. rewrite process_url_cases.
  destruct (CrawlerAgent._normalize_url url) as [self_url|e].
  2:{ intros E; inversion E; subst. left. constructor. }
  destruct (CrawlerAgent.fetch_content _ _ _ _ _) as [r1 s1] eqn:Ef.
  unfold CrawlerAgent.fetch_content in Ef.
  destruct (fetch_loop_forbidden _ _ _ _ _ _ _ _ _ Ef)
    as (t & T & [F | [R F]]); rewrite trace_after_init in T; simpl in T.
  - destruct r1 as [[html|]|e];
      [destruct (truthy html) | |];
      try (intros E; inversion E; subst r s; left; now rewrite T).
    destruct (ParserAgent.parse html url env s1) as [r2 s2] eqn:Ep.
    destruct (parse_not_get _ _ _ _ _ _ Ep) as (t2 & T2 & F2).
    intros E. apply (f_equal snd) in E.
    rewrite snd_outcome_of_parse in E. simpl in E. subst s.
    left. rewrite T2, T. apply Forall_app. split; [exact F|].
    eapply Forall_impl; [|exact F2]. apply not_get_no_forbidden.
  - subst r1. intros E; inversion E; subst r s. right. rewrite T. now split.
Qed.

(** C3 (as amended).  In every run no request follows an attempt's
    request that was answered 403, and such a run ends with the report
    "Access forbidden ..." in the log and the result: no entries, reason
    "Failed to fetch content". *)
Theorem forbidden_ends_the_run env url :
  no_get_after_forbidden (trace (snd (run env url))) = true
  /\ (existsb forbidden (trace (snd (run env url))) = true ->
      fst (run env url) = Ok (None, "Failed to fetch content")
      /\ List.last (trace (snd (run env url))) (EvSleep 0)
         = EvLog ERROR FORBIDDEN_MSG).
Proof.
  destruct (run env url) as [r s] eqn:E. cbn [fst snd].
  destruct (run_forbidden _ _ _ _ E) as [F | [R F]].
  - destruct (no_forbidden_clean _ F) as [-> ->]. split; [reflexivity|].
    discriminate.
  - destruct (ends_forbidden_spec _ F) as [-> L]. split; [reflexivity|].
    intros _. now split.
Qed.

(** A run answered 403 at once. *)
Lemma forbidden_ends_the_run_witness :
  let w := world [responds 403 [] ""; responds 200 [] "<plain>"]
                 (browser_showing "") in
  existsb forbidden (trace (snd (run w "https://example.com/x"))) = true
  /\ requests (trace (snd (run w "https://example.com/x"))) = 1%nat
  /\ fst (run w "https://example.com/x") = Ok (None, "Failed to fetch content")
  /\ List.last (trace (snd (run w "https://example.com/x"))) (EvSleep 0)
     = EvLog ERROR FORBIDDEN_MSG.
Proof.
  cbv zeta. split; [reflexivity|]. split; [reflexivity|].
  exact (proj2 (forbidden_ends_the_run
                  (world [responds 403 [] ""; responds 200 [] "<plain>"]
                         (browser_showing ""))
                  "https://example.com/x") eq_refl).
Defined.

(** C3 as stated fails: the reason returned after a 403 is the generic
    one, the "Access forbidden" message only goes to the log; and a 403
    that answers the retry without certificate verification does not end
    the fetch. *)
Lemma forbidden_reason_is_generic :
  (let w := world [responds 403 [] ""] (browser_showing "") in
   fst (run w "https://example.com/x") = Ok (None, "Failed to fetch content")
   /\ In (EvLog ERROR FORBIDDEN_MSG)
         (trace (snd (run w "https://example.com/x")))
   /\ "Failed to fetch content" <> FORBIDDEN_MSG)
  /\ (let w := world [bad_certificate; responds 403 [] "";
                      responds 200 [] "<plain>"] (browser_showing "") in
      requests (trace (snd (run w "https://example.com/a/"))) = 3%nat
      /\ fst (run w "https://example.com/a/")
         = Ok (Some [Text "A paragraph well over twenty characters long.";
                     Link "Next" "https://example.com/a/b.html"],
               "Parsed with BeautifulSoup")).
Proof.
  cbv zeta. repeat split; try (vm_compute; reflexivity).
  - vm_compute. auto 10.
  - discriminate.
Qed.

(** ** C4: retries exhausted *)

(** C4 (as amended).  When the three requests of a run all fail on
    network-level errors, the result is: no entries, reason "Failed to
    fetch content"; the count of attempts goes to the log. *)
Theorem network_failures_give_fetch_failure env url self_url :
  CrawlerAgent._normalize_url url = Ok self_url ->
  sleepable env 6 ->
  (forall k, (k < 3)%nat ->
             exists e, http env k = GetRaises e /\ network_error e = true) ->
  exists s,
    run env url = (Ok (None, "Failed to fetch content"), s)
    /\ gets s = 3%nat
    /\ List.last (trace s) (EvSleep 0)
       = EvLog ERROR "Failed to fetch content after 3 attempts".
Proof.
  intros Hn [_ Hs] Hk.
  destruct (fetch_loop_exhausted env self_url DEFAULT_MAX_RETRIES DEFAULT_DELAY
              ltac:(unfold DEFAULT_DELAY; lia) DEFAULT_MAX_RETRIES 0%nat
              (after_init env initial)) as (s & E & G & L).
  - unfold DEFAULT_DELAY, DEFAULT_MAX_RETRIES. simpl. lia.
  - exact Hk.
  - exists s. split; [|split; [exact G | exact L]].
    unfold run. rewrite process_url_cases, Hn.
    unfold CrawlerAgent.fetch_content. now rewrite E.
Qed.

Lemma network_failures_witness :
  exists s,
    run (world [] browser_offline) "example.com"
    = (Ok (None, "Failed to fetch content"), s)
    /\ gets s = 3%nat
    /\ List.last (trace s) (EvSleep 0)
       = EvLog ERROR "Failed to fetch content after 3 attempts".
Proof.
  apply (network_failures_give_fetch_failure
           (world [] browser_offline) "example.com" "https://example.com").
  - reflexivity.
  - unfold sleepable. simpl. lia.
  - intros k _. exists (Exn RequestException "Read timed out.").
    split; [destruct k; reflexivity | reflexivity].
Defined.

(** C4 as stated fails: after three time-outs the reason returned is
    not the message that counts the attempts. *)
Lemma exhausted_reason_is_generic :
  let w := world [timed_out; timed_out; timed_out] browser_offline in
  fst (run w "https://example.com/x") = Ok (None, "Failed to fetch content")
  /\ requests (trace (snd (run w "https://example.com/x"))) = 3%nat
  /\ "Failed to fetch content" <> "Failed to fetch content after 3 attempts".
Proof.
  cbv zeta. split; [vm_compute; reflexivity|].
  split; [vm_compute; reflexivity | discriminate].
Qed.

(** ** C5 and C10: rate limiting *)

Lemma rate_limited_witness :
  PyInt.int "7" = Ok 7%Z
  /\ exists s1 ua attempt_log wait_log,
      CrawlerAgent.fetch_loop "https://example.com/x" 3 2 3 0
        (world [Responds (rate_limited_with "7")] browser_offline) initial
      = CrawlerAgent.fetch_loop "https://example.com/x" 3 2 2 1
          (world [Responds (rate_limited_with "7")] browser_offline) s1
      /\ gets s1 = 1%nat
      /\ trace s1 = [EvLog INFO attempt_log;
                     EvSleep 2;
                     EvGet "https://example.com/x" ua true
                           (Responds (rate_limited_with "7"));
                     EvLog WARNING wait_log;
                     EvSleep 7].
Proof.
  apply (rate_limited_waits_and_continues
           (world [Responds (rate_limited_with "7")] browser_offline) initial
           "https://example.com/x" 3 2 2 0 (rate_limited_with "7") 7).
  - unfold sleepable. simpl. lia.
  - reflexivity.
  - reflexivity.
  - reflexivity.
  - unfold sleepable. simpl. lia.
Defined.

(** C5 as stated fails, in two ways.  A 429 whose [Retry-After] holds an
    HTTP date is followed by no wait and no further attempt, although
    two slots were left and the next request would have been answered.
    And a 429 that answers the retry without verification is not looked
    at: its [Retry-After] of 7 seconds is not slept, only the fixed
    delay of the two attempts is. *)
Lemma http_date_retry_after_ends_fetch :
  let w := world [Responds (rate_limited_with HTTP_DATE);
                  responds 200 [] "<plain>"] browser_offline in
  let w' := world [bad_certificate; Responds (rate_limited_with "7");
                   responds 200 [] "<plain>"] browser_offline in
  (PyInt.int HTTP_DATE = Err (PyInt.invalid_literal HTTP_DATE)
   /\ sleeps (trace (snd (run w "https://example.com/a/"))) = [2%Z]
   /\ requests (trace (snd (run w "https://example.com/a/"))) = 1%nat
   /\ fst (run w "https://example.com/a/")
      = Ok (None, "Failed to fetch content"))
  /\ (In (EvGet "https://example.com/a/" (nth 0 USER_AGENTS EmptyString)
                false (Responds (rate_limited_with "7")))
          (trace (snd (run w' "https://example.com/a/")))
      /\ sleeps (trace (snd (run w' "https://example.com/a/"))) = [2%Z; 2%Z]
      /\ requests (trace (snd (run w' "https://example.com/a/"))) = 3%nat).
Proof.
  cbv zeta. split; [repeat split; vm_compute; reflexivity|].
  split; [|split; vm_compute; reflexivity].
  vm_compute. do 4 right. left. reflexivity.
Qed.

Lemma unparseable_retry_after_witness :
  exists s' ua attempt_log,
    CrawlerAgent.fetch_loop "https://example.com/x" 3 2 3 0
      (world [Responds (rate_limited_with HTTP_DATE)] browser_offline) initial
    = (Ok None, s')
    /\ gets s' = 1%nat
    /\ trace s' = [EvLog INFO attempt_log;
                   EvSleep 2;
                   EvGet "https://example.com/x" ua true
                         (Responds (rate_limited_with HTTP_DATE));
                   EvLog ERROR
                         ("Unexpected error: "
                          ++ exn_str (PyInt.invalid_literal HTTP_DATE))].
Proof.
  apply (unparseable_retry_after_aborts
           (world [Responds (rate_limited_with HTTP_DATE)] browser_offline)
           initial "https://example.com/x" 3 2 2 0
           (rate_limited_with HTTP_DATE) HTTP_DATE
           (PyInt.invalid_literal HTTP_DATE)).
  - unfold sleepable. simpl. lia.
  - reflexivity.
  - reflexivity.
  - reflexivity.
  - vm_compute. reflexivity.
Defined.

(** C10 as stated fails for the other request of an attempt: a 429 with
    an HTTP date in [Retry-After] that answers the retry without
    verification is not examined; the loop is not left, the next attempt
    is made and its body returned. *)
Lemma unparseable_retry_after_on_retry_goes_on :
  let w := world [bad_certificate; Responds (rate_limited_with HTTP_DATE);
                  responds 200 [] "<plain>"] browser_offline in
  PyInt.int HTTP_DATE = Err (PyInt.invalid_literal HTTP_DATE)
  /\ In (EvGet "https://example.com/x" (nth 0 USER_AGENTS EmptyString)
               false (Responds (rate_limited_with HTTP_DATE)))
        (trace (snd (CrawlerAgent.fetch_content "https://example.com/x" 3 2
                       w initial)))
  /\ requests (trace (snd (CrawlerAgent.fetch_content
                             "https://example.com/x" 3 2 w initial))) = 3%nat
  /\ fst (CrawlerAgent.fetch_content "https://example.com/x" 3 2 w initial)
     = Ok (Some "<plain>").
Proof.
  cbv zeta. split; [vm_compute; reflexivity|].
  split; [|split; vm_compute; reflexivity].
  vm_compute. do 4 right. left. reflexivity.
Qed.

(** ** C8: the shape of a result *)

Lemma process_url_returns env url self_url :
  CrawlerAgent._normalize_url url = Ok self_url ->
  sleepable env 6 ->
  returns_in env (process_url url).
Proof.
  intros Hn [_ Hs]. unfold process_url.
  apply returns_bind.
  { intros s. rewrite init_spec, Hn. now eexists _, _. }
  intros crawler_url. apply returns_bind.
  { apply fetch_loop_returns; unfold DEFAULT_DELAY, DEFAULT_MAX_RETRIES;
      simpl; lia. }
  intros [html|]; [|apply returns_ret].
  destruct (truthy html); [|apply returns_ret].
  apply returns_bind; [apply parse_returns|].
  intros [[|x parsed] method]; apply returns_ret.
Qed.

(** C8 (as amended).  For every input on which the normalisation of the
    URL does not raise, [process_url] returns, and what it returns is
    either a non-empty list of entries under the label of a strategy, or
    no entries and one of its two reasons of failure. *)
Theorem process_result_shape env url self_url :
  CrawlerAgent._normalize_url url = Ok self_url ->
  sleepable env 6 ->
  exists r s, run env url = (Ok r, s) /\ well_formed_result r.
Proof.
  intros Hn Hs.
  destruct (process_url_returns env url self_url Hn Hs initial) as (r & s & E).
  exists r, s. split; [exact E|].
  refine (proj1 (process_url_post (fun _ => True) url _ _ _ _ _ E)).
  intros content parsed_data _. apply Forall_forall. trivial.
Qed.

Lemma process_result_shape_witness :
  exists r s,
    run (world [responds 200 [] "<plain>"] browser_offline) "example.com/a/"
    = (Ok r, s)
    /\ well_formed_result r.
Proof.
  apply (process_result_shape
           (world [responds 200 [] "<plain>"] browser_offline)
           "example.com/a/" "https://example.com/a/").
  - reflexivity.
  - unfold sleepable. simpl. lia.
Defined.

(** C8 as stated fails: on the input ["["] the constructor of the
    crawler raises, and [process_url] hands the exception to its caller:
    no entries, no reason. *)
Lemma unbalanced_bracket_raises :
  run (world [] browser_offline) "["
  = (Err (Exn ValueError "Invalid IPv6 URL"), initial).
Proof. vm_compute. reflexivity. Qed.

(** ** C9: normalisation of the target *)

Lemma run_get_to env url self_url :
  CrawlerAgent._normalize_url url = Ok self_url ->
  Forall (get_to self_url) (trace (snd (run env url))).
Proof.
  intros Hn. unfold run. rewrite process_url_cases, Hn.
  destruct (CrawlerAgent.fetch_content _ _ _ _ _) as [r1 s1] eqn:Ef.
  destruct (fetch_content_emits (get_to self_url) self_url
              (fun _ _ => I) (fun _ => I) (fun _ _ _ => eq_refl)
              _ _ _ _ _ _ Ef) as (t & T & F).
  rewrite trace_after_init in T. simpl in T.
  destruct r1 as [[html|]|e]; [destruct (truthy html)| |];
    try (cbn [snd]; now rewrite T).
  rewrite snd_outcome_of_parse.
  destruct (ParserAgent.parse html url env s1) as [r2 s2] eqn:Ep.
  destruct (parse_not_get _ _ _ _ _ _ Ep) as (t2 & T2 & F2).
  cbn [snd]. rewrite T2, T. apply Forall_app. split; [exact F|].
  eapply Forall_impl; [|exact F2].
  intros ev. unfold not_get. now destruct ev.
Qed.

(** Once the fixed delay is slept, the first iteration makes its
    request, and whatever follows only adds to the trace. *)
Lemma first_request_is_made env self_url max_retries delay remaining attempt
      s r s' :
  sleepable env delay ->
  CrawlerAgent.fetch_loop self_url max_retries delay (S remaining) attempt
                          env s = (r, s') ->
  exists t,
    trace s'
    = (trace (at_response env self_url max_retries delay attempt s) ++ t)%list.
Proof.
  intros Hs E. cbn [CrawlerAgent.fetch_loop] in E.
  set (s0 := at_response env self_url max_retries delay attempt s) in *.
  assert (B : forall r1 s1,
             CrawlerAgent.attempt_body self_url max_retries delay attempt env s
             = (r1, s1) ->
             exists t, trace s1 = (trace s0 ++ t)%list).
  { intros r1 s1. unfold CrawlerAgent.attempt_body, try_except.
    rewrite (attempt_try_request _ _ _ _ _ _ Hs). fold s0.
    assert (H : forall r2 s2 t2,
               trace s2 = (trace s0 ++ t2)%list ->
               match r2 with
               | Ok a => (Ok a, s2)
               | Err e =>
                   CrawlerAgent.attempt_except self_url delay attempt e env s2
               end = (r1, s1) ->
               exists t, trace s1 = (trace s0 ++ t)%list).
    { intros r2 s2 t2 T2 E2. destruct r2 as [a|e].
      - inversion E2; subst. now exists t2.
      - destruct (attempt_except_emits (fun _ => True) self_url
                    (fun _ _ => I) (fun _ => I) delay attempt e
                    (fun _ _ => I) _ _ _ _ E2) as (t3 & T3 & _).
        exists (t2 ++ t3)%list. now rewrite T3, T2, app_assoc. }
    destruct (http env (gets s)) as [response|e].
    - destruct (CrawlerAgent.check_status delay attempt response env s0)
        as [r2 s2] eqn:E2.
      destruct (check_status_emits (fun _ => True)
                  (fun _ _ => I) (fun _ => I) delay attempt response
                  _ _ _ _ E2) as (t2 & T2 & _).
      exact (H r2 s2 t2 T2).
    - apply (H (Err e) s0 []). now rewrite app_nil_r. }
  destruct (bind_inv _ _ _ _ _ _ E) as [(a & s1 & E1 & E2) | (e & E1 & _)].
  - destruct (B _ _ E1) as (t1 & T1). destruct a as [v|].
    + inversion E2; subst. now exists t1.
    + destruct (fetch_loop_emits (fun _ => True) self_url
                  (fun _ _ => I) (fun _ => I) (fun _ _ _ => I)
                  max_retries delay remaining (S attempt) _ _ _ _ E2)
        as (t2 & T2 & _).
      exists (t1 ++ t2)%list. now rewrite T2, T1, app_assoc.
  - exact (B _ _ E1).
Qed.

(** C9 (as amended).  The normalised URL starts with [http://] or
    [https://]: with [https://] unless the input started with
    [http://], an input that starts with neither being normalised as the
    same input behind [https://].  Every request of the run is addressed
    to the normalised URL, and when the platform accepts the fixed delay
    the run does make a request, its first, to that URL.  The one
    rejection is an exception of [urlparse]: it leaves [process_url]
    before anything is done. *)
Theorem requests_go_to_normalized_url env url :
  match CrawlerAgent._normalize_url url with
  | Ok self_url =>
      has_web_prefix self_url = true
      /\ startswith "https://" self_url = negb (startswith "http://" url)
      /\ (has_web_prefix url = false ->
          CrawlerAgent._normalize_url ("https://" ++ url) = Ok self_url)
      /\ Forall (get_to self_url) (trace (snd (run env url)))
      /\ (sleepable env DEFAULT_DELAY ->
          exists ua t,
            trace (snd (run env url))
            = EvLog INFO (CrawlerAgent.attempt_msg self_url
                            DEFAULT_MAX_RETRIES 0)
              :: EvSleep DEFAULT_DELAY
              :: EvGet self_url ua true (http env 0) :: t)
  | Err e => run env url = (Err e, initial)
  end.
Proof.
  destruct (CrawlerAgent._normalize_url url) as [self_url|e] eqn:Hn.
  2:{ unfold run. now rewrite process_url_cases, Hn. }
  split; [exact (normalize_web_prefix _ _ Hn)|].
  split.
  { destruct (normalize_scheme_of _ _ Hn) as (p & -> & S).
    destruct (startswith "http://" url).
    - now destruct (urlunparse_http _ S) as [_ ->].
    - now rewrite (urlunparse_https _ S). }
  split.
  { intros Hp. rewrite <- Hn. unfold CrawlerAgent._normalize_url.
    fold (has_web_prefix url). rewrite Hp. reflexivity. }
  split; [exact (run_get_to _ _ _ Hn)|].
  intros Hs. unfold run. rewrite process_url_cases, Hn.
  destruct (CrawlerAgent.fetch_content _ _ _ _ _) as [r1 s1] eqn:Ef.
  destruct (first_request_is_made env self_url DEFAULT_MAX_RETRIES
              DEFAULT_DELAY 2 0 (after_init env initial) r1 s1 Hs Ef)
    as (t1 & T1).
  unfold at_response in T1. cbn [trace gets draws after_init initial app] in T1.
  assert (P : forall html r2 s2,
             ParserAgent.parse html url env s1 = (r2, s2) ->
             exists t2, trace s2 = (trace s1 ++ t2)%list).
  { intros html r2 s2 Ep.
    destruct (parse_not_get _ _ _ _ _ _ Ep) as (t2 & T2 & _). now exists t2. }
  eexists.
  destruct r1 as [[html|]|e]; [destruct (truthy html)| |];
    try (cbn [snd]; rewrite T1; eexists; reflexivity).
  rewrite snd_outcome_of_parse.
  destruct (ParserAgent.parse html url env s1) as [r2 s2] eqn:Ep.
  destruct (P _ _ _ Ep) as (t2 & T2). cbn [snd]. rewrite T2, T1.
  eexists. cbn [app]. reflexivity.
Qed.

(** The scheme-less input ["example.com/x"]. *)
Lemma requests_go_to_normalized_url_witness :
  has_web_prefix "https://example.com/x" = true
  /\ startswith "https://" "https://example.com/x"
     = negb (startswith "http://" "example.com/x")
  /\ CrawlerAgent._normalize_url ("https://" ++ "example.com/x")
     = Ok "https://example.com/x"
  /\ Forall (get_to "https://example.com/x")
            (trace (snd (run (world [responds 200 [] "<plain>"] browser_offline)
                             "example.com/x")))
  /\ exists ua t,
       trace (snd (run (world [responds 200 [] "<plain>"] browser_offline)
                       "example.com/x"))
       = EvLog INFO (CrawlerAgent.attempt_msg "https://example.com/x"
                       DEFAULT_MAX_RETRIES 0)
         :: EvSleep DEFAULT_DELAY
         :: EvGet "https://example.com/x" ua true
                  (responds 200 [] "<plain>") :: t.
Proof.
  generalize (requests_go_to_normalized_url
                (world [responds 200 [] "<plain>"] browser_offline)
                "example.com/x").
  change (CrawlerAgent._normalize_url "example.com/x")
    with (@Ok string "https://example.com/x").
  intros (H1 & H2 & H3 & H4 & H5).
  split; [exact H1|]. split; [exact H2|].
  split; [apply H3; reflexivity|]. split; [exact H4|].
  apply H5. unfold sleepable, DEFAULT_DELAY. simpl. lia.
Defined.

(** C9 as stated fails: the empty input names no host, yet it is not
    rejected: it becomes ["https://"], and the fetcher goes through its
    three attempts on it, [session.get] called each time. *)
Lemma empty_input_is_requested :
  let w := world [] browser_offline in
  CrawlerAgent._normalize_url "" = Ok "https://"
  /\ names_host "https://" = false
  /\ requests (trace (snd (run w ""))) = 3%nat
  /\ Forall (get_to "https://") (trace (snd (run w "")))
  /\ fst (run w "") = Ok (None, "Failed to fetch content").
Proof.
  cbv zeta. split; [reflexivity|]. split; [reflexivity|].
  split; [vm_compute; reflexivity|]. split; [|vm_compute; reflexivity].
  exact (run_get_to _ "" "https://" eq_refl).
Qed.

(** The entries of a static result, the text among them longer than 20
    characters. *)
Lemma text_entries_witness :
  all_entries long_text
    (Some [Text "A paragraph well over twenty characters long.";
           Link "Next" "https://example.com/a/b.html"],
     "Parsed with BeautifulSoup").
Proof.
  exact (proj2 (proj2 (text_entries_are_long
                         (world [responds 200 [] "<plain>"] browser_offline)
                         "https://example.com/a/" "<plain>" initial))).
Defined.

(* ===================================================================== *)
(** * Further properties of the fetcher *)

Lemma attempt_body_ok env self_url max_retries delay attempt s a s1 :
  CrawlerAgent.attempt_try self_url max_retries delay attempt env s = (Ok a, s1) ->
  CrawlerAgent.attempt_body self_url max_retries delay attempt env s = (Ok a, s1).
Proof. intros E. unfold CrawlerAgent.attempt_body. now apply try_except_ok. Qed.

Lemma trace_at_response env self_url max_retries delay attempt s :
  exists ua attempt_log,
    trace (at_response env self_url max_retries delay attempt s)
    = (trace s ++ [EvLog INFO attempt_log; EvSleep delay;
                   EvGet self_url ua true (http env (gets s))])%list
    /\ ua = user_agent (at_response env self_url max_retries delay attempt s)
    /\ In ua USER_AGENTS.
Proof.
  eexists _, _. split; [reflexivity|]. split; [reflexivity|].
  apply nth_In. apply Nat.mod_upper_bound. discriminate.
Qed.

(** X1.  An attempt that is answered 200 ends the fetch at once with the
    body of the answer, whatever it holds: one request, nothing after
    it. *)
Theorem ok_response_returns_body
        env s self_url max_retries delay remaining attempt response :
  sleepable env delay ->
  http env (gets s) = Responds response ->
  status_code response = 200%Z ->
  exists s' ua attempt_log,
    CrawlerAgent.fetch_loop self_url max_retries delay (S remaining) attempt
                            env s = (Ok (Some (text response)), s')
    /\ gets s' = S (gets s)
    /\ trace s' = (trace s ++ [EvLog INFO attempt_log; EvSleep delay;
                               EvGet self_url ua true (Responds response)])%list.
Proof.
  intros Hs Hh Hst.
  assert (B : CrawlerAgent.attempt_body self_url max_retries delay attempt env s
              = (Ok (Return (Some (text response))),
                 at_response env self_url max_retries delay attempt s)).
  { apply attempt_body_ok.
    rewrite (attempt_try_request _ _ _ _ _ _ Hs), Hh.
    unfold CrawlerAgent.check_status. now rewrite Hst. }
  eexists _, _, _. split; [|split].
  - cbn [CrawlerAgent.fetch_loop]. now rewrite (bind_ok _ _ _ _ _ _ B).
  - reflexivity.
  - unfold at_response. cbn [trace]. now rewrite Hh.
Qed.

Lemma ok_response_witness :
  exists s' ua attempt_log,
    CrawlerAgent.fetch_loop "https://example.com/x" 3 2 3 0
      (world [responds 200 [] ""] browser_offline) initial
    = (Ok (Some (text (mkResponse 200 [] ""))), s')
    /\ gets s' = 1%nat
    /\ trace s' = [EvLog INFO attempt_log; EvSleep 2;
                   EvGet "https://example.com/x" ua true
                         (Responds (mkResponse 200 [] ""))].
Proof.
  apply (ok_response_returns_body
           (world [responds 200 [] ""] browser_offline) initial
           "https://example.com/x" 3 2 2 0 (mkResponse 200 [] "")).
  - unfold sleepable. simpl. lia.
  - reflexivity.
  - reflexivity.
Defined.

(** X2.  An attempt whose request, the one made with certificate
    verification, is answered by any status other than 200, 403 and 429
    is logged with its code, and the loop goes on with the next attempt
    without any sleep of its own. *)
Theorem other_status_moves_on
        env s self_url max_retries delay remaining attempt response :
  sleepable env delay ->
  http env (gets s) = Responds response ->
  status_code response <> 200%Z ->
  status_code response <> 403%Z ->
  status_code response <> 429%Z ->
  exists s1 ua attempt_log,
    CrawlerAgent.fetch_loop self_url max_retries delay (S remaining) attempt
                            env s
    = CrawlerAgent.fetch_loop self_url max_retries delay remaining
                              (S attempt) env s1
    /\ gets s1 = S (gets s)
    /\ trace s1 = (trace s ++ [EvLog INFO attempt_log; EvSleep delay;
                               EvGet self_url ua true (Responds response);
                               EvLog ERROR
                                 ("Failed to fetch content: HTTP "
                                  ++ of_Z (status_code response))])%list.
Proof.
  intros Hs Hh H200 H403 H429.
  set (s0 := at_response env self_url max_retries delay attempt s).
  set (s1 := add_event (EvLog ERROR ("Failed to fetch content: HTTP "
                                     ++ of_Z (status_code response))) s0).
  assert (B : CrawlerAgent.attempt_body self_url max_retries delay attempt env s
              = (Ok Next, s1)).
  { apply attempt_body_ok.
    rewrite (attempt_try_request _ _ _ _ _ _ Hs), Hh.
    unfold CrawlerAgent.check_status.
    destruct (Z.eqb_spec (status_code response) 200); [contradiction|].
    destruct (Z.eqb_spec (status_code response) 403); [contradiction|].
    destruct (Z.eqb_spec (status_code response) 429); [contradiction|].
    reflexivity. }
  exists s1. eexists _, _. split; [|split].
  - cbn [CrawlerAgent.fetch_loop]. now rewrite (bind_ok _ _ _ _ _ _ B).
  - reflexivity.
  - subst s1 s0. unfold add_event, at_response. cbn [trace]. rewrite Hh.
    rewrite <- app_assoc. reflexivity.
Qed.

Lemma other_status_witness :
  exists s1 ua attempt_log,
    CrawlerAgent.fetch_loop "https://example.com/x" 3 2 3 0
      (world [responds 503 [] "busy"] browser_offline) initial
    = CrawlerAgent.fetch_loop "https://example.com/x" 3 2 2 1
        (world [responds 503 [] "busy"] browser_offline) s1
    /\ gets s1 = 1%nat
    /\ trace s1 = [EvLog INFO attempt_log; EvSleep 2;
                   EvGet "https://example.com/x" ua true
                         (Responds (mkResponse 503 [] "busy"));
                   EvLog ERROR "Failed to fetch content: HTTP 503"].
Proof.
  apply (other_status_moves_on
           (world [responds 503 [] "busy"] browser_offline) initial
           "https://example.com/x" 3 2 2 0 (mkResponse 503 [] "busy"));
    try discriminate.
  - unfold sleepable. simpl. lia.
  - reflexivity.
Defined.

(** X3.  A certificate failure of the request is followed at once by one
    retry without verification, to the same URL and under the same
    [User-Agent].  An answer 200 to the retry ends the fetch with its
    body; any other answer, or an exception of any kind, sends the loop
    to the next attempt without a back-off sleep. *)
Theorem ssl_error_retries_unverified
        env s self_url max_retries delay remaining attempt e :
  sleepable env delay ->
  http env (gets s) = GetRaises e ->
  is_SSLError e = true ->
  exists s2 ua attempt_log warning_log,
    gets s2 = S (S (gets s))
    /\ trace s2 = (trace s ++ [EvLog INFO attempt_log; EvSleep delay;
                               EvGet self_url ua true (GetRaises e);
                               EvLog WARNING warning_log;
                               EvGet self_url ua false
                                     (http env (S (gets s)))])%list
    /\ CrawlerAgent.fetch_loop self_url max_retries delay (S remaining)
                               attempt env s
       = match http env (S (gets s)) with
         | Responds retried =>
             if (status_code retried =? 200)%Z
             then (Ok (Some (text retried)), s2)
             else CrawlerAgent.fetch_loop self_url max_retries delay
                    remaining (S attempt) env s2
         | GetRaises e' =>
             CrawlerAgent.fetch_loop self_url max_retries delay
               remaining (S attempt) env
               (add_event (EvLog ERROR ("Secondary request failed: "
                                        ++ exn_str e')) s2)
         end.
Proof.
  intros Hs Hh Hssl.
  set (s0 := at_response env self_url max_retries delay attempt s).
  set (s1 := add_event (EvLog WARNING
                          "SSL Error - attempting without verification") s0).
  set (s2 := mkState (user_agent s1) (S (S (gets s))) (draws s1)
               (trace s1 ++ [EvGet self_url (user_agent s1) false
                                   (http env (S (gets s)))])%list).
  exists s2. eexists _, _, _. split; [reflexivity|]. split.
  { subst s2 s1 s0. unfold add_event, at_response. cbn [trace gets user_agent].
    rewrite Hh, <- !app_assoc. reflexivity. }
  assert (B : CrawlerAgent.attempt_body self_url max_retries delay attempt env s
              = match http env (S (gets s)) with
                | Responds retried =>
                    if (status_code retried =? 200)%Z
                    then (Ok (Return (Some (text retried))), s2)
                    else (Ok Next, s2)
                | GetRaises e' =>
                    (Ok Next,
                     add_event (EvLog ERROR ("Secondary request failed: "
                                             ++ exn_str e')) s2)
                end).
  { unfold CrawlerAgent.attempt_body.
    erewrite try_except_err
      by (rewrite (attempt_try_request _ _ _ _ _ _ Hs), Hh; reflexivity).
    unfold CrawlerAgent.attempt_except. rewrite Hssl.
    rewrite (bind_ok _ _ _ _ _ _ eq_refl).
    unfold try_except, bind, session_get. simpl (gets _).
    subst s2 s1.
    destruct (http env (S (gets s))) as [retried|e'].
    - destruct (status_code retried =? 200)%Z; reflexivity.
    - reflexivity. }
  cbn [CrawlerAgent.fetch_loop]. unfold bind at 1. rewrite B.
  destruct (http env (S (gets s))) as [retried|e'].
  - destruct (status_code retried =? 200)%Z; reflexivity.
  - reflexivity.
Qed.

Lemma ssl_error_witness :
  exists s2 ua attempt_log warning_log,
    gets s2 = 2%nat
    /\ trace s2 = [EvLog INFO attempt_log; EvSleep 2;
                   EvGet "https://example.com/x" ua true bad_certificate;
                   EvLog WARNING warning_log;
                   EvGet "https://example.com/x" ua false
                         (responds 200 [] "<plain>")]
    /\ CrawlerAgent.fetch_loop "https://example.com/x" 3 2 3 0
         (world [bad_certificate; responds 200 [] "<plain>"] browser_offline)
         initial
       = (Ok (Some "<plain>"), s2).
Proof.
  apply (ssl_error_retries_unverified
           (world [bad_certificate; responds 200 [] "<plain>"] browser_offline)
           initial "https://example.com/x" 3 2 2 0
           (Exn SSLError "certificate verify failed")).
  - unfold sleepable. simpl. lia.
  - reflexivity.
  - reflexivity.
Defined.

(** X4.  An exception of the request that is no request error ends the
    fetch at once with [None]: it is logged, no sleep follows and no
    further request is made. *)
Theorem unexpected_exception_aborts
        env s self_url max_retries delay remaining attempt e :
  sleepable env delay ->
  http env (gets s) = GetRaises e ->
  is_RequestException e = false ->
  exists s' ua attempt_log,
    CrawlerAgent.fetch_loop self_url max_retries delay (S remaining) attempt
                            env s = (Ok None, s')
    /\ gets s' = S (gets s)
    /\ trace s' = (trace s ++ [EvLog INFO attempt_log; EvSleep delay;
                               EvGet self_url ua true (GetRaises e);
                               EvLog ERROR ("Unexpected error: "
                                            ++ exn_str e)])%list.
Proof.
  intros Hs Hh He.
  assert (E : CrawlerAgent.attempt_try self_url max_retries delay attempt env s
              = (Err e, at_response env self_url max_retries delay attempt s))
    by (now rewrite (attempt_try_request _ _ _ _ _ _ Hs), Hh).
  pose proof (attempt_except_unexpected env self_url delay attempt e
                (at_response env self_url max_retries delay attempt s) He) as B.
  rewrite <- (try_except_err _ _ _ _ _ _ E) in B.
  eexists _, _, _. split; [|split].
  - cbn [CrawlerAgent.fetch_loop]. unfold CrawlerAgent.attempt_body.
    rewrite (bind_ok _ _ _ _ _ _ B). reflexivity.
  - reflexivity.
  - unfold add_event, at_response. cbn [trace]. rewrite Hh.
    rewrite <- app_assoc. reflexivity.
Qed.

Lemma unexpected_exception_witness :
  exists s' ua attempt_log,
    CrawlerAgent.fetch_loop "https://example.com/x" 3 2 3 0
      (world [GetRaises (Exn OtherException "out of memory");
              responds 200 [] "<plain>"] browser_offline) initial
    = (Ok None, s')
    /\ gets s' = 1%nat
    /\ trace s' = [EvLog INFO attempt_log; EvSleep 2;
                   EvGet "https://example.com/x" ua true
                         (GetRaises (Exn OtherException "out of memory"));
                   EvLog ERROR "Unexpected error: out of memory"].
Proof.
  apply (unexpected_exception_aborts
           (world [GetRaises (Exn OtherException "out of memory");
                   responds 200 [] "<plain>"] browser_offline)
           initial "https://example.com/x" 3 2 2 0
           (Exn OtherException "out of memory")).
  - unfold sleepable. simpl. lia.
  - reflexivity.
  - reflexivity.
Defined.

(** X5.  With a delay [time.sleep] refuses, a negative one for instance,
    [fetch_content] gives up in its first attempt before any request is
    made, whatever [max_retries] allows. *)
Theorem refused_delay_makes_no_request
        env s self_url max_retries delay :
  ~ sleepable env delay ->
  exists s' attempt_log error_log,
    CrawlerAgent.fetch_content self_url (S max_retries) delay env s
    = (Ok None, s')
    /\ gets s' = gets s
    /\ trace s' = (trace s ++ [EvLog INFO attempt_log;
                               EvLog ERROR error_log])%list.
Proof.
  intros Hs.
  destruct (attempt_try_no_sleep env self_url (S max_retries) delay 0 s Hs)
    as (e & E & Ce).
  pose proof (attempt_except_unexpected env self_url delay 0 e
                (add_event
                   (EvLog INFO
                      (CrawlerAgent.attempt_msg self_url (S max_retries) 0)) s)
                Ce) as B.
  rewrite <- (try_except_err _ _ _ _ _ _ E) in B.
  eexists _, _, _. split; [|split].
  - unfold CrawlerAgent.fetch_content. cbn [CrawlerAgent.fetch_loop].
    unfold CrawlerAgent.attempt_body.
    rewrite (bind_ok _ _ _ _ _ _ B). reflexivity.
  - reflexivity.
  - unfold add_event. cbn [trace]. rewrite <- app_assoc. reflexivity.
Qed.

Lemma refused_delay_witness :
  exists s' attempt_log error_log,
    CrawlerAgent.fetch_content "https://example.com/x" 3 (-1)
      (world [responds 200 [] "<plain>"] browser_offline) initial
    = (Ok None, s')
    /\ gets s' = 0%nat
    /\ trace s' = [EvLog INFO attempt_log; EvLog ERROR error_log].
Proof.
  apply (refused_delay_makes_no_request
           (world [responds 200 [] "<plain>"] browser_offline) initial
           "https://example.com/x" 2 (-1)).
  unfold sleepable. simpl. lia.
Defined.

(** ** Counting events *)

Section Counting.
Context (w : event -> bool).

Lemma count_app (t u : list event) :
  List.length (filter w (t ++ u))
  = (List.length (filter w t) + List.length (filter w u))%nat.
Proof. now rewrite filter_app, length_app. Qed.

Lemma count_none (t : list event) :
  Forall (fun ev => w ev = false) t -> List.length (filter w t) = 0%nat.
Proof.
  induction 1 as [|ev t H _ IH]; [reflexivity|]. simpl. now rewrite H.
Qed.

Lemma at_most_of_emits {A} (m : M A) :
  emits (fun ev => w ev = false) m -> emits_at_most w 0 m.
Proof.
  intros H env s r s' E. destruct (H _ _ _ _ E) as (t & T & F).
  exists t. split; [exact T|]. now rewrite (count_none _ F).
Qed.

Lemma at_most_weaken {A} (m : M A) (n n' : nat) :
  (n <= n')%nat -> emits_at_most w n m -> emits_at_most w n' m.
Proof.
  intros L H env s r s' E. destruct (H _ _ _ _ E) as (t & T & C).
  exists t. split; [exact T | lia].
Qed.

Lemma at_most_session_get (url : string) (verify : bool) :
  emits_at_most w 1 (session_get url verify).
Proof.
  intros env s r s' E. unfold session_get in E.
  exists [EvGet url (user_agent s) verify (http env (gets s))].
  split; [destruct (http env (gets s)); inversion E; reflexivity|].
  simpl. destruct (w _); simpl; lia.
Qed.

Lemma at_most_browser_call {A} (e : event) (f : Browser -> result A) :
  emits_at_most w 1 (browser_call e f).
Proof.
  intros env s r s' E. unfold browser_call in E. simpl in E.
  inversion E; subst. exists [e]. split; [reflexivity|].
  simpl. destruct (w e); simpl; lia.
Qed.

Lemma at_most_bind {A B} (m : M A) (f : A -> M B) (n1 n2 : nat) :
  emits_at_most w n1 m -> (forall a, emits_at_most w n2 (f a)) ->
  emits_at_most w (n1 + n2) (bind m f).
Proof.
  intros Hm Hf env s r s' E.
  destruct (bind_inv _ _ _ _ _ _ E) as [(a & s1 & E1 & E2) | (e & E1 & _)].
  - destruct (Hm _ _ _ _ E1) as (t1 & T1 & C1).
    destruct (Hf a _ _ _ _ E2) as (t2 & T2 & C2).
    exists (t1 ++ t2)%list. split; [now rewrite T2, T1, app_assoc|].
    rewrite count_app. lia.
  - destruct (Hm _ _ _ _ E1) as (t1 & T1 & C1).
    exists t1. split; [exact T1 | lia].
Qed.

Lemma at_most_try_except {A} (m : M A) (h : exn -> M A) (n1 n2 : nat) :
  emits_at_most w n1 m -> (forall e, emits_at_most w n2 (h e)) ->
  emits_at_most w (n1 + n2) (try_except m h).
Proof.
  intros Hm Hh env s r s' E. unfold try_except in E.
  destruct (m env s) as [[a|e] s1] eqn:E1;
    destruct (Hm _ _ _ _ E1) as (t1 & T1 & C1).
  - inversion E; subst. exists t1. split; [exact T1 | lia].
  - destruct (Hh e _ _ _ _ E) as (t2 & T2 & C2).
    exists (t1 ++ t2)%list. split; [now rewrite T2, T1, app_assoc|].
    rewrite count_app. lia.
Qed.

End Counting.

(** One step of a proof that bounds the events of a kind: a part that
    adds none of them is discharged by [emits]. *)
Ltac at_most_zero :=
  apply at_most_of_emits; repeat emits_step; try reflexivity; auto.

Section FetchCount.
Context (w : event -> bool) (self_url : string) (handler_bound : nat).
Hypothesis w_log : forall l msg, w (EvLog l msg) = false.
Hypothesis w_sleep : forall secs, w (EvSleep secs) = false.
Hypothesis w_handler :
  forall delay attempt e,
    emits_at_most w handler_bound
      (CrawlerAgent.attempt_except self_url delay attempt e).

Lemma attempt_try_at_most max_retries delay attempt :
  emits_at_most w 1
    (CrawlerAgent.attempt_try self_url max_retries delay attempt).
Proof.
  unfold CrawlerAgent.attempt_try.
  apply (at_most_bind w _ _ 0 1); [at_most_zero|]. intros _.
  apply (at_most_bind w _ _ 0 1); [at_most_zero|]. intros _.
  apply (at_most_bind w _ _ 0 1); [at_most_zero|]. intros ua.
  apply (at_most_bind w _ _ 0 1); [at_most_zero|]. intros _.
  apply (at_most_bind w _ _ 1 0); [apply at_most_session_get|].
  intros response. apply at_most_of_emits.
  apply check_status_emits; auto.
Qed.

Lemma attempt_body_at_most max_retries delay attempt :
  emits_at_most w (1 + handler_bound)
    (CrawlerAgent.attempt_body self_url max_retries delay attempt).
Proof.
  unfold CrawlerAgent.attempt_body. apply at_most_try_except.
  - apply attempt_try_at_most.
  - intros e. apply w_handler.
Qed.

Lemma fetch_loop_at_most max_retries delay remaining :
  forall attempt,
    emits_at_most w (remaining * (1 + handler_bound))
      (CrawlerAgent.fetch_loop self_url max_retries delay remaining attempt).
Proof.
  induction remaining as [|n IH]; intros attempt;
    cbn [CrawlerAgent.fetch_loop].
  - at_most_zero.
  - change (S n * (1 + handler_bound))%nat
      with ((1 + handler_bound) + n * (1 + handler_bound))%nat.
    apply at_most_bind; [apply attempt_body_at_most|].
    intros [v|].
    + eapply at_most_weaken; [|apply at_most_of_emits, emits_ret]. lia.
    + apply IH.
Qed.

End FetchCount.

Lemma attempt_except_one_request self_url delay attempt e :
  emits_at_most is_get 1
    (CrawlerAgent.attempt_except self_url delay attempt e).
Proof.
  unfold CrawlerAgent.attempt_except. destruct (is_SSLError e).
  - apply (at_most_bind is_get _ _ 0 1); [at_most_zero|]. intros _.
    apply (at_most_try_except is_get _ _ 1 0).
    + apply (at_most_bind is_get _ _ 1 0); [apply at_most_session_get|].
      intros response. at_most_zero.
    + intros e'. at_most_zero.
  - apply (at_most_weaken is_get _ 0 1); [lia|]. at_most_zero.
Qed.

Lemma attempt_except_unverified self_url delay attempt e :
  emits_at_most is_verified_get 0
    (CrawlerAgent.attempt_except self_url delay attempt e).
Proof.
  apply at_most_of_emits. apply attempt_except_emits; reflexivity.
Qed.

(** X6.  Whatever the world answers, [fetch_content] calls [session.get]
    at most twice per allowed attempt, and at most once per allowed
    attempt with certificate verification. *)
Theorem fetch_requests_bounded env s self_url max_retries delay r s' :
  CrawlerAgent.fetch_content self_url max_retries delay env s = (r, s') ->
  exists t,
    trace s' = (trace s ++ t)%list
    /\ (requests t <= 2 * max_retries)%nat
    /\ (verified_requests t <= max_retries)%nat.
Proof.
  intros E. unfold CrawlerAgent.fetch_content in E.
  destruct (fetch_loop_at_most is_get self_url 1
              (fun _ _ => eq_refl) (fun _ => eq_refl)
              (attempt_except_one_request self_url)
              max_retries delay max_retries 0%nat _ _ _ _ E) as (t & T & C).
  destruct (fetch_loop_at_most is_verified_get self_url 0
              (fun _ _ => eq_refl) (fun _ => eq_refl)
              (attempt_except_unverified self_url)
              max_retries delay max_retries 0%nat _ _ _ _ E) as (t' & T' & C').
  assert (t' = t) by (rewrite T in T'; now apply app_inv_head in T').
  subst t'. exists t. split; [exact T|].
  unfold requests, verified_requests. lia.
Qed.

(** Three certificate failures, each retried in vain: the bound of six
    requests is reached. *)
Lemma fetch_requests_bounded_witness :
  (exists t,
     trace (snd (CrawlerAgent.fetch_content "https://example.com/x" 3 2
                   (world [bad_certificate; responds 500 [] "";
                           bad_certificate; responds 500 [] "";
                           bad_certificate; responds 500 [] ""]
                          browser_offline) initial))
     = ([] ++ t)%list
     /\ (requests t <= 2 * 3)%nat /\ (verified_requests t <= 3)%nat)
  /\ requests
       (trace (snd (CrawlerAgent.fetch_content "https://example.com/x" 3 2
                      (world [bad_certificate; responds 500 [] "";
                              bad_certificate; responds 500 [] "";
                              bad_certificate; responds 500 [] ""]
                             browser_offline) initial))) = 6%nat.
Proof.
  split; [|vm_compute; reflexivity].
  apply (fetch_requests_bounded
           (world [bad_certificate; responds 500 [] "";
                   bad_certificate; responds 500 [] "";
                   bad_certificate; responds 500 [] ""] browser_offline)
           initial "https://example.com/x" 3 2
           (fst (CrawlerAgent.fetch_content "https://example.com/x" 3 2
                   (world [bad_certificate; responds 500 [] "";
                           bad_certificate; responds 500 [] "";
                           bad_certificate; responds 500 [] ""]
                          browser_offline) initial))).
  apply surjective_pairing.
Defined.

(** ** Every request waits its turn *)

Lemma throttled_clean delay t :
  Forall not_verified_get t -> throttled delay t.
Proof. induction 1; constructor; assumption. Qed.

Lemma throttled_app delay t u :
  throttled delay t -> throttled delay u -> throttled delay (t ++ u).
Proof.
  induction 1 as [|ev t Hev _ IH | url ua o t _ IH]; intros Hu; simpl.
  - exact Hu.
  - apply throttled_other; [exact Hev | exact (IH Hu)].
  - apply throttled_get. exact (IH Hu).
Qed.

Lemma throttled_spec delay t :
  throttled delay t ->
  forall before url ua o after,
    t = (before ++ EvGet url ua true o :: after)%list ->
    exists earlier, before = (earlier ++ [EvSleep delay])%list.
Proof.
  induction 1 as [|ev t Hev _ IH | url0 ua0 o0 t _ IH];
    intros before url ua o after E.
  - destruct before; discriminate.
  - destruct before as [|b before]; inversion E; subst.
    + discriminate Hev.
    + destruct (IH _ _ _ _ _ eq_refl) as (earlier & ->).
      now exists (b :: earlier).
  - destruct before as [|b [|b' before]]; inversion E; subst.
    + now exists [].
    + destruct (IH _ _ _ _ _ eq_refl) as (earlier & ->).
      now exists (EvSleep delay :: EvGet url0 ua0 true o0 :: earlier).
Qed.

Lemma attempt_body_throttled env self_url max_retries delay attempt s r s' :
  CrawlerAgent.attempt_body self_url max_retries delay attempt env s = (r, s') ->
  exists t, trace s' = (trace s ++ t)%list /\ throttled delay t.
Proof.
  assert (Hex : forall e, emits not_verified_get
                  (CrawlerAgent.attempt_except self_url delay attempt e))
    by (intros e; apply attempt_except_emits; reflexivity).
  assert (Hcs : forall response, emits not_verified_get
                  (CrawlerAgent.check_status delay attempt response))
    by (intros response; apply check_status_emits; reflexivity).
  unfold CrawlerAgent.attempt_body, try_except. intros E.
  destruct (CrawlerAgent.attempt_try self_url max_retries delay attempt env s)
    as [r1 s1] eqn:Et.
  assert (H1 : exists t1, trace s1 = (trace s ++ t1)%list /\ throttled delay t1).
  { destruct (sleepable_dec env delay) as [Hs|Hs].
    - rewrite (attempt_try_request _ _ _ _ _ _ Hs) in Et.
      set (s0 := at_response env self_url max_retries delay attempt s) in *.
      assert (H0 : forall u, throttled delay u ->
                throttled delay
                  ([EvLog INFO (CrawlerAgent.attempt_msg self_url
                                  max_retries attempt);
                    EvSleep delay;
                    EvGet self_url (user_agent s0) true (http env (gets s))]
                   ++ u)).
      { intros u Hu. simpl. constructor; [reflexivity|]. now constructor. }
      destruct (http env (gets s)) as [response|e] eqn:Hh.
      + destruct (Hcs response _ _ _ _ Et) as (t & T & F).
        eexists. split; [|apply (H0 t), throttled_clean, F].
        rewrite T. unfold s0, at_response. cbn [trace].
        now rewrite Hh, <- app_assoc.
      + inversion Et; subst r1 s1. eexists.
        split; [|apply (H0 []); constructor].
        unfold s0, at_response. cbn [trace]. now rewrite Hh.
    - destruct (attempt_try_no_sleep env self_url max_retries delay attempt
                  s Hs) as (e & Et' & _).
      rewrite Et' in Et. inversion Et; subst r1 s1.
      eexists. split; [reflexivity|]. apply throttled_clean.
      repeat constructor. }
  destruct H1 as (t1 & T1 & F1).
  destruct r1 as [a|e].
  - inversion E; subst. now exists t1.
  - destruct (Hex e _ _ _ _ E) as (t2 & T2 & F2).
    exists (t1 ++ t2)%list. split; [now rewrite T2, T1, app_assoc|].
    apply throttled_app; [exact F1 | now apply throttled_clean].
Qed.

Lemma fetch_loop_throttled env self_url max_retries delay remaining :
  forall attempt s r s',
    CrawlerAgent.fetch_loop self_url max_retries delay remaining attempt env s
    = (r, s') ->
    exists t, trace s' = (trace s ++ t)%list /\ throttled delay t.
Proof.
  induction remaining as [|n IH]; intros attempt s r s' E.
  - inversion E; subst. eexists. split; [reflexivity|].
    apply throttled_clean. repeat constructor.
  - cbn [CrawlerAgent.fetch_loop] in E.
    destruct (bind_inv _ _ _ _ _ _ E) as [(a & s1 & E1 & E2) | (e & E1 & _)];
      destruct (attempt_body_throttled _ _ _ _ _ _ _ _ E1) as (t1 & T1 & F1).
    + destruct a as [v|].
      * inversion E2; subst. now exists t1.
      * destruct (IH _ _ _ _ E2) as (t2 & T2 & F2).
        exists (t1 ++ t2)%list. split; [now rewrite T2, T1, app_assoc|].
        now apply throttled_app.
    + now exists t1.
Qed.

(** X7.  In every fetch, each request made with certificate
    verification comes right after a sleep of the fixed delay: no
    attempt goes out unthrottled. *)
Theorem requests_are_throttled env s self_url max_retries delay r s' :
  CrawlerAgent.fetch_content self_url max_retries delay env s = (r, s') ->
  exists t,
    trace s' = (trace s ++ t)%list
    /\ forall before url ua o after,
        t = (before ++ EvGet url ua true o :: after)%list ->
        exists earlier, before = (earlier ++ [EvSleep delay])%list.
Proof.
  intros E. destruct (fetch_loop_throttled _ _ _ _ _ _ _ _ _ E) as (t & T & F).
  exists t. split; [exact T | exact (throttled_spec _ _ F)].
Qed.

Lemma requests_are_throttled_witness :
  exists t,
    trace (snd (CrawlerAgent.fetch_content "https://example.com/x" 3 2
                  (world [timed_out; responds 200 [] "<plain>"]
                         browser_offline) initial))
    = ([] ++ t)%list
    /\ forall before url ua o after,
        t = (before ++ EvGet url ua true o :: after)%list ->
        exists earlier, before = (earlier ++ [EvSleep 2])%list.
Proof.
  apply (requests_are_throttled
           (world [timed_out; responds 200 [] "<plain>"] browser_offline)
           initial "https://example.com/x" 3 2
           (fst (CrawlerAgent.fetch_content "https://example.com/x" 3 2
                   (world [timed_out; responds 200 [] "<plain>"]
                          browser_offline) initial))).
  apply surjective_pairing.
Defined.

(** ** The time a failing fetch takes *)

Lemma sleeps_app t u : sleeps (t ++ u) = (sleeps t ++ sleeps u)%list.
Proof. unfold sleeps. apply flat_map_app. Qed.

Lemma total_backoff_schedule delay remaining :
  forall attempt,
    (2 * total (backoff_schedule delay attempt remaining)
     = delay * Z.of_nat remaining
       * (2 * Z.of_nat attempt + Z.of_nat remaining + 3))%Z.
Proof.
  unfold total. induction remaining as [|n IH]; intros attempt.
  - simpl. lia.
  - cbn [backoff_schedule fold_right].
    specialize (IH (S attempt)). nia.
Qed.

(** An attempt that fails on a network error: the back-off is slept and
    the loop goes on. *)
Lemma network_error_backs_off env self_url max_retries delay attempt s e :
  sleepable env delay ->
  sleepable env (delay * (Z.of_nat attempt + 1)) ->
  http env (gets s) = GetRaises e ->
  network_error e = true ->
  exists s1 ua attempt_log error_log,
    CrawlerAgent.attempt_body self_url max_retries delay attempt env s
    = (Ok Next, s1)
    /\ gets s1 = S (gets s)
    /\ trace s1 = (trace s ++ [EvLog INFO attempt_log; EvSleep delay;
                               EvGet self_url ua true (GetRaises e);
                               EvLog ERROR error_log;
                               EvSleep (delay * (Z.of_nat attempt + 1))])%list.
Proof.
  intros Hs Hb He Ce.
  apply andb_true_iff in Ce. destruct Ce as [Cr Cs].
  apply negb_true_iff in Cs.
  eexists _, _, _, _. split; [|split].
  - unfold CrawlerAgent.attempt_body.
    erewrite try_except_err
      by (rewrite (attempt_try_request _ _ _ _ _ _ Hs), He; reflexivity).
    unfold CrawlerAgent.attempt_except. rewrite Cs, Cr.
    rewrite (bind_ok _ _ _ _ _ _ eq_refl).
    rewrite (bind_ok _ _ _ _ _ _ (time_sleep_ok _ _ _ Hb)). reflexivity.
  - reflexivity.
  - unfold add_event, at_response. cbn [trace]. rewrite He.
    rewrite <- !app_assoc. reflexivity.
Qed.

Lemma fetch_loop_schedule env self_url max_retries delay :
  (0 <= delay)%Z ->
  forall remaining attempt s,
    (delay * Z.of_nat (attempt + remaining) <= max_sleep env)%Z ->
    (forall k, (k < remaining)%nat ->
               exists e, http env (gets s + k) = GetRaises e
                         /\ network_error e = true) ->
    exists s' t,
      CrawlerAgent.fetch_loop self_url max_retries delay remaining attempt
                              env s = (Ok None, s')
      /\ trace s' = (trace s ++ t)%list
      /\ sleeps t = backoff_schedule delay attempt remaining.
Proof.
  intros Hd. induction remaining as [|n IH]; intros attempt s Hm Hn.
  - eexists _, _. split; [reflexivity|]. split; reflexivity.
  - destruct (Hn 0%nat) as (e & He & Ce); [lia|].
    rewrite Nat.add_0_r in He.
    destruct (network_error_backs_off env self_url max_retries delay attempt
                s e) as (s1 & ua & l1 & l2 & B & G & T); auto;
      try (unfold sleepable; nia).
    destruct (IH (S attempt) s1) as (s' & t & E & T' & S').
    + replace (S attempt + n)%nat with (attempt + S n)%nat by lia. exact Hm.
    + intros k Hk. destruct (Hn (S k)) as (e' & He' & Ce'); [lia|].
      exists e'. split; [|exact Ce'].
      replace (gets s1 + k)%nat with (gets s + S k)%nat by lia. exact He'.
    + eexists _, _. split; [|split].
      * cbn [CrawlerAgent.fetch_loop]. rewrite (bind_ok _ _ _ _ _ _ B).
        exact E.
      * rewrite T', T, <- app_assoc. reflexivity.
      * rewrite sleeps_app, S'. reflexivity.
Qed.

(** X8.  When every attempt fails on a network error, the fetch sleeps
    the fixed delay before each request and, after the request of
    attempt [k] (from 1), a back-off of [k] delays: for [n] attempts
    that is [delay * n * (n + 3) / 2] seconds in all. *)
Theorem network_failures_sleep_schedule env s self_url max_retries delay :
  (0 <= delay)%Z ->
  (delay * Z.of_nat max_retries <= max_sleep env)%Z ->
  (forall k, (k < max_retries)%nat ->
             exists e, http env (gets s + k) = GetRaises e
                       /\ network_error e = true) ->
  exists s' t,
    CrawlerAgent.fetch_content self_url max_retries delay env s = (Ok None, s')
    /\ trace s' = (trace s ++ t)%list
    /\ sleeps t = backoff_schedule delay 0 max_retries
    /\ (2 * total (sleeps t)
        = delay * Z.of_nat max_retries * (Z.of_nat max_retries + 3))%Z.
Proof.
  intros Hd Hm Hn.
  destruct (fetch_loop_schedule env self_url max_retries delay Hd
              max_retries 0%nat s Hm Hn) as (s' & t & E & T & S').
  exists s', t. split; [exact E|]. split; [exact T|]. split; [exact S'|].
  rewrite S', total_backoff_schedule. lia.
Qed.

(** With the defaults, three time-outs: 2, 2, 2, 4, 2 and 6 seconds. *)
Lemma network_failures_sleep_witness :
  exists s' t,
    CrawlerAgent.fetch_content "https://example.com/x" 3 2
      (world [] browser_offline) initial = (Ok None, s')
    /\ trace s' = ([] ++ t)%list
    /\ sleeps t = [2; 2; 2; 4; 2; 6]%Z
    /\ (2 * total (sleeps t) = 2 * 3 * (3 + 3))%Z.
Proof.
  apply (network_failures_sleep_schedule
           (world [] browser_offline) initial "https://example.com/x" 3 2).
  - lia.
  - simpl. lia.
  - intros k _. exists (Exn RequestException "Read timed out.").
    split; [destruct k; reflexivity | reflexivity].
Defined.

(** ** The [User-Agent] of every request *)

Lemma random_choice_in_pool env s :
  In (nth (rng env (draws s) mod List.length USER_AGENTS) USER_AGENTS "")
     USER_AGENTS.
Proof. apply nth_In, Nat.mod_upper_bound. discriminate. Qed.

Section KeepsPool.

Lemma keeps_quiet {A} (m : M A) :
  (forall env s, user_agent (snd (m env s)) = user_agent s
                 /\ trace (snd (m env s)) = trace s) ->
  keeps_pool m (fun _ => True).
Proof.
  intros H env s r s' Hp E. destruct (H env s) as [U T].
  rewrite E in U, T. simpl in U, T. split; [now rewrite U|].
  split; [|trivial]. exists []. now rewrite T, app_nil_r.
Qed.

Lemma keeps_ret {A} (a : A) (R : A -> Prop) : R a -> keeps_pool (ret a) R.
Proof.
  intros H env s r s' Hp E. inversion E; subst.
  split; [exact Hp|]. split.
  - exists []. now rewrite app_nil_r.
  - intros b Hb. now inversion Hb; subst.
Qed.

Lemma keeps_lift {A} (r : result A) : keeps_pool (lift r) (fun _ => True).
Proof. now apply keeps_quiet. Qed.

Lemma keeps_BeautifulSoup markup :
  keeps_pool (BeautifulSoup markup) (fun _ => True).
Proof. now apply keeps_quiet. Qed.

Lemma keeps_emit (e : event) :
  agent_from_pool e -> keeps_pool (emit e) (fun _ => True).
Proof.
  intros He env s r s' Hp E. inversion E; subst.
  split; [exact Hp|]. split; [|trivial].
  exists [e]. split; [reflexivity | now constructor].
Qed.

Lemma keeps_log l msg : keeps_pool (log l msg) (fun _ => True).
Proof. now apply keeps_emit. Qed.

Lemma keeps_time_sleep secs : keeps_pool (time_sleep secs) (fun _ => True).
Proof.
  intros env s r s' Hp E. unfold time_sleep in E.
  destruct (secs <? 0)%Z; [|destruct (max_sleep env <? secs)%Z].
  - inversion E; subst. split; [exact Hp|]. split; [|trivial].
    exists []. now rewrite app_nil_r.
  - inversion E; subst. split; [exact Hp|]. split; [|trivial].
    exists []. now rewrite app_nil_r.
  - exact (keeps_emit (EvSleep secs) I env s r s' Hp E).
Qed.

Lemma keeps_random_choice :
  keeps_pool (random_choice USER_AGENTS) (fun ua => In ua USER_AGENTS).
Proof.
  intros env s r s' Hp E. inversion E; subst.
  split; [exact Hp|]. split.
  - exists []. now rewrite app_nil_r.
  - intros a Ha. inversion Ha. apply random_choice_in_pool.
Qed.

Lemma keeps_set_user_agent ua :
  In ua USER_AGENTS -> keeps_pool (set_user_agent ua) (fun _ => True).
Proof.
  intros Hu env s r s' Hp E. inversion E; subst.
  split; [exact Hu|]. split; [|trivial].
  exists []. now rewrite app_nil_r.
Qed.

Lemma keeps_session_get url verify :
  keeps_pool (session_get url verify) (fun _ => True).
Proof.
  intros env s r s' Hp E. unfold session_get in E.
  assert (S' : s' = mkState (user_agent s) (S (gets s)) (draws s)
                      (trace s ++ [EvGet url (user_agent s) verify
                                         (http env (gets s))])%list)
    by (destruct (http env (gets s)); now inversion E).
  subst s'. split; [exact Hp|]. split; [|trivial].
  exists [EvGet url (user_agent s) verify (http env (gets s))].
  split; [reflexivity|]. constructor; [exact Hp | constructor].
Qed.

Lemma keeps_browser_call {A} (e : event) (f : Browser -> result A) :
  agent_from_pool e -> keeps_pool (browser_call e f) (fun _ => True).
Proof.
  intros He env s r s' Hp E. unfold browser_call in E. simpl in E.
  inversion E; subst. split; [exact Hp|]. split; [|trivial].
  exists [e]. split; [reflexivity | now constructor].
Qed.

Lemma keeps_bind {A B} (m : M A) (f : A -> M B) (R : A -> Prop)
      (Q : B -> Prop) :
  keeps_pool m R -> (forall a, R a -> keeps_pool (f a) Q) ->
  keeps_pool (bind m f) Q.
Proof.
  intros Hm Hf env s r s' Hp E.
  destruct (bind_inv _ _ _ _ _ _ E) as [(a & s1 & E1 & E2) | (e & E1 & ->)];
    destruct (Hm _ _ _ _ Hp E1) as (U1 & (t1 & T1 & F1) & V1).
  - destruct (Hf a (V1 a eq_refl) _ _ _ _ U1 E2) as (U2 & (t2 & T2 & F2) & V2).
    split; [exact U2|]. split; [|exact V2].
    exists (t1 ++ t2)%list. split; [now rewrite T2, T1, app_assoc|].
    now apply Forall_app.
  - split; [exact U1|]. split; [now exists t1 | discriminate].
Qed.

Lemma keeps_try_except {A} (m : M A) (h : exn -> M A) (Q : A -> Prop) :
  keeps_pool m Q -> (forall e, keeps_pool (h e) Q) ->
  keeps_pool (try_except m h) Q.
Proof.
  intros Hm Hh env s r s' Hp E. unfold try_except in E.
  destruct (m env s) as [[a|e] s1] eqn:E1;
    destruct (Hm _ _ _ _ Hp E1) as (U1 & (t1 & T1 & F1) & V1).
  - inversion E; subst. split; [exact U1|]. split; [now exists t1|].
    exact V1.
  - destruct (Hh e _ _ _ _ U1 E) as (U2 & (t2 & T2 & F2) & V2).
    split; [exact U2|]. split; [|exact V2].
    exists (t1 ++ t2)%list. split; [now rewrite T2, T1, app_assoc|].
    now apply Forall_app.
Qed.

Lemma keeps_try_finally {A} (m : M A) (f : M unit) (Q : A -> Prop) :
  keeps_pool m Q -> keeps_pool f (fun _ => True) ->
  keeps_pool (try_finally m f) Q.
Proof.
  intros Hm Hf env s r s' Hp E. unfold try_finally in E.
  destruct (m env s) as [r1 s1] eqn:E1.
  destruct (f env s1) as [r2 s2] eqn:E2.
  destruct (Hm _ _ _ _ Hp E1) as (U1 & (t1 & T1 & F1) & V1).
  destruct (Hf _ _ _ _ U1 E2) as (U2 & (t2 & T2 & F2) & _).
  assert (s' = s2) by (destruct r2; now inversion E). subst s'.
  split; [exact U2|]. split.
  - exists (t1 ++ t2)%list. split; [now rewrite T2, T1, app_assoc|].
    now apply Forall_app.
  - intros a Ha. destruct r2 as [[]|e]; inversion E; subst;
      [now apply V1 | discriminate].
Qed.

Lemma keeps_weaken {A} (m : M A) (Q R : A -> Prop) :
  (forall a, Q a -> R a) -> keeps_pool m Q -> keeps_pool m R.
Proof.
  intros QR Hm env s r s' Hp E.
  destruct (Hm _ _ _ _ Hp E) as (U & T & V).
  split; [exact U|]. split; [exact T|]. intros a Ha. exact (QR _ (V a Ha)).
Qed.

End KeepsPool.

Ltac keeps_step :=
  lazymatch goal with
  | |- keeps_pool (bind (random_choice USER_AGENTS) _) _ =>
      eapply keeps_bind; [apply keeps_random_choice | intros ? ?]
  | |- keeps_pool (bind _ _) _ =>
      eapply (keeps_bind _ _ (fun _ => True)); [|intros ? _]
  | |- keeps_pool (try_except _ _) _ => apply keeps_try_except; [|intros ?]
  | |- keeps_pool (try_finally _ _) _ => apply keeps_try_finally
  | |- keeps_pool (ret _) _ => apply keeps_ret
  | |- keeps_pool (lift _) _ => apply keeps_lift
  | |- keeps_pool (BeautifulSoup _) _ => apply keeps_BeautifulSoup
  | |- keeps_pool (set_user_agent _) _ => apply keeps_set_user_agent
  | |- keeps_pool (log _ _) _ => apply keeps_log
  | |- keeps_pool (time_sleep _) _ => apply keeps_time_sleep
  | |- keeps_pool (session_get _ _) _ => apply keeps_session_get
  | |- keeps_pool (browser_call _ _) _ => apply keeps_browser_call
  | |- keeps_pool (if ?c then _ else _) _ => destruct c
  | |- keeps_pool (match ?x with _ => _ end) _ => destruct x
  end.

Lemma attempt_body_keeps_pool self_url max_retries delay attempt :
  keeps_pool (CrawlerAgent.attempt_body self_url max_retries delay attempt)
             (fun _ => True).
Proof.
  unfold CrawlerAgent.attempt_body, CrawlerAgent.attempt_try,
    CrawlerAgent.attempt_except, CrawlerAgent.check_status.
  repeat keeps_step; trivial.
Qed.

Lemma fetch_loop_keeps_pool self_url max_retries delay remaining :
  forall attempt,
    keeps_pool (CrawlerAgent.fetch_loop self_url max_retries delay
                                        remaining attempt)
               (fun _ => True).
Proof.
  induction remaining as [|n IH]; intros attempt;
    cbn [CrawlerAgent.fetch_loop].
  - repeat keeps_step; trivial.
  - eapply keeps_bind; [apply attempt_body_keeps_pool|].
    intros [v|] _; [now apply keeps_ret | apply IH].
Qed.

Lemma parse_keeps_pool html_content self_url :
  keeps_pool (ParserAgent.parse html_content self_url) (fun _ => True).
Proof.
  unfold ParserAgent.parse, ParserAgent.parse_with_selenium,
    ParserAgent.drive.
  repeat keeps_step; simpl; trivial.
Qed.

(** X9.  Every request of a run, the retry without verification
    included, and every browser it starts presents a [User-Agent] of the
    pool. *)
Theorem user_agents_from_pool env url :
  Forall agent_from_pool (trace (snd (run env url))).
Proof.
  unfold run. rewrite process_url_cases.
  destruct (CrawlerAgent._normalize_url url) as [self_url|e]; [|constructor].
  destruct (CrawlerAgent.fetch_content _ _ _ _ _) as [r1 s1] eqn:Ef.
  assert (U0 : In (user_agent (after_init env initial)) USER_AGENTS)
    by apply random_choice_in_pool.
  destruct (fetch_loop_keeps_pool _ _ _ _ _ _ _ _ _ U0 Ef)
    as (U1 & (t1 & T1 & F1) & _).
  simpl in T1.
  destruct r1 as [[html|]|e]; [destruct (truthy html)| |];
    try (cbn [snd]; now rewrite T1).
  rewrite snd_outcome_of_parse.
  destruct (ParserAgent.parse html url env s1) as [r2 s2] eqn:Ep.
  destruct (parse_keeps_pool _ _ _ _ _ _ U1 Ep) as (_ & (t2 & T2 & F2) & _).
  cbn [snd]. rewrite T2, T1. now apply Forall_app.
Qed.

(** A certificate failure, its retry, then the page: both requests of
    the first attempt carry the same [User-Agent] of the pool. *)
Lemma user_agents_witness :
  Forall agent_from_pool
    (trace (snd (run (world [bad_certificate; responds 500 [] "";
                             responds 200 [] "<nothing>"]
                            (browser_showing "<plain>"))
                     "example.com/a/"))).
Proof.
  exact (user_agents_from_pool
           (world [bad_certificate; responds 500 [] "";
                   responds 200 [] "<nothing>"] (browser_showing "<plain>"))
           "example.com/a/").
Defined.

(* ===================================================================== *)
(** * Further properties of the extractors *)

Lemma try_finally_inv {A} (m : M A) (f : M unit) env s r s' :
  try_finally m f env s = (r, s') ->
  exists r1 s1 r2,
    m env s = (r1, s1) /\ f env s1 = (r2, s')
    /\ r = match r2 with Ok _ => r1 | Err e => Err e end.
Proof.
  unfold try_finally. destruct (m env s) as [r1 s1] eqn:E1.
  destruct (f env s1) as [r2 s2] eqn:E2. intros E.
  exists r1, s1, r2.
  destruct r2 as [[]|e]; inversion E; subst; repeat split; assumption.
Qed.

(** What is done with the driver: calls on it, then its shutdown, last. *)
Lemma drive_ends_with_quit env self_url s r s' :
  ParserAgent.drive self_url env s = (r, s') ->
  exists t,
    trace s' = (trace s ++ t ++ [EvDriverQuit])%list /\ Forall driving t.
Proof.
  unfold ParserAgent.drive. intros E.
  destruct (try_finally_inv _ _ _ _ _ _ E) as (r1 & s1 & r2 & E1 & E2 & _).
  assert (Hm : emits driving
                 (try_except
                    (bind (browser_call (EvDriverGet self_url)
                             (fun b => driver_get b self_url))
                       (fun _ =>
                          bind (browser_call EvWaitBody wait_body)
                            (fun _ =>
                               bind (time_sleep 5)
                                 (fun _ =>
                                    bind (browser_call EvPageSource page_source)
                                      (fun source =>
                                         bind (BeautifulSoup source)
                                           (fun soup =>
                                              bind (lift (ParserAgent.filter_content
                                                            self_url
                                                            (Bs4.find_all
                                                               ParserAgent.CONTENT_TAGS
                                                               soup)))
                                                (fun parsed_data =>
                                                   ret (parsed_data,
                                                        "Parsed with Selenium"))))))))
                    (fun e =>
                       bind (log ERROR ("Selenium parsing error: " ++ exn_str e))
                         (fun _ => ret ([], "Selenium parsing error: "
                                            ++ exn_str e)))))
    by (repeat emits_step; repeat split).
  destruct (Hm _ _ _ _ E1) as (t & T & F).
  exists t. split; [|exact F].
  unfold browser_call in E2. simpl in E2. inversion E2; subst s'.
  cbn [trace]. now rewrite T, app_assoc.
Qed.

(** X10.  Once the browser is started, the rendered extractor shuts it
    down on every path, success or failure, exactly once and as the last
    thing it does; when the browser cannot be started there is no driver
    to shut down and the exception leaves the extractor. *)
Theorem driver_is_always_quit env self_url s r s' :
  ParserAgent.parse_with_selenium self_url env s = (r, s') ->
  exists ua,
    match chrome (browser env) with
    | Ok _ =>
        exists t,
          trace s' = (trace s ++ EvChrome ua :: t ++ [EvDriverQuit])%list
          /\ Forall driving t
    | Err e => r = Err e /\ trace s' = (trace s ++ [EvChrome ua])%list
    end.
Proof.
  unfold ParserAgent.parse_with_selenium. intros E.
  rewrite (bind_ok _ _ _ _ _ _ eq_refl) in E.
  set (ua := nth _ USER_AGENTS "") in E. exists ua.
  unfold bind at 1, browser_call in E. simpl in E.
  destruct (chrome (browser env)) as [[]|e].
  - destruct (drive_ends_with_quit _ _ _ _ _ E) as (t & T & F).
    exists t. split; [|exact F].
    rewrite T. cbn [trace]. now rewrite <- app_assoc.
  - inversion E; subst. split; reflexivity.
Qed.

(** A browser whose navigation fails is shut down all the same. *)
Lemma driver_is_always_quit_witness :
  exists ua t,
    trace (snd (ParserAgent.parse_with_selenium "https://example.com/x"
                  (world [] browser_offline) initial))
    = ([] ++ EvChrome ua :: t ++ [EvDriverQuit])%list
    /\ Forall driving t.
Proof.
  destruct (driver_is_always_quit (world [] browser_offline)
              "https://example.com/x" initial _ _
              (surjective_pairing _)) as (ua & t & T & F).
  exists ua, t. split; [exact T | exact F].
Defined.

Lemma parse_with_selenium_no_browser env self_url s e :
  chrome (browser env) = Err e ->
  fst (ParserAgent.parse_with_selenium self_url env s) = Err e.
Proof.
  intros H. unfold ParserAgent.parse_with_selenium.
  rewrite (bind_ok _ _ _ _ _ _ eq_refl).
  unfold bind, browser_call. simpl. now rewrite H.
Qed.

Lemma parse_with_selenium_quit_raises env self_url s e :
  chrome (browser env) = Ok tt ->
  driver_quit (browser env) = Err e ->
  fst (ParserAgent.parse_with_selenium self_url env s) = Err e.
Proof.
  intros Hc Hq. unfold ParserAgent.parse_with_selenium.
  rewrite (bind_ok _ _ _ _ _ _ eq_refl).
  unfold bind at 1, browser_call. simpl. rewrite Hc.
  unfold ParserAgent.drive, try_finally.
  destruct (try_except _ _ env _) as [r1 s1].
  unfold browser_call. simpl. now rewrite Hq.
Qed.

(** X11.  An exception raised outside the [try] block of the rendered
    extractor, by the start of the browser or by its shutdown, is caught
    by [parse] and reported as a parsing error with an empty list; a
    failing shutdown thus discards whatever the browser had rendered. *)
Theorem browser_failures_become_parsing_errors env html url s e :
  truthy html = true ->
  static_pass env html url = Ok [] ->
  chrome (browser env) = Err e
  \/ (chrome (browser env) = Ok tt /\ driver_quit (browser env) = Err e) ->
  fst (ParserAgent.parse html url env s)
  = Ok ([], "Parsing error: " ++ exn_str e).
Proof.
  intros Ht Hs Hb. rewrite (parse_cases _ _ _ _ Ht), Hs.
  set (s1 := add_event _ s).
  assert (E : fst (ParserAgent.parse_with_selenium url env s1) = Err e).
  { destruct Hb as [Hc | [Hc Hq]].
    - now apply parse_with_selenium_no_browser.
    - now apply parse_with_selenium_quit_raises. }
  destruct (ParserAgent.parse_with_selenium url env s1) as [r2 s2].
  simpl in E. now subst r2.
Qed.

(** The browser renders a page with a paragraph and a link, then fails
    to shut down: nothing is left of them. *)
Lemma browser_failures_witness :
  fst (ParserAgent.parse "<nothing>" "https://example.com/a/"
         (MoreExamples.world_with [] (MoreExamples.browser_stuck "<plain>"))
         initial)
  = Ok ([], "Parsing error: session deleted").
Proof.
  apply (browser_failures_become_parsing_errors
           (MoreExamples.world_with [] (MoreExamples.browser_stuck "<plain>"))
           "<nothing>" "https://example.com/a/" initial
           (Exn WebDriverException "session deleted")).
  - reflexivity.
  - reflexivity.
  - right. split; reflexivity.
Defined.

(** X12.  [parse] never raises: in every world and on every document it
    returns a list and a label, and a list that is not empty comes under
    the label of the strategy that built it. *)
Theorem parse_always_returns env html url s :
  exists parsed_data method s',
    ParserAgent.parse html url env s = (Ok (parsed_data, method), s')
    /\ (parsed_data = [] \/ strategy_label method).
Proof.
  destruct (parse_returns env html url s) as ([parsed_data method] & s' & E).
  exists parsed_data, method, s'. split; [exact E|].
  destruct (parse_post (fun _ => True) url
              (fun _ parsed _ => proj2 (Forall_forall _ parsed) (fun _ _ => I))
              html _ _ _ _ E) as [_ H].
  simpl in H. destruct parsed_data as [|x parsed]; [now left|].
  right. apply H. discriminate.
Qed.

(** The value the [try] block of the rendered extractor returns: the
    filtered candidates of the whole rendered document. *)
Lemma parse_with_selenium_value env self_url s parsed_data method s' :
  ParserAgent.parse_with_selenium self_url env s
  = (Ok (parsed_data, method), s') ->
  parsed_data = []
  \/ exists source soup,
      page_source (browser env) = Ok source
      /\ html_parser env source = Ok soup
      /\ ParserAgent.filter_content self_url
           (Bs4.find_all ParserAgent.CONTENT_TAGS soup) = Ok parsed_data.
Proof.
  unfold ParserAgent.parse_with_selenium. intros E.
  rewrite (bind_ok _ _ _ _ _ _ eq_refl) in E.
  destruct (bind_inv _ _ _ _ _ _ E) as [(a & s1 & _ & E1) | (e & _ & D)];
    [|discriminate].
  unfold ParserAgent.drive in E1.
  destruct (try_finally_inv _ _ _ _ _ _ E1) as (r1 & s2 & r2 & E2 & _ & R).
  assert (R1 : r1 = Ok (parsed_data, method))
    by (destruct r2; [now subst r1 | discriminate]).
  subst r1. unfold try_except in E2.
  match type of E2 with
  | context [match ?body env s1 with _ => _ end] =>
      destruct (body env s1) as [[v|e] s3] eqn:Eb
  end.
  2:{ left. unfold bind, log, emit, ret in E2. now inversion E2. }
  inversion E2; subst v s3. right.
  destruct (bind_inv _ _ _ _ _ _ Eb) as [(a1 & x1 & _ & Eb1) | (? & _ & D)];
    [|discriminate].
  destruct (bind_inv _ _ _ _ _ _ Eb1) as [(a2 & x2 & _ & Eb2) | (? & _ & D)];
    [|discriminate].
  destruct (bind_inv _ _ _ _ _ _ Eb2) as [(a3 & x3 & _ & Eb3) | (? & _ & D)];
    [|discriminate].
  destruct (bind_inv _ _ _ _ _ _ Eb3)
    as [(source & x4 & Es & Eb4) | (? & _ & D)]; [|discriminate].
  destruct (bind_inv _ _ _ _ _ _ Eb4)
    as [(soup & x5 & Ep & Eb5) | (? & _ & D)]; [|discriminate].
  destruct (bind_inv _ _ _ _ _ _ Eb5)
    as [(parsed & x6 & Ef & Eb6) | (? & _ & D)]; [|discriminate].
  exists source, soup.
  unfold browser_call in Es. simpl in Es. unfold BeautifulSoup in Ep.
  unfold lift in Ef. unfold ret in Eb6.
  injection Es as Hs _. injection Ep as Hp _. injection Ef as Hf _.
  injection Eb6 as Hv _ _. subst parsed. repeat split; assumption.
Qed.

(** X13.  On a document without article, main or content-class
    container on which the static pass kept nothing, a browser that shows
    the very same markup cannot help: [parse] ends with an empty list. *)
Theorem same_markup_without_containers_stays_empty env html url soup s :
  truthy html = true ->
  html_parser env html = Ok soup ->
  ParserAgent.tiered_candidates soup = [] ->
  static_pass env html url = Ok [] ->
  page_source (browser env) = Ok html ->
  exists method s', ParserAgent.parse html url env s = (Ok ([], method), s').
Proof.
  intros Ht Hp Hc Hs Hb. rewrite (parse_cases _ _ _ _ Ht), Hs.
  set (s1 := add_event _ s).
  destruct (ParserAgent.parse_with_selenium url env s1)
    as [[[parsed_data method]|e] s2] eqn:E; [|now eexists _, _].
  exists method, s2.
  destruct (parse_with_selenium_value _ _ _ _ _ _ E)
    as [-> | (source & soup' & Hsrc & Hp' & Hf)]; [reflexivity|].
  rewrite Hb in Hsrc. inversion Hsrc; subst source.
  rewrite Hp in Hp'. inversion Hp'; subst soup'.
  unfold static_pass in Hs. rewrite Hp in Hs.
  unfold ParserAgent.candidates in Hs. rewrite Hc in Hs.
  rewrite Hs in Hf. now inversion Hf.
Qed.

Lemma same_markup_witness :
  exists method s',
    ParserAgent.parse "<short>" "https://example.com/a/"
      (MoreExamples.world_with [] (browser_showing "<short>")) initial
    = (Ok ([], method), s').
Proof.
  apply (same_markup_without_containers_stays_empty
           (MoreExamples.world_with [] (browser_showing "<short>"))
           "<short>" "https://example.com/a/" MoreExamples.short_page initial);
    reflexivity.
Defined.

(** ** The order of the static entries *)

Lemma filter_content_app self_url a b :
  ParserAgent.filter_content self_url (a ++ b)
  = match ParserAgent.filter_content self_url a,
          ParserAgent.filter_content self_url b with
    | Ok pa, Ok pb => Ok (pa ++ pb)%list
    | Err e, _ => Err e
    | Ok _, Err e => Err e
    end.
Proof.
  induction a as [|elem a IH]; simpl.
  - now destruct (ParserAgent.filter_content self_url b).
  - destruct (ParserAgent.filter_elem self_url elem) as [o|e]; [|reflexivity].
    rewrite IH.
    destruct (ParserAgent.filter_content self_url a) as [pa|e];
      [|reflexivity].
    destruct (ParserAgent.filter_content self_url b) as [pb|e];
      [|reflexivity].
    now destruct o.
Qed.

Lemma tiered_candidates_passes soup :
  ParserAgent.tiered_candidates soup
  = (article_pass soup ++ main_pass soup ++ container_pass soup)%list.
Proof.
  unfold ParserAgent.tiered_candidates, article_pass, main_pass,
    container_pass.
  destruct (Bs4.find "article" soup), (Bs4.find "main" soup); simpl;
    rewrite <- ?app_assoc; reflexivity.
Qed.

(** The label of the rendered extractor is never that of the static
    strategy. *)
Lemma parse_with_selenium_label self_url :
  post (ParserAgent.parse_with_selenium self_url)
       (fun r => snd r <> "Parsed with BeautifulSoup").
Proof.
  unfold ParserAgent.parse_with_selenium, ParserAgent.drive.
  do 2 post_skip. apply post_try_finally, post_try_except.
  - do 6 post_skip. apply post_ret. discriminate.
  - intros e. post_skip. apply post_ret. discriminate.
Qed.

(** The entries of the filtering loop: what [filter_elem] keeps of its
    candidates. *)
Lemma filter_content_In self_url content parsed_data :
  ParserAgent.filter_content self_url content = Ok parsed_data ->
  forall e,
    In e parsed_data
    <-> exists elem,
          In elem content
          /\ ParserAgent.filter_elem self_url elem = Ok (Some e).
Proof.
  revert parsed_data. induction content as [|x rest IH]; intros parsed_data.
  - intros H; inversion H. intros e. split; [intros [] | intros (? & [] & _)].
  - simpl.
    destruct (ParserAgent.filter_elem self_url x) as [o|] eqn:Ex;
      [|discriminate].
    destruct (ParserAgent.filter_content self_url rest) as [parsed|];
      [|discriminate].
    intros H; inversion H; subst; clear H. intros e.
    specialize (IH parsed eq_refl e). split.
    + intros He.
      assert (C : o = Some e \/ In e parsed).
      { destruct o as [y|]; [destruct He as [-> | He]|]; auto. }
      destruct C as [-> | C].
      * exists x. split; [now left | exact Ex].
      * apply IH in C. destruct C as (elem & Hi & Hf).
        exists elem. split; [now right | exact Hf].
    + intros (elem & [-> | Hi] & Hf).
      * rewrite Hf in Ex. inversion Ex; subst. now left.
      * assert (C : In e parsed) by (apply IH; eauto).
        destruct o; [now right | exact C].
Qed.

(** X14.  When some container (the first article, the first main area,
    a [div] with a content class) holds a paragraph, heading or link,
    the entries [parse] returns under the static label are exactly what
    the filter keeps of the candidates inside the containers: every
    such entry is there, and nothing from outside a container is. *)
Theorem static_entries_come_from_containers
        env html url soup s parsed_data s' elem0 :
  truthy html = true ->
  html_parser env html = Ok soup ->
  container_candidate soup elem0 ->
  ParserAgent.parse html url env s
  = (Ok (parsed_data, "Parsed with BeautifulSoup"), s') ->
  forall e,
    In e parsed_data
    <-> exists elem,
          container_candidate soup elem
          /\ ParserAgent.filter_elem url elem = Ok (Some e).
Proof.
  intros Ht Hp H0 E e.
  rewrite (parse_after_static_pass _ _ _ _ _ Ht Hp) in E.
  assert (Ec : ParserAgent.candidates soup
               = ParserAgent.tiered_candidates soup).
  { apply tiered_candidates_spec in H0. unfold ParserAgent.candidates.
    destruct (ParserAgent.tiered_candidates soup); [destruct H0|reflexivity]. }
  rewrite Ec in E. unfold after_static_pass in E.
  destruct (ParserAgent.filter_content url (ParserAgent.tiered_candidates soup))
    as [[|x parsed]|ex] eqn:Ef.
  - exfalso.
    destruct (ParserAgent.parse_with_selenium url env _) as [[r|e'] s2] eqn:Es.
    + inversion E; subst.
      exact (parse_with_selenium_label _ _ _ _ _ Es eq_refl).
    + inversion E.
  - inversion E; subst. rewrite (filter_content_In _ _ _ Ef e).
    split; intros (elem & Hi & Hf); exists elem;
      (split; [now apply tiered_candidates_spec | exact Hf]).
  - inversion E.
Qed.

(** A content [div] with a paragraph and a link, after a paragraph that
    lies outside of it: the two entries of the [div] are the result. *)
Lemma static_entries_witness :
  (forall e,
     In e [Text "A paragraph well over twenty characters long.";
           Link "Next" "https://example.com/a/b.html"]
     <-> exists elem,
           container_candidate MoreExamples.mixed_page elem
           /\ ParserAgent.filter_elem "https://example.com/a/" elem
              = Ok (Some e))
  /\ ParserAgent.filter_content "https://example.com/a/"
       (Bs4.find_all ParserAgent.CONTENT_TAGS MoreExamples.mixed_page)
     = Ok [Text "An opening paragraph outside of every container.";
           Text "A paragraph well over twenty characters long.";
           Link "Next" "https://example.com/a/b.html"].
Proof.
  split; [|reflexivity].
  apply (static_entries_come_from_containers
           (MoreExamples.world_with [] browser_offline) "<mixed>" "https://example.com/a/"
           MoreExamples.mixed_page initial
           [Text "A paragraph well over twenty characters long.";
            Link "Next" "https://example.com/a/b.html"]
           initial
           (Bs4.Tag "a" [("href", "b.html")] [Bs4.NavigableString "Next"])).
  - reflexivity.
  - reflexivity.
  - apply tiered_candidates_spec. right. left. reflexivity.
  - reflexivity.
Defined.

(** ** Nested containers *)

Lemma descendants_trans :
  forall m a, In a (Bs4.descendants m) ->
              forall x, In x (Bs4.descendants a) -> In x (Bs4.descendants m).
Proof.
  fix IH 1. intros [s|s|nm attrs cs] a Ha x Hx; simpl in *;
    try contradiction.
  induction cs as [|c cs IHcs]; simpl in *; [contradiction|].
  destruct Ha as [Ha | Ha].
  - subst a. right. apply in_or_app. now left.
  - apply in_app_or in Ha. destruct Ha as [Ha | Ha].
    + right. apply in_or_app. left. exact (IH c a Ha x Hx).
    + right. apply in_or_app. right. exact (IHcs Ha).
Qed.

Lemma find_all_nested names m a x :
  In a (Bs4.descendants m) ->
  In x (Bs4.find_all names a) -> In x (Bs4.find_all names m).
Proof.
  unfold Bs4.find_all. intros Ha Hx. apply filter_In in Hx.
  destruct Hx as [Hx Hn]. apply filter_In. split; [|exact Hn].
  exact (descendants_trans _ _ Ha _ Hx).
Qed.

Lemma filter_content_cons_inv self_url x rest parsed e :
  ParserAgent.filter_content self_url (x :: rest) = Ok parsed ->
  ParserAgent.filter_elem self_url x = Ok (Some e) ->
  exists parsed', parsed = e :: parsed'
                  /\ ParserAgent.filter_content self_url rest = Ok parsed'.
Proof.
  simpl. intros H He. rewrite He in H.
  destruct (ParserAgent.filter_content self_url rest) as [parsed'|];
    [|discriminate].
  inversion H. now exists parsed'.
Qed.

Lemma filter_content_split self_url l1 x l2 parsed e :
  ParserAgent.filter_content self_url (l1 ++ x :: l2) = Ok parsed ->
  ParserAgent.filter_elem self_url x = Ok (Some e) ->
  exists p1 p2, parsed = (p1 ++ e :: p2)%list
                /\ ParserAgent.filter_content self_url l2 = Ok p2.
Proof.
  rewrite filter_content_app. intros H He.
  destruct (ParserAgent.filter_content self_url l1) as [p1|]; [|discriminate].
  destruct (ParserAgent.filter_content self_url (x :: l2)) as [p|] eqn:E;
    [|discriminate].
  destruct (filter_content_cons_inv _ _ _ _ _ E He) as (p2 & -> & E2).
  inversion H. now exists p1, p2.
Qed.

(** X15.  Candidates are not deduplicated: when the article lies inside
    the main area, every entry kept from the article pass is in the
    static result twice, once for each pass that reached its element. *)
Theorem nested_article_entries_twice
        env html url soup article main parsed_data x e :
  html_parser env html = Ok soup ->
  Bs4.find "article" soup = Some article ->
  Bs4.find "main" soup = Some main ->
  In article (Bs4.descendants main) ->
  static_pass env html url = Ok parsed_data ->
  In x (Bs4.find_all ParserAgent.CONTENT_TAGS article) ->
  ParserAgent.filter_elem url x = Ok (Some e) ->
  occurs_twice e parsed_data.
Proof.
  intros Hp Ha Hm Hn Hs Hx He.
  pose proof (find_all_nested _ _ _ _ Hn Hx) as Hx'.
  destruct (in_split _ _ Hx) as (a1 & a2 & EA).
  destruct (in_split _ _ Hx') as (m1 & m2 & EM).
  assert (Et : ParserAgent.tiered_candidates soup
               = (a1 ++ x :: (a2 ++ m1) ++ x :: (m2 ++ container_pass soup))%list).
  { rewrite tiered_candidates_passes. unfold article_pass, main_pass.
    rewrite Ha, Hm, EA, EM. rewrite <- !app_assoc. simpl.
    rewrite <- ?app_assoc. reflexivity. }
  unfold static_pass in Hs. rewrite Hp in Hs.
  unfold ParserAgent.candidates in Hs. rewrite Et in Hs.
  assert (Hs' : ParserAgent.filter_content url
                  (a1 ++ x :: (a2 ++ m1) ++ x :: (m2 ++ container_pass soup))
                = Ok parsed_data).
  { destruct (a1 ++ x :: (a2 ++ m1) ++ x :: (m2 ++ container_pass soup))%list
      eqn:D; [|exact Hs].
    destruct a1; discriminate. }
  clear Hs.
  destruct (filter_content_split _ _ _ _ _ _ Hs' He) as (p1 & p2 & -> & E2).
  destruct (filter_content_split _ _ _ _ _ _ E2 He) as (p3 & p4 & -> & _).
  now exists p1, p3, p4.
Qed.

Lemma nested_article_witness :
  occurs_twice (Text "A paragraph well over twenty characters long.")
    [Text "A paragraph well over twenty characters long.";
     Text "A paragraph well over twenty characters long."].
Proof.
  apply (nested_article_entries_twice
           (MoreExamples.world_with [] browser_offline) "<nested>"
           "https://example.com/a/" MoreExamples.nested_page
           (Bs4.Tag "article" []
              [Bs4.Tag "p" [] [Bs4.NavigableString
                                 "A paragraph well over twenty characters long."]])
           (Bs4.Tag "main" []
              [Bs4.Tag "article" []
                 [Bs4.Tag "p" [] [Bs4.NavigableString
                                    "A paragraph well over twenty characters long."]]])
           _
           (Bs4.Tag "p" [] [Bs4.NavigableString
                              "A paragraph well over twenty characters long."]));
    try reflexivity.
  - simpl. auto.
  - simpl. auto.
Defined.

(* ===================================================================== *)
(** * Further properties of the pipeline *)

Lemma parse_with_selenium_one_browser self_url :
  emits_at_most is_chrome 1 (ParserAgent.parse_with_selenium self_url).
Proof.
  unfold ParserAgent.parse_with_selenium.
  apply (at_most_bind is_chrome _ _ 0 1); [at_most_zero|]. intros ua.
  apply (at_most_bind is_chrome _ _ 1 0); [apply at_most_browser_call|].
  intros _. unfold ParserAgent.drive. at_most_zero.
Qed.

Lemma parse_one_browser html_content self_url :
  emits_at_most is_chrome 1 (ParserAgent.parse html_content self_url).
Proof.
  unfold ParserAgent.parse. destruct (negb (truthy html_content)).
  - apply (at_most_weaken is_chrome _ 0 1); [lia|]. at_most_zero.
  - apply (at_most_try_except is_chrome _ _ 1 0); [|intros e; at_most_zero].
    apply (at_most_bind is_chrome _ _ 0 1); [at_most_zero|]. intros soup.
    apply (at_most_bind is_chrome _ _ 0 1); [at_most_zero|].
    intros [|x parsed].
    + apply (at_most_bind is_chrome _ _ 0 1); [at_most_zero|]. intros _.
      apply parse_with_selenium_one_browser.
    + apply (at_most_weaken is_chrome _ 0 1); [lia|]. at_most_zero.
Qed.

(** The events of a kind that one call of [process_url] adds: those of
    the fetch, then those of the parse. *)
Lemma process_url_at_most (w : event -> bool) (url : string) (n1 n2 : nat) :
  (forall self_url,
     emits_at_most w n1
       (CrawlerAgent.fetch_content self_url DEFAULT_MAX_RETRIES DEFAULT_DELAY)) ->
  (forall html, emits_at_most w n2 (ParserAgent.parse html url)) ->
  emits_at_most w (n1 + n2) (process_url url).
Proof.
  intros Hf Hp. unfold process_url.
  apply (at_most_bind w _ _ 0 (n1 + n2)).
  { unfold CrawlerAgent.__init__, CrawlerAgent._get_headers. at_most_zero. }
  intros crawler_url. apply at_most_bind; [apply Hf|].
  intros [html|]; [destruct (truthy html)|];
    try solve [apply (at_most_weaken w _ 0 n2); [lia | at_most_zero]].
  replace n2 with (n2 + 0)%nat by lia.
  apply at_most_bind; [apply Hp|].
  intros [[|x parsed] method]; at_most_zero.
Qed.

Lemma process_url_requests url :
  emits_at_most is_get 6 (process_url url).
Proof.
  apply (process_url_at_most is_get url 6 0).
  - intros self_url. unfold CrawlerAgent.fetch_content.
    apply (fetch_loop_at_most is_get self_url 1
             (fun _ _ => eq_refl) (fun _ => eq_refl)
             (attempt_except_one_request self_url)).
  - intros html. apply at_most_of_emits, parse_not_get.
Qed.

Lemma process_url_verified_requests url :
  emits_at_most is_verified_get 3 (process_url url).
Proof.
  apply (process_url_at_most is_verified_get url 3 0).
  - intros self_url. unfold CrawlerAgent.fetch_content.
    apply (fetch_loop_at_most is_verified_get self_url 0
             (fun _ _ => eq_refl) (fun _ => eq_refl)
             (attempt_except_unverified self_url)).
  - intros html. apply at_most_of_emits.
    apply (emits_weaken not_get); [|apply parse_not_get].
    intros ev. unfold not_get. now destruct ev.
Qed.

Lemma process_url_browsers url :
  emits_at_most is_chrome 1 (process_url url).
Proof.
  apply (process_url_at_most is_chrome url 0 1).
  - intros self_url. apply at_most_of_emits.
    apply (fetch_content_emits not_chrome self_url
             (fun _ _ => eq_refl) (fun _ => eq_refl) (fun _ _ _ => eq_refl)).
  - intros html. apply parse_one_browser.
Qed.

(** X16.  One call of [process_url] makes at most six requests, three of
    them at most with certificate verification, and starts at most one
    browser, in every world. *)
Theorem process_url_effort_bounded env url :
  (requests (trace (snd (run env url))) <= 6)%nat
  /\ (verified_requests (trace (snd (run env url))) <= 3)%nat
  /\ (rendered_invocations (trace (snd (run env url))) <= 1)%nat.
Proof.
  unfold run. destruct (process_url url env initial) as [r s'] eqn:E.
  destruct (process_url_requests _ _ _ _ _ E) as (t1 & T1 & C1).
  destruct (process_url_verified_requests _ _ _ _ _ E) as (t2 & T2 & C2).
  destruct (process_url_browsers _ _ _ _ _ E) as (t3 & T3 & C3).
  simpl in T1, T2, T3. subst t1 t2 t3. cbn [snd].
  unfold requests, verified_requests, rendered_invocations. repeat split; lia.
Qed.

(** X17.  The label of a result tells the strategy that produced it. *)
Theorem label_tells_strategy env url parsed_data method s' :
  run env url = (Ok (Some parsed_data, method), s') ->
  (method = "Parsed with BeautifulSoup"
   /\ rendered_invocations (trace s') = 0%nat)
  \/ (method = "Parsed with Selenium"
      /\ rendered_invocations (trace s') = 1%nat).
Proof.
  unfold run. rewrite process_url_cases.
  destruct (CrawlerAgent._normalize_url url) as [self_url|e]; [|discriminate].
  destruct (CrawlerAgent.fetch_content _ _ _ _ _) as [r1 s1] eqn:Ef.
  pose proof (fetch_no_browser _ _ _ _ _ Ef) as N1.
  change (rendered_invocations (trace initial)) with 0%nat in N1.
  destruct r1 as [[html|]|e]; try discriminate.
  destruct (truthy html) eqn:Ht; [|discriminate].
  rewrite (parse_cases _ _ _ _ Ht).
  destruct (static_pass env html url) as [[|x parsed]|e].
  - set (s2 := add_event _ s1).
    destruct (ParserAgent.parse_with_selenium url env s2) as [r3 s3] eqn:Es.
    pose proof (parse_with_selenium_once _ _ _ _ _ Es) as N3.
    destruct r3 as [[[|y rendered] method3]|e]; try discriminate.
    intros E. injection E as E1 E2 E3. subst.
    right. split.
    + assert (P : post (ParserAgent.parse_with_selenium url)
                    (fun r => Forall (fun _ => True) (fst r)
                              /\ (fst r <> [] -> snd r = "Parsed with Selenium"))).
      { apply parse_with_selenium_post. intros content pd _.
        apply Forall_forall. trivial. }
      destruct (P _ _ _ _ Es) as [_ L]. apply L. discriminate.
    + rewrite N3. unfold s2, add_event. cbn [trace].
      rewrite rendered_invocations_app, N1. reflexivity.
  - intros E. injection E as E1 E2 E3. subst. left. split; [reflexivity|exact N1].
  - discriminate.
Qed.

Lemma label_tells_strategy_witness :
  ("Parsed with BeautifulSoup" = "Parsed with BeautifulSoup"
   /\ rendered_invocations
        (trace (snd (run (Examples.world [Examples.responds 200 [] "<plain>"]
                            (Examples.browser_showing "<plain>"))
                         "https://example.com/a/"))) = 0%nat)
  \/ ("Parsed with BeautifulSoup" = "Parsed with Selenium"
      /\ rendered_invocations
           (trace (snd (run (Examples.world [Examples.responds 200 [] "<plain>"]
                               (Examples.browser_showing "<plain>"))
                            "https://example.com/a/"))) = 1%nat).
Proof.
  apply (label_tells_strategy
           (Examples.world [Examples.responds 200 [] "<plain>"]
              (Examples.browser_showing "<plain>"))
           "https://example.com/a/"
           [Text "A paragraph well over twenty characters long.";
            Link "Next" "https://example.com/a/b.html"]
           "Parsed with BeautifulSoup"
           (snd (run (Examples.world [Examples.responds 200 [] "<plain>"]
                        (Examples.browser_showing "<plain>"))
                     "https://example.com/a/"))).
  vm_compute. reflexivity.
Defined.

(** X18.  A 200 answer with an empty body is reported as a fetch
    failure: [process_url] returns no entries under the reason "Failed
    to fetch content" after that one request, without another attempt,
    without parsing and without a log entry that tells the cases
    apart. *)
Theorem empty_body_is_fetch_failure env url self_url response :
  CrawlerAgent._normalize_url url = Ok self_url ->
  sleepable env DEFAULT_DELAY ->
  http env 0 = Responds response ->
  status_code response = 200%Z ->
  text response = EmptyString ->
  fst (run env url) = Ok (None, "Failed to fetch content")
  /\ exists ua,
       trace (snd (run env url))
       = [EvLog INFO (CrawlerAgent.attempt_msg self_url DEFAULT_MAX_RETRIES 0);
          EvSleep DEFAULT_DELAY;
          EvGet self_url ua true (Responds response)].
Proof.
  intros Hn Hs Hh Hst Htx. unfold run.
  rewrite process_url_cases, Hn.
  assert (B : CrawlerAgent.attempt_body self_url DEFAULT_MAX_RETRIES
                DEFAULT_DELAY 0 env (after_init env initial)
              = (Ok (Return (Some (text response))),
                 at_response env self_url DEFAULT_MAX_RETRIES DEFAULT_DELAY 0
                             (after_init env initial))).
  { apply attempt_body_ok.
    rewrite (attempt_try_request _ _ _ _ _ _ Hs). cbn [after_init gets initial].
    rewrite Hh. unfold CrawlerAgent.check_status. now rewrite Hst. }
  assert (F : CrawlerAgent.fetch_content self_url DEFAULT_MAX_RETRIES
                DEFAULT_DELAY env (after_init env initial)
              = (Ok (Some (text response)),
                 at_response env self_url DEFAULT_MAX_RETRIES DEFAULT_DELAY 0
                             (after_init env initial))).
  { unfold CrawlerAgent.fetch_content.
    change (CrawlerAgent.fetch_loop self_url DEFAULT_MAX_RETRIES DEFAULT_DELAY
              DEFAULT_MAX_RETRIES 0)
      with (CrawlerAgent.fetch_loop self_url DEFAULT_MAX_RETRIES DEFAULT_DELAY
              3 0).
    cbn [CrawlerAgent.fetch_loop]. now rewrite (bind_ok _ _ _ _ _ _ B). }
  rewrite F, Htx. cbn [truthy fst snd].
  split; [reflexivity|].
  eexists. unfold at_response. cbn [trace after_init initial gets app].
  rewrite Hh. reflexivity.
Qed.

Lemma empty_body_witness :
  fst (run (Examples.world [Examples.responds 200 [] ""]
              (Examples.browser_showing "<plain>")) "example.com")
  = Ok (None, "Failed to fetch content")
  /\ exists ua,
       trace (snd (run (Examples.world [Examples.responds 200 [] ""]
                          (Examples.browser_showing "<plain>")) "example.com"))
       = [EvLog INFO (CrawlerAgent.attempt_msg "https://example.com"
                        DEFAULT_MAX_RETRIES 0);
          EvSleep DEFAULT_DELAY;
          EvGet "https://example.com" ua true
                (Responds (mkResponse 200 [] ""))].
Proof.
  apply (empty_body_is_fetch_failure
           (Examples.world [Examples.responds 200 [] ""]
              (Examples.browser_showing "<plain>"))
           "example.com" "https://example.com" (mkResponse 200 [] "")).
  - reflexivity.
  - unfold sleepable, DEFAULT_DELAY. simpl. lia.
  - reflexivity.
  - reflexivity.
  - reflexivity.
Defined.

(* ===================================================================== *)
(** * Properties of the front end *)

Lemma ask_urls_spec page env s d :
  Streamlit.ask_urls page 0 3 env s d
  = (Ok (entered_urls page), s,
     (d ++ [Streamlit.text_input "Enter URL 1 to analyze:" "url_0"
              "Enter the full URL including https://";
            Streamlit.text_input "Enter URL 2 to analyze:" "url_1"
              "Enter the full URL including https://";
            Streamlit.text_input "Enter URL 3 to analyze:" "url_2"
              "Enter the full URL including https://"])%list).
Proof.
  unfold entered_urls. cbn [Streamlit.ask_urls filter].
  unfold Streamlit.and_then, Streamlit.show, Streamlit.pure.
  change ("url_" ++ of_nat 0) with "url_0".
  change ("url_" ++ of_nat 1) with "url_1".
  change ("url_" ++ of_nat 2) with "url_2".
  rewrite <- !app_assoc. cbn [app].
  destruct (truthy (Streamlit.text_value page "url_0")),
           (truthy (Streamlit.text_value page "url_1")),
           (truthy (Streamlit.text_value page "url_2")); reflexivity.
Qed.

Lemma entered_urls_length page : (List.length (entered_urls page) <= 3)%nat.
Proof.
  unfold entered_urls. cbn [filter].
  destruct (truthy _), (truthy _), (truthy _); simpl; lia.
Qed.

Lemma streamlit_app_spec page env s d :
  Streamlit.streamlit_app page env s d
  = if Streamlit.clicked page then
      match entered_urls page with
      | _ :: _ =>
          Streamlit.show_results 0 (entered_urls page) env s
            (d ++ form
               ++ [Streamlit.columns (List.length (entered_urls page))])%list
      | [] =>
          (Ok tt, s,
           (d ++ form
              ++ [Streamlit.warning "Please enter at least one URL"])%list)
      end
    else (Ok tt, s, (d ++ form)%list).
Proof.
  unfold Streamlit.streamlit_app.
  unfold Streamlit.and_then at 1. unfold Streamlit.show at 1.
  unfold Streamlit.and_then at 1. rewrite ask_urls_spec.
  unfold Streamlit.and_then at 1. unfold Streamlit.show at 1.
  unfold form. rewrite <- !app_assoc. cbn [app].
  destruct (Streamlit.clicked page); [|reflexivity].
  destruct (entered_urls page) as [|u us].
  - unfold Streamlit.show. rewrite <- !app_assoc. reflexivity.
  - unfold Streamlit.and_then, Streamlit.show.
    rewrite <- !app_assoc. reflexivity.
Qed.

Lemma show_entries_spec result :
  forall j env s d,
  exists d1,
    Streamlit.show_entries j result env s d = (Ok tt, s, (d ++ d1)%list)
    /\ filter is_expander d1 = [].
Proof.
  induction result as [|text rest IH]; intros j env s d;
    cbn [Streamlit.show_entries].
  - exists []. now rewrite app_nil_r.
  - unfold Streamlit.and_then, Streamlit.show.
    destruct (IH (S j) env s
                ((d ++ [Streamlit.write (of_nat j ++ ". " ++ text)])
                   ++ [Streamlit.markdown "---"])%list)
      as (d1 & E & F).
    exists (Streamlit.write (of_nat j ++ ". " ++ text)
              :: Streamlit.markdown "---" :: d1).
    split; [|exact F].
    rewrite E, <- !app_assoc. reflexivity.
Qed.

(** One URL of the batch: when [process_url] returns, one panel with the
    position and the URL is added; when it raises, the exception leaves
    the loop with the spinner on the screen and no panel. *)
Lemma show_result_spec i url env s d :
  match process_url url env s with
  | (Ok _, s') =>
      exists d1,
        Streamlit.show_result i url env s d = (Ok tt, s', (d ++ d1)%list)
        /\ filter is_expander d1 = panel_labels i [url]
  | (Err e, s') =>
      exists d1,
        Streamlit.show_result i url env s d = (Err e, s', (d ++ d1)%list)
        /\ filter is_expander d1 = []
  end.
Proof.
  set (c := Streamlit.column i).
  set (sp := Streamlit.spinner
               ("Fetching and analyzing content from URL "
                ++ of_nat (i + 1) ++ "...")).
  set (ex := Streamlit.expander
               ("Results for URL " ++ of_nat (i + 1) ++ ": " ++ url)).
  assert (H : Streamlit.show_result i url env s d
              = match process_url url env s with
                | (Ok (result, method), s') =>
                    match result with
                    | Some (x :: parsed) =>
                        Streamlit.show_entries 1 (map entry_str (x :: parsed))
                          env s'
                          (d ++ [c; sp; ex;
                                 Streamlit.success
                                   ("Content extracted successfully using "
                                    ++ method ++ "!");
                                 Streamlit.subheader "Extracted Content"])%list
                    | _ =>
                        (Ok tt, s',
                         (d ++ [c; sp; ex;
                                Streamlit.error
                                  ("Failed to extract content: " ++ method)])%list)
                    end
                | (Err e, s') => (Err e, s', (d ++ [c; sp])%list)
                end).
  { unfold Streamlit.show_result.
    unfold Streamlit.and_then at 1. unfold Streamlit.show at 1.
    unfold Streamlit.and_then at 1. unfold Streamlit.show at 1.
    unfold Streamlit.and_then at 1. unfold Streamlit.call.
    destruct (process_url url env s) as [[[result method]|e] s'].
    - unfold Streamlit.and_then at 1. unfold Streamlit.show at 1.
      destruct result as [[|x parsed]|].
      + unfold Streamlit.show. now rewrite <- !app_assoc.
      + unfold Streamlit.and_then at 1. unfold Streamlit.show at 1.
        unfold Streamlit.and_then at 1. unfold Streamlit.show at 1.
        now rewrite <- !app_assoc.
      + unfold Streamlit.show. now rewrite <- !app_assoc.
    - now rewrite <- !app_assoc. }
  rewrite H. clear H.
  destruct (process_url url env s) as [[[result method]|e] s'].
  - destruct result as [[|x parsed]|].
    + eexists. split; reflexivity.
    + destruct (show_entries_spec (map entry_str (x :: parsed)) 1 env s'
                  (d ++ [c; sp; ex;
                         Streamlit.success
                           ("Content extracted successfully using "
                            ++ method ++ "!");
                         Streamlit.subheader "Extracted Content"])%list)
        as (d1 & E & F).
      exists ([c; sp; ex;
               Streamlit.success
                 ("Content extracted successfully using " ++ method ++ "!");
               Streamlit.subheader "Extracted Content"] ++ d1)%list.
      split.
      * rewrite E. now rewrite <- app_assoc.
      * rewrite filter_app, F. reflexivity.
    + eexists. split; reflexivity.
  - eexists. split; reflexivity.
Qed.

Lemma show_results_ok urls :
  forall i env s d s' d',
    Streamlit.show_results i urls env s d = (Ok tt, s', d') ->
    exists d1,
      d' = (d ++ d1)%list /\ filter is_expander d1 = panel_labels i urls.
Proof.
  induction urls as [|url rest IH]; intros i env s d s' d' E;
    cbn [Streamlit.show_results] in E.
  - inversion E; subst. exists []. now rewrite app_nil_r.
  - unfold Streamlit.and_then in E.
    pose proof (show_result_spec i url env s d) as H.
    destruct (process_url url env s) as [[r|e] s1];
      destruct H as (d1 & H & F); rewrite H in E; [|discriminate].
    destruct (IH _ _ _ _ _ _ E) as (d2 & -> & F2).
    exists (d1 ++ d2)%list. split; [now rewrite app_assoc|].
    rewrite filter_app, F, F2. reflexivity.
Qed.

Lemma show_results_rejected env before bad after e :
  Forall (fun url => exists self_url,
            CrawlerAgent._normalize_url url = Ok self_url) before ->
  sleepable env 6 ->
  CrawlerAgent._normalize_url bad = Err e ->
  forall i s d,
  exists s' d1,
    Streamlit.show_results i (before ++ bad :: after) env s d
    = (Err e, s', (d ++ d1)%list)
    /\ filter is_expander d1 = panel_labels i before.
Proof.
  intros Hb Hs He. induction Hb as [|url before (self_url & Hn) Hb IH];
    intros i s d; cbn [app Streamlit.show_results];
    unfold Streamlit.and_then.
  - pose proof (show_result_spec i bad env s d) as H.
    rewrite process_url_cases, He in H. destruct H as (d1 & H & F).
    rewrite H. exists s, d1. split; [reflexivity | exact F].
  - pose proof (show_result_spec i url env s d) as H.
    destruct (process_url_returns env url self_url Hn Hs s) as (r & s1 & E).
    rewrite E in H. destruct H as (d1 & H & F). rewrite H.
    destruct (IH (S i) s1 (d ++ d1)%list) as (s' & d2 & E2 & F2).
    exists s', (d1 ++ d2)%list. split; [now rewrite E2, app_assoc|].
    rewrite filter_app, F, F2. reflexivity.
Qed.

Lemma show_result_trace i url env s d :
  snd (fst (Streamlit.show_result i url env s d)) = snd (process_url url env s).
Proof.
  pose proof (show_result_spec i url env s d) as H.
  destruct (process_url url env s) as [[r|e] s1];
    destruct H as (d1 & H & _); now rewrite H.
Qed.

Lemma show_results_at_most (w : event -> bool) (n : nat) :
  (forall url, emits_at_most w n (process_url url)) ->
  forall urls i env s d,
  exists t,
    trace (snd (fst (Streamlit.show_results i urls env s d)))
    = (trace s ++ t)%list
    /\ (List.length (filter w t) <= List.length urls * n)%nat.
Proof.
  intros Hp. induction urls as [|url rest IH]; intros i env s d;
    cbn [Streamlit.show_results].
  - exists []. simpl. now rewrite app_nil_r.
  - unfold Streamlit.and_then.
    pose proof (show_result_trace i url env s d) as H.
    destruct (Streamlit.show_result i url env s d) as [[r s1] d1].
    cbn [fst snd] in H.
    destruct (Hp url env s (fst (process_url url env s)) s1) as (t1 & T1 & C1).
    { rewrite H. now destruct (process_url url env s). }
    destruct r as [[]|e].
    + destruct (IH (S i) env s1 d1) as (t2 & T2 & C2).
      exists (t1 ++ t2)%list. split; [now rewrite T2, T1, app_assoc|].
      rewrite count_app. simpl. lia.
    + exists t1. split; [exact T1|]. simpl. lia.
Qed.

(** X19.  Unless the button was pressed with a URL in one of the inputs,
    a run of the script touches nothing: no request, no browser, no log
    entry; it shows the form, and a warning when the button was pressed
    with the three inputs empty. *)
Theorem nothing_fetched_unless_asked page env s d :
  Streamlit.clicked page = false \/ entered_urls page = [] ->
  Streamlit.streamlit_app page env s d
  = (Ok tt, s,
     (d ++ form
        ++ if Streamlit.clicked page
           then [Streamlit.warning "Please enter at least one URL"]
           else [])%list).
Proof.
  intros H. rewrite streamlit_app_spec.
  destruct (Streamlit.clicked page).
  - destruct H as [H|H]; [discriminate|]. now rewrite H.
  - now rewrite app_nil_r.
Qed.

Lemma nothing_fetched_witness :
  Streamlit.streamlit_app (page_with "" "" "" true)
    (Examples.world [] Examples.browser_offline) initial []
  = (Ok tt, initial,
     ([] ++ form
         ++ if Streamlit.clicked (page_with "" "" "" true)
            then [Streamlit.warning "Please enter at least one URL"]
            else [])%list).
Proof.
  apply (nothing_fetched_unless_asked (page_with "" "" "" true)).
  right. reflexivity.
Defined.

(** X20.  When the batch completes, the result panels on the screen are
    those of the non-empty inputs, in order, and each is numbered by its
    position among the non-empty inputs, not by its input field. *)
Theorem panels_follow_entered_urls page env s d s' d' :
  Streamlit.clicked page = true ->
  Streamlit.streamlit_app page env s d = (Ok tt, s', d') ->
  filter is_expander d'
  = (filter is_expander d ++ panel_labels 0 (entered_urls page))%list.
Proof.
  intros Hc E. rewrite streamlit_app_spec, Hc in E.
  destruct (entered_urls page) as [|u us] eqn:Eu.
  - inversion E; subst. rewrite !filter_app. simpl. now rewrite app_nil_r.
  - destruct (show_results_ok _ _ _ _ _ _ _ E) as (d1 & -> & F).
    rewrite !filter_app, F. simpl (filter is_expander form).
    simpl (filter is_expander [_]). now rewrite !app_nil_r.
Qed.

Lemma panels_follow_witness :
  filter is_expander
    (snd (Streamlit.streamlit_app (page_with "" "example.com/a/" "" true)
            (Examples.world [Examples.responds 200 [] "<plain>"]
                            Examples.browser_offline) initial []))
  = ([] ++ [Streamlit.expander "Results for URL 1: example.com/a/"])%list.
Proof.
  apply (panels_follow_entered_urls
           (page_with "" "example.com/a/" "" true)
           (Examples.world [Examples.responds 200 [] "<plain>"]
                           Examples.browser_offline)
           initial []
           (snd (fst (Streamlit.streamlit_app
                        (page_with "" "example.com/a/" "" true)
                        (Examples.world [Examples.responds 200 [] "<plain>"]
                                        Examples.browser_offline) initial [])))).
  - reflexivity.
  - vm_compute. reflexivity.
Defined.

(** X21.  A URL that the normalisation rejects ends the batch with its
    exception: the panels of the URLs before it are on the screen, the
    URLs after it are not processed and get no panel. *)
Theorem rejected_url_ends_batch page env s d before bad after e :
  Streamlit.clicked page = true ->
  entered_urls page = (before ++ bad :: after)%list ->
  Forall (fun url => exists self_url,
            CrawlerAgent._normalize_url url = Ok self_url) before ->
  sleepable env 6 ->
  CrawlerAgent._normalize_url bad = Err e ->
  exists s' d',
    Streamlit.streamlit_app page env s d = (Err e, s', d')
    /\ filter is_expander d'
       = (filter is_expander d ++ panel_labels 0 before)%list.
Proof.
  intros Hc Eu Hb Hs He. rewrite streamlit_app_spec, Hc, Eu.
  destruct (show_results_rejected env before bad after e Hb Hs He 0%nat s
              (d ++ form
                 ++ [Streamlit.columns
                       (List.length (before ++ bad :: after))])%list)
    as (s' & d1 & E & F).
  destruct (before ++ bad :: after)%list as [|u us] eqn:Eb.
  { now destruct before. }
  exists s'. eexists. split; [exact E|].
  rewrite !filter_app, F. simpl (filter is_expander form).
  simpl (filter is_expander [_]). now rewrite !app_nil_r.
Qed.

Lemma rejected_url_witness :
  exists s' d',
    Streamlit.streamlit_app (page_with "example.com/a/" "[" "example.org" true)
      (Examples.world [Examples.responds 200 [] "<plain>"]
                      Examples.browser_offline) initial []
    = (Err (Exn ValueError "Invalid IPv6 URL"), s', d')
    /\ filter is_expander d'
       = (filter is_expander []
            ++ panel_labels 0 ["example.com/a/"])%list.
Proof.
  apply (rejected_url_ends_batch
           (page_with "example.com/a/" "[" "example.org" true)
           (Examples.world [Examples.responds 200 [] "<plain>"]
                           Examples.browser_offline)
           initial [] ["example.com/a/"] "[" ["example.org"]).
  - reflexivity.
  - reflexivity.
  - constructor; [|constructor]. exists "https://example.com/a/". reflexivity.
  - unfold sleepable. simpl. lia.
  - reflexivity.
Defined.

(** X22.  One run of the script makes at most six requests and starts at
    most one browser per non-empty input: eighteen requests and three
    browsers at most. *)
Theorem click_effort_bounded page env s d :
  exists t,
    trace (snd (fst (Streamlit.streamlit_app page env s d)))
    = (trace s ++ t)%list
    /\ (requests t <= 6 * List.length (entered_urls page))%nat
    /\ (rendered_invocations t <= List.length (entered_urls page))%nat
    /\ (List.length (entered_urls page) <= 3)%nat.
Proof.
  rewrite streamlit_app_spec.
  pose proof (entered_urls_length page) as L.
  destruct (Streamlit.clicked page).
  2:{ exists []. cbn [fst snd]. rewrite app_nil_r.
      change (requests []) with 0%nat.
      change (rendered_invocations []) with 0%nat. repeat split; lia. }
  destruct (entered_urls page) as [|u us] eqn:Eu.
  { exists []. cbn [fst snd]. rewrite app_nil_r.
    change (requests []) with 0%nat.
    change (rendered_invocations []) with 0%nat. repeat split; lia. }
  set (d0 := (d ++ _)%list).
  destruct (show_results_at_most is_get 6 process_url_requests
              (u :: us) 0%nat env s d0) as (t & T & C).
  destruct (show_results_at_most is_chrome 1 process_url_browsers
              (u :: us) 0%nat env s d0) as (t' & T' & C').
  assert (t' = t) by (rewrite T in T'; now apply app_inv_head in T').
  subst t'. exists t. split; [exact T|].
  unfold requests, rendered_invocations. repeat split; lia.
Qed.

(* ===================================================================== *)
(** * Further properties of the normalisation *)

(** X23.  The normalisation keeps the scheme it is given: the normalised
    URL is a plain [http://] one exactly when the input started with
    [http://]; every other accepted input is requested over
    [https://]. *)
Theorem normalize_keeps_scheme (url self_url : string) :
  CrawlerAgent._normalize_url url = Ok self_url ->
  startswith "http://" self_url = startswith "http://" url
  /\ startswith "https://" self_url = negb (startswith "http://" url).
Proof.
  intros H. destruct (normalize_scheme_of _ _ H) as (p & -> & S).
  destruct (startswith "http://" url).
  - destruct (urlunparse_http _ S) as [H1 H2]. now rewrite H1, H2.
  - rewrite (urlunparse_https _ S). split; [|reflexivity].
    unfold Urllib.urlunparse. rewrite S. apply urlunsplit_https.
Qed.

Lemma normalize_keeps_scheme_witness :
  startswith "http://" "http://example.com/a"
  = startswith "http://" "http://example.com/a"
  /\ startswith "https://" "http://example.com/a"
     = negb (startswith "http://" "http://example.com/a").
Proof.
  apply (normalize_keeps_scheme "http://example.com/a" "http://example.com/a").
  reflexivity.
Defined.

(** A character of a part of a string is a character of the string. *)
Lemma contains_lstrip_by c p s :
  contains c (lstrip_by p s) = true -> contains c s = true.
Proof.
  induction s as [|d t IH]; simpl; [easy|].
  destruct (p d); [|easy]. intros H. rewrite (IH H). apply orb_true_r.
Qed.

Lemma contains_remove_by c p s :
  contains c (remove_by p s) = true -> contains c s = true.
Proof.
  induction s as [|d t IH]; simpl; [easy|].
  destruct (p d); simpl; intros H.
  - rewrite (IH H). apply orb_true_r.
  - apply orb_true_iff in H. destruct H as [H|H].
    + now rewrite H.
    + rewrite (IH H). apply orb_true_r.
Qed.

Lemma contains_break c p s :
  (contains c (fst (break p s)) = true -> contains c s = true)
  /\ (contains c (snd (break p s)) = true -> contains c s = true).
Proof.
  induction s as [|d t [IH1 IH2]]; simpl; [easy|].
  destruct (p d); [easy|].
  destruct (break p t) as [a b]. simpl in *. split; intros H.
  - apply orb_true_iff in H. destruct H as [H|H].
    + now rewrite H.
    + rewrite (IH1 H). apply orb_true_r.
  - rewrite (IH2 H). apply orb_true_r.
Qed.

Lemma contains_tail c d t :
  contains c t = true -> contains c (String d t) = true.
Proof. simpl. intros ->. apply orb_true_r. Qed.

Lemma contains_substring c s :
  forall n m, contains c (String.substring n m s) = true -> contains c s = true.
Proof.
  induction s as [|d t IH]; intros n m.
  - destruct n, m; simpl; easy.
  - destruct n as [|n].
    + destruct m as [|m]; simpl; [easy|]. intros H.
      apply orb_true_iff in H. destruct H as [H|H].
      * now rewrite H.
      * rewrite (IH 0%nat m H). apply orb_true_r.
    + simpl. intros H. rewrite (IH n m H). apply orb_true_r.
Qed.

Lemma contains_split_scheme c url sch rest :
  Urllib.split_scheme url = Some (sch, rest) ->
  contains c rest = true -> contains c url = true.
Proof.
  unfold Urllib.split_scheme, partition.
  pose proof (proj2 (contains_break c (Ascii.eqb ":") url)) as B.
  destruct (break (Ascii.eqb ":") url) as [a [|x b]].
  - destruct a; discriminate.
  - destruct a as [|y pre]; [discriminate|].
    destruct (_ && _); [|discriminate].
    intros H; inversion H; subst. intros Hc. apply B. simpl.
    rewrite Hc. apply orb_true_r.
Qed.

Lemma all_chars_contains p s :
  all_chars p s = true ->
  forall c, contains c s = true -> p c = true.
Proof.
  induction s as [|d t IH]; simpl; [easy|].
  intros H c Hc. apply andb_true_iff in H. destruct H as [Hd Ht].
  apply orb_true_iff in Hc. destruct Hc as [Hc|Hc].
  - apply Ascii.eqb_eq in Hc. now subst.
  - now apply IH.
Qed.

Lemma contains_all_chars p s :
  (forall c, contains c s = true -> p c = true) -> all_chars p s = true.
Proof.
  induction s as [|d t IH]; simpl; [easy|]. intros H.
  rewrite (H d) by (now rewrite Ascii.eqb_refl). simpl.
  apply IH. intros c Hc. apply H. rewrite Hc. apply orb_true_r.
Qed.

(** The characters of the network location [urlsplit] cuts out are
    characters of the URL. *)
Lemma contains_splitnetloc c url netloc rest :
  Urllib._splitnetloc url = (netloc, rest) ->
  contains c netloc = true -> contains c url = true.
Proof.
  unfold Urllib._splitnetloc. intros E H.
  pose proof (proj1 (contains_break c Urllib.netloc_delim
                (String.substring 2 (String.length url - 2) url))) as B.
  rewrite E in B. eapply contains_substring. now apply B.
Qed.

(** The checks of a bracketed host only raise [ValueError]. *)
Lemma check_bracketed_netloc_ValueError netloc e :
  Urllib._check_bracketed_netloc netloc = Err e -> exn_cls e = ValueError.
Proof.
  assert (H : forall hostname, Urllib._check_bracketed_host hostname = Err e ->
                               exn_cls e = ValueError).
  { intros hostname. unfold Urllib._check_bracketed_host.
    destruct (startswith "v" hostname).
    - destruct (Urllib.ipvfuture hostname); intros E; inversion E; reflexivity.
    - unfold Ipaddress.ip_address.
      destruct (Ipaddress.is_ipv4 hostname);
        [intros E; inversion E; reflexivity|].
      destruct (Ipaddress.is_ipv6 hostname); intros E; inversion E;
        reflexivity. }
  unfold Urllib._check_bracketed_netloc.
  destruct (rpartition "@" netloc) as [[a f] hp].
  destruct (partition "[" hp) as [[before [|]] bracketed].
  - destruct (truthy before); [intros E; inversion E; reflexivity|].
    destruct (partition "]" bracketed) as [[hostname f'] port].
    destruct (_ && _); [intros E; inversion E; reflexivity | apply H].
  - destruct (partition ":" hp) as [[hostname f'] port]. apply H.
Qed.

(** What [urlsplit] raises is a [ValueError], and on a URL of ASCII
    characters it comes from a square bracket of the URL. *)
Lemma urlsplit_rejects_brackets url d e :
  Urllib.urlsplit url d = Err e ->
  exn_cls e = ValueError
  /\ (isascii url = true -> (contains "[" url || contains "]" url) = true).
Proof.
  unfold Urllib.urlsplit.
  set (url1 := Urllib.clean_url url).
  assert (H1 : forall c, contains c url1 = true -> contains c url = true).
  { intros c H. unfold url1, Urllib.clean_url in H.
    now apply contains_remove_by, contains_lstrip_by in H. }
  assert (H2 : forall url2,
             (forall c, contains c url2 = true -> contains c url = true) ->
             match Urllib.split_netloc_checked url2 with
             | Err e' =>
                 exn_cls e' = ValueError
                 /\ (contains "[" url || contains "]" url) = true
             | Ok (netloc, _) =>
                 forall c, contains c netloc = true -> contains c url = true
             end).
  { intros url2 Hu. unfold Urllib.split_netloc_checked.
    destruct (startswith "//" url2); [|intros c; discriminate].
    destruct (Urllib._splitnetloc url2) as [netloc rest] eqn:En.
    assert (H3 : forall c, contains c netloc = true -> contains c url = true).
    { intros c H. apply Hu. eapply contains_splitnetloc; eauto. }
    destruct (contains "[" netloc) eqn:C1, (contains "]" netloc) eqn:C2;
      simpl; try exact H3.
    - destruct (Urllib._check_bracketed_netloc netloc) as [u|e'] eqn:Ec;
        [exact H3|].
      split; [exact (check_bracketed_netloc_ValueError _ _ Ec)|].
      now rewrite (H3 _ C1).
    - split; [reflexivity|]. now rewrite (H3 _ C1).
    - split; [reflexivity|]. rewrite (H3 _ C2). apply orb_true_r. }
  assert (H4 : forall sch url2,
             (forall c, contains c url2 = true -> contains c url = true) ->
             match Urllib.split_netloc_checked url2 with
             | Err e0 => Err e0
             | Ok (netloc, url3) =>
                 let '(url4, fragment) :=
                   match partition "#" url3 with
                   | (a, true, b) => (a, b)
                   | _ => (url3, EmptyString)
                   end in
                 let '(url5, query) :=
                   match partition "?" url4 with
                   | (a, true, b) => (a, b)
                   | _ => (url4, EmptyString)
                   end in
                 match Urllib._checknetloc netloc with
                 | Err e0 => Err e0
                 | Ok _ => Ok (Urllib.mkSplit sch netloc url5 query fragment)
                 end
             end = Err e ->
             exn_cls e = ValueError
             /\ (isascii url = true ->
                 (contains "[" url || contains "]" url) = true)).
  { intros sch url2 Hu. specialize (H2 url2 Hu).
    destruct (Urllib.split_netloc_checked url2) as [[netloc url3]|e'].
    - destruct (match partition "#" url3 with
                | (a, true, b) => (a, b)
                | _ => (url3, EmptyString)
                end) as [url4 fragment].
      destruct (match partition "?" url4 with
                | (a, true, b) => (a, b)
                | _ => (url4, EmptyString)
                end) as [url5 query].
      destruct (Urllib._checknetloc netloc) as [u|e'] eqn:Ec; [discriminate|].
      intros E; inversion E; subst e'. clear E.
      unfold Urllib._checknetloc in Ec.
      destruct (negb (truthy netloc) || isascii netloc) eqn:Ea;
        [discriminate|].
      split.
      + destruct (list_eq_dec _ _ _); [discriminate|].
        destruct (existsb _ _); inversion Ec; reflexivity.
      + intros Hascii. exfalso.
        apply orb_false_iff in Ea. destruct Ea as [_ Ea].
        assert (isascii netloc = true); [|congruence].
        apply contains_all_chars. intros c Hc.
        exact (all_chars_contains _ _ Hascii c (H2 c Hc)).
    - destruct H2 as [Hv Hb]. intros E; inversion E; subst e'.
      split; [exact Hv | intros _; exact Hb]. }
  destruct (Urllib.split_scheme url1) as [[sch rest]|] eqn:Es.
  - apply H4. intros c H. apply H1. eapply contains_split_scheme; eauto.
  - apply H4. exact H1.
Qed.

(** X24.  What [_normalize_url] raises is a [ValueError] of [urlparse],
    and an input of ASCII characters is rejected only when it holds a
    square bracket: an ASCII input without ['['] and [']'] is always
    accepted. *)
Theorem normalize_rejects_only_brackets (url : string) (e : exn) :
  CrawlerAgent._normalize_url url = Err e ->
  exn_cls e = ValueError
  /\ (isascii url = true -> (contains "[" url || contains "]" url) = true).
Proof.
  unfold CrawlerAgent._normalize_url, Urllib.urlparse.
  set (url1 := if negb _ then _ else _).
  assert (H1 : forall c, (c = "[" \/ c = "]")%char ->
                         contains c url1 = contains c url).
  { intros c Hc. subst url1. destruct (negb _); [|reflexivity].
    destruct Hc as [-> | ->]; reflexivity. }
  assert (H2 : isascii url = true -> isascii url1 = true).
  { intros H. subst url1. destruct (negb _); [|exact H]. exact H. }
  destruct (Urllib.urlsplit url1 EmptyString) as [sp|e'] eqn:E.
  - destruct (_ && _); [destruct (Urllib._splitparams _)|]; discriminate.
  - intros H; inversion H; subst e'.
    destruct (urlsplit_rejects_brackets _ _ _ E) as [He Hc].
    split; [exact He|]. intros Ha.
    rewrite <- (H1 "["%char), <- (H1 "]"%char); auto.
Qed.

(** A host between brackets that is no IP literal: rejected, with a
    message of its own. *)
Lemma normalize_rejects_witness :
  exn_cls (Exn ValueError
             "'x' does not appear to be an IPv4 or IPv6 address")
  = ValueError
  /\ (contains "[" "http://[x]/" || contains "]" "http://[x]/") = true.
Proof.
  destruct (normalize_rejects_only_brackets "http://[x]/"
              (Exn ValueError
                 "'x' does not appear to be an IPv4 or IPv6 address"))
    as [H1 H2].
  - vm_compute. reflexivity.
  - split; [exact H1 | apply H2; reflexivity].
Defined.

(* ===================================================================== *)
(** * The target of the browser *)

Lemma process_url_driver_get url :
  emits (driver_get_to url) (process_url url).
Proof.
  unfold process_url. apply emits_bind.
  { unfold CrawlerAgent.__init__, CrawlerAgent._get_headers. emits_auto. }
  intros crawler_url. apply emits_bind.
  { apply fetch_content_emits; intros; exact I. }
  intros [html|]; [destruct (truthy html)|]; try apply emits_ret.
  apply emits_bind.
  - unfold ParserAgent.parse, ParserAgent.parse_with_selenium,
      ParserAgent.drive.
    emits_auto.
  - intros [[|x parsed] method]; apply emits_ret.
Qed.

(** X25.  The browser of the rendered extractor is sent to the input as
    it was given to [process_url], not to the normalised URL the fetcher
    requests. *)
Theorem browser_is_sent_to_raw_input env url :
  Forall (driver_get_to url) (trace (snd (run env url))).
Proof.
  unfold run. destruct (process_url url env initial) as [r s'] eqn:E.
  destruct (process_url_driver_get _ _ _ _ _ E) as (t & T & F).
  cbn [snd]. rewrite T. exact F.
Qed.

(** An input without a scheme: the fetcher requests it behind
    [https://], the browser is given the bare input. *)
Lemma browser_target_witness :
  Forall (driver_get_to "example.com")
    (trace (snd (run (Examples.world [Examples.responds 200 [] "<nothing>"]
                        (Examples.browser_showing "<plain>")) "example.com")))
  /\ In (EvDriverGet "example.com")
        (trace (snd (run (Examples.world
                            [Examples.responds 200 [] "<nothing>"]
                            (Examples.browser_showing "<plain>"))
                         "example.com"))).
Proof.
  split; [apply browser_is_sent_to_raw_input|].
  vm_compute. do 5 right. left. reflexivity.
Defined.
